(** * Employer: the employee CRUD and search service

    A shallow embedding of the three layers of the service
    (repository over a PostgreSQL table, validating service, HTTP
    handlers) together with the part of the store that the schema in
    [traits/database/database.go] fixes, and the properties of
    searching, validation and error classification proved over it. *)

From Stdlib Require Import List ZArith Bool String Ascii Lia.
From Stdlib Require Import Permutation Sorted DecimalString.
Import ListNotations.
Open Scope Z_scope.

Set Implicit Arguments.

(* ================================================================= *)
(** * Go strings *)

(** A Go string is a sequence of bytes; every string that reaches the
    service (JSON bodies, query parameters, columns read from a UTF8
    database) is valid UTF-8, and on such strings the functions of package
    [strings] used by the code act on the sequence of runes.  A string is
    therefore embedded as its list of runes (code points). *)

Module strings.

Definition rune := Z.
Definition text := list rune.

Definition RuneError : rune := 65533.

Definition text_eqb (a b : text) : bool :=
  if list_eq_dec Z.eq_dec a b then true else false.

(** [is_empty s] is the Go test [s == ""]. *)
Definition is_empty (s : text) : bool :=
  match s with [] => true | _ :: _ => false end.

(** ** Reading string literals: the conversion [[]rune(s)] *)

Definition between (lo hi b : Z) : bool := (lo <=? b) && (b <=? hi).

Definition cont (b : Z) : bool := between 128 191 b.

(** Range of the second byte, by leading byte (Go's accept ranges). *)
Definition second_ok (b0 b1 : Z) : bool :=
  if b0 =? 224 then between 160 191 b1
  else if b0 =? 237 then between 128 159 b1
  else if b0 =? 240 then between 144 191 b1
  else if b0 =? 244 then between 128 143 b1
  else cont b1.

Fixpoint decode (l : list Z) : text :=
  match l with
  | [] => []
  | b0 :: t0 =>
    if b0 <? 128 then b0 :: decode t0
    else
      match t0 with
      | [] => [RuneError]
      | b1 :: t1 =>
        if between 194 223 b0 && cont b1
        then ((b0 - 192) * 64 + (b1 - 128)) :: decode t1
        else
          match t1 with
          | [] => RuneError :: decode t0
          | b2 :: t2 =>
            if between 224 239 b0 && second_ok b0 b1 && cont b2
            then ((b0 - 224) * 4096 + (b1 - 128) * 64 + (b2 - 128))
                   :: decode t2
            else
              match t2 with
              | [] => RuneError :: decode t0
              | b3 :: t3 =>
                if between 240 244 b0 && second_ok b0 b1
                   && cont b2 && cont b3
                then ((b0 - 240) * 262144 + (b1 - 128) * 4096
                      + (b2 - 128) * 64 + (b3 - 128)) :: decode t3
                else RuneError :: decode t0
              end
          end
      end
  end.

Definition byte_of (a : ascii) : Z := Z.of_N (N_of_ascii a).

(** [runes s] is the rune sequence of the literal [s]. *)
Definition runes (s : string) : text :=
  decode (map byte_of (list_ascii_of_string s)).

(** ** Package [unicode] *)

(** [unicode.IsSpace]: the Latin-1 cases of the switch, then the
    White_Space table. *)
Definition IsSpace (r : rune) : bool :=
  if (0 <=? r) && (r <=? 255) then
    between 9 13 r || (r =? 32) || (r =? 133) || (r =? 160)
  else
    (r =? 5760) || between 8192 8202 r || between 8232 8233 r
    || (r =? 8239) || (r =? 8287) || (r =? 12288).

(** ** Package [strings] *)

Fixpoint HasPrefix (s prefix : text) : bool :=
  match prefix, s with
  | [], _ => true
  | _ :: _, [] => false
  | p :: prefix', c :: s' => (c =? p) && HasPrefix s' prefix'
  end.

Fixpoint Contains (s substr : text) : bool :=
  HasPrefix s substr ||
  match s with
  | [] => false
  | _ :: s' => Contains s' substr
  end.

Fixpoint TrimLeft (s : text) : text :=
  match s with
  | [] => []
  | c :: s' => if IsSpace c then TrimLeft s' else s
  end.

(** Removes the trailing white space: a rune is kept when anything that
    is kept follows it or when it is not white space itself. *)
Fixpoint TrimRight (s : text) : text :=
  match s with
  | [] => []
  | c :: s' =>
    match TrimRight s' with
    | [] => if IsSpace c then [] else [c]
    | t => c :: t
    end
  end.

Definition TrimSpace (s : text) : text := TrimRight (TrimLeft s).

(** [strings.ToLower] maps [unicode.ToLower] over the runes; the case
    table of package [unicode] is taken as a parameter [lower]. *)
Definition ToLower (lower : rune -> rune) (s : text) : text := map lower s.

(** The part of the case table for ASCII (the fast path of
    [strings.ToLower]); used to run the definitions. *)
Definition ascii_lower (r : rune) : rune :=
  if between 65 90 r then r + 32 else r.

(** [%d] of an [int]. *)
Definition Itoa (n : Z) : text :=
  map byte_of (list_ascii_of_string (NilZero.string_of_int (Z.to_int n))).

End strings.
Import strings.

(* ================================================================= *)
(** * Errors *)

(** The dynamic types behind the [error] values that travel through the
    layers: [*repository.NotFoundError], [*service.ValidationError], the
    wrapper built by [fmt.Errorf] with the verb [%w], the sentinel
    [sql.ErrNoRows], and the errors raised by [database/sql] and the
    driver ([code] is the SQLSTATE when the server raised the error and is
    empty otherwise, [msg] the text of [Error()]). *)
Inductive error : Type :=
| NotFoundError (Entity : text) (ID : Z) (Data : option text)
| ValidationError (Field Message : text)
| wrapError (msg : text) (err : error)
| ErrNoRows
| driverError (code msg : text).

(** [%v] of the [Data interface{}] field: [nil] or a string. *)
Definition fmt_v (d : option text) : text :=
  match d with
  | None => runes "<nil>"
  | Some s => s
  end.

(** The [Error()] methods. *)
Definition Error (e : error) : text :=
  match e with
  | NotFoundError Entity ID Data =>
    if negb (ID =? 0)
    then Entity ++ runes " с ID " ++ Itoa ID ++ runes " не найден"
    else Entity ++ runes " не найден: " ++ fmt_v Data
  | ValidationError _ Message => Message
  | wrapError msg _ => msg
  | ErrNoRows => runes "sql: no rows in result set"
  | driverError _ msg => msg
  end.

(** [fmt.Errorf(prefix + ": %w", err)]. *)
Definition Errorf (prefix : text) (err : error) : error :=
  wrapError (prefix ++ runes ": " ++ Error err) err.

(** [errors.Unwrap]. *)
Definition Unwrap (e : error) : option error :=
  match e with
  | wrapError _ err => Some err
  | _ => None
  end.

(** The dynamic type of an error value, which is what a type assertion
    on [err] to the pointer type of [service.ValidationError] looks
    at. *)
Inductive error_type : Type :=
| T_NotFoundError | T_ValidationError | T_wrapError | T_errorString | T_driver.

Definition type_of (e : error) : error_type :=
  match e with
  | NotFoundError _ _ _ => T_NotFoundError
  | ValidationError _ _ => T_ValidationError
  | wrapError _ _ => T_wrapError
  | ErrNoRows => T_errorString
  | driverError _ _ => T_driver
  end.

(* ================================================================= *)
(** * Package domain *)

Module domain.

Record Employee : Type := {
  ID : Z;
  Name : text;
  Phone : text;
  City : text
}.

Definition set_ID (e : Employee) (id : Z) : Employee :=
  {| ID := id; Name := Name e; Phone := Phone e; City := City e |}.

Record CreateEmployeeRequest : Type := {
  create_Name : text;
  create_Phone : text;
  create_City : text
}.

Record UpdateEmployeeRequest : Type := {
  update_Name : text;
  update_Phone : text;
  update_City : text
}.

End domain.
Import domain.

(* ================================================================= *)
(** * The store *)

(** The table [employees] as [createEmployeesTable] declares it, and the
    statements the repository sends to it.  The columns [created_at] and
    [updated_at] are never read or written by a statement and are left
    out. *)

Module database.

Record Row : Type := {
  row_id : Z;
  row_name : text;
  row_phone : text;
  row_city : text
}.

(** The locale of the database: how [LOWER] folds a character and how
    [ORDER BY] on a text column compares. *)
Record Locale : Type := {
  lower : rune -> rune;
  collate_leb : text -> text -> bool
}.

(** The statements of the repository, with their arguments. *)
Inductive Stmt : Type :=
| InsertStmt (name phone city : text)
| SelectByIDStmt (id : Z)
| SearchStmt (pattern prefix_pattern : text)
| UpdateStmt (id : Z) (name phone city : text)
| DeleteStmt (id : Z).

(** The handle [*sql.DB]: the rows of the table in storage order, the
    next value of the sequence behind [id SERIAL], what is wrong with the
    connection at the moment (a statement that cannot be executed, a row
    stream that breaks, a result whose row count cannot be read), and the
    statements sent so far. *)
Record DB : Type := {
  lc : Locale;
  table : list Row;
  seq : Z;
  exec_fault : option error;
  rows_fault : option error;
  affected_fault : option error;
  log : list Stmt
}.

Definition with_log (db : DB) (l : list Stmt) : DB :=
  {| lc := lc db; table := table db; seq := seq db;
     exec_fault := exec_fault db; rows_fault := rows_fault db;
     affected_fault := affected_fault db; log := l |}.

Definition with_table (db : DB) (t : list Row) : DB :=
  {| lc := lc db; table := t; seq := seq db;
     exec_fault := exec_fault db; rows_fault := rows_fault db;
     affected_fault := affected_fault db; log := log db |}.

Definition with_seq (db : DB) (n : Z) : DB :=
  {| lc := lc db; table := table db; seq := n;
     exec_fault := exec_fault db; rows_fault := rows_fault db;
     affected_fault := affected_fault db; log := log db |}.

(** The environment of the store: the connection breaks or recovers. *)
Definition with_faults (db : DB) (e r a : option error) : DB :=
  {| lc := lc db; table := table db; seq := seq db;
     exec_fault := e; rows_fault := r; affected_fault := a;
     log := log db |}.

Definition logged (st : Stmt) (db : DB) : DB := with_log db (log db ++ [st]).

(** The store right after [CreateTables]. *)
Definition empty_DB (l : Locale) : DB :=
  {| lc := l; table := []; seq := 1;
     exec_fault := None; rows_fault := None; affected_fault := None;
     log := [] |}.

(** ** Column types *)

Definition max_int4 : Z := 2147483647.
Definition min_int4 : Z := -2147483648.

Definition int4_ok (n : Z) : bool := (min_int4 <=? n) && (n <=? max_int4).

Definition has_nul (s : text) : bool := existsb (Z.eqb 0) s.

(** Assignment to a [VARCHAR(n)] column: longer values are rejected
    unless the excess is made of spaces, which are cut off. *)
Definition varchar (n : nat) (s : text) : option text :=
  if (List.length s <=? n)%nat then Some s
  else if forallb (Z.eqb 32) (skipn n s) then Some (firstn n s)
  else None.

Definition quoted (s : string) : text := [34] ++ runes s ++ [34].

Definition err_too_long (n : string) : error :=
  driverError (runes "22001")
    (runes "pq: value too long for type character varying(" ++ runes n
       ++ runes ")").
Definition err_nul : error :=
  driverError (runes "22021")
    (runes "pq: invalid byte sequence for encoding " ++ quoted "UTF8"
       ++ runes ": 0x00").
Definition err_int4 (n : Z) : error :=
  driverError (runes "22003")
    (runes "pq: value " ++ [34] ++ Itoa n ++ [34]
       ++ runes " is out of range for type integer").
Definition err_sequence : error :=
  driverError (runes "2200H")
    (runes "pq: nextval: reached maximum value of sequence "
       ++ quoted "employees_id_seq" ++ runes " (2147483647)").
Definition err_unique : error :=
  driverError (runes "23505")
    (runes "pq: duplicate key value violates unique constraint "
       ++ quoted "employees_phone_key").
Definition err_escape : error :=
  driverError (runes "22025")
    (runes "pq: LIKE pattern must not end with escape character").

(** The three text arguments of INSERT and UPDATE, as the columns
    [name VARCHAR(255)], [phone VARCHAR(50)], [city VARCHAR(100)] accept
    them. *)
Definition coerce_columns (name phone city : text)
  : error + (text * text * text) :=
  if has_nul name || has_nul phone || has_nul city then inl err_nul
  else
    match varchar 255 name with
    | None => inl (err_too_long "255")
    | Some n =>
      match varchar 50 phone with
      | None => inl (err_too_long "50")
      | Some p =>
        match varchar 100 city with
        | None => inl (err_too_long "100")
        | Some c => inr (n, p, c)
        end
      end
    end.

Definition phones (t : list Row) : list text := map row_phone t.
Definition ids (t : list Row) : list Z := map row_id t.

Definition phone_in (p : text) (t : list Row) : bool :=
  existsb (fun r => text_eqb (row_phone r) p) t.

Definition has_id (id : Z) (r : Row) : bool := row_id r =? id.

Definition is_nil (A : Type) (l : list A) : bool :=
  match l with [] => true | _ :: _ => false end.

(** ** LIKE *)

(** A pattern is read left to right: a backslash makes the next character
    literal, [%] stands for any sequence of characters, [_] for any one
    character.  A pattern that ends in a lone backslash is an error. *)
Inductive tok : Type :=
| Lit (c : rune)
| One
| Any.

Definition backslash : rune := 92.
Definition percent : rune := 37.
Definition underscore : rune := 95.

Fixpoint parse_like (p : text) : option (list tok) :=
  match p with
  | [] => Some []
  | c :: p' =>
    if c =? backslash then
      match p' with
      | [] => None
      | d :: p'' => option_map (cons (Lit d)) (parse_like p'')
      end
    else if c =? percent then option_map (cons Any) (parse_like p')
    else if c =? underscore then option_map (cons One) (parse_like p')
    else option_map (cons (Lit c)) (parse_like p')
  end.

Fixpoint like_match (p : list tok) (s : text) : bool :=
  match p with
  | [] => is_empty s
  | Lit c :: p' =>
    match s with
    | [] => false
    | x :: s' => (x =? c) && like_match p' s'
    end
  | One :: p' =>
    match s with
    | [] => false
    | _ :: s' => like_match p' s'
    end
  | Any :: p' =>
    (fix any (s : text) : bool :=
       like_match p' s ||
       match s with
       | [] => false
       | _ :: s' => any s'
       end) s
  end.

(** ** ORDER BY and LIMIT *)

Section OrderBy.
Variable A : Type.
Variable leb : A -> A -> bool.

Fixpoint insert_row (x : A) (l : list A) : list A :=
  match l with
  | [] => [x]
  | y :: l' => if leb x y then x :: l else y :: insert_row x l'
  end.

(** Rows that compare equal stay in storage order (the server is free
    to return them in any order). *)
Definition order_by (l : list A) : list A := fold_right insert_row [] l.
End OrderBy.

Definition limit (n : nat) (A : Type) (l : list A) : list A := firstn n l.

(** ** The search statement *)

Section Search.
Variable l : Locale.

Definition LOWER (s : text) : text := map (lower l) s.

(** [LOWER(col) LIKE LOWER($n)] for a parsed [LOWER($n)]. *)
Definition col_like (p : list tok) (col : text) : bool :=
  like_match p (LOWER col).

(** The WHERE clause. *)
Definition where_search (p : list tok) (r : Row) : bool :=
  col_like p (row_name r) || col_like p (row_phone r)
  || col_like p (row_city r).

(** The CASE expression of the ORDER BY clause. *)
Definition rank (p : list tok) (r : Row) : Z :=
  if col_like p (row_name r) then 1
  else if col_like p (row_phone r) then 2
  else if col_like p (row_city r) then 3
  else 4.

(** [ORDER BY CASE ... END, name ASC]. *)
Definition search_leb (p : list tok) (r1 r2 : Row) : bool :=
  (rank p r1 <? rank p r2)
  || ((rank p r1 =? rank p r2)
      && collate_leb l (row_name r1) (row_name r2)).

Definition select_search (p1 p2 : list tok) (t : list Row) : list Row :=
  limit 100 (order_by (search_leb p2) (filter (where_search p1) t)).
End Search.

(** What [QueryContext] hands back: the rows that [Next] and [Scan]
    deliver, and what [Err] says once [Next] has returned false. *)
Record Rows : Type := {
  rows_data : list Row;
  rows_err : option error
}.

(** What [ExecContext] hands back. *)
Record Result : Type := {
  RowsAffected : error + Z
}.

Definition result_of (db : DB) (n : Z) : Result :=
  {| RowsAffected := match affected_fault db with
                     | Some e => inl e
                     | None => inr n
                     end |}.

(** ** Executing the statements *)

Definition query_search (p1 p2 : text) (db : DB) : (error + Rows) * DB :=
  let db' := logged (SearchStmt p1 p2) db in
  match exec_fault db with
  | Some e => (inl e, db')
  | None =>
    if has_nul p1 || has_nul p2 then (inl err_nul, db')
    else
      match parse_like (LOWER (lc db) p1), parse_like (LOWER (lc db) p2) with
      | Some m, Some x =>
        (inr {| rows_data := select_search (lc db) m x (table db);
                rows_err := rows_fault db |}, db')
      | _, _ => (inl err_escape, db')
      end
  end.

(** [INSERT INTO employees (name, phone, city) VALUES ... RETURNING id]:
    the sequence is advanced before the row is checked against the
    UNIQUE constraint on [phone], and stays advanced when the check
    fails. *)
Definition query_insert (name phone city : text) (db : DB)
  : (error + Z) * DB :=
  let db' := logged (InsertStmt name phone city) db in
  match exec_fault db with
  | Some e => (inl e, db')
  | None =>
    match coerce_columns name phone city with
    | inl e => (inl e, db')
    | inr (n, p, c) =>
      if max_int4 <? seq db then (inl err_sequence, db')
      else
        let id := seq db in
        let db'' := with_seq db' (id + 1) in
        if phone_in p (table db) then (inl err_unique, db'')
        else
          (inr id,
           with_table db''
             (table db ++ [{| row_id := id; row_name := n;
                              row_phone := p; row_city := c |}]))
    end
  end.

(** [SELECT id, name, phone, city FROM employees WHERE id = $1], read
    with [QueryRowContext(...).Scan]. *)
Definition query_by_id (id : Z) (db : DB) : (error + Row) * DB :=
  let db' := logged (SelectByIDStmt id) db in
  match exec_fault db with
  | Some e => (inl e, db')
  | None =>
    if negb (int4_ok id) then (inl (err_int4 id), db')
    else
      match find (has_id id) (table db) with
      | Some r => (inr r, db')
      | None => (inl ErrNoRows, db')
      end
  end.

(** [UPDATE employees SET name = $2, phone = $3, city = $4 WHERE id = $1]:
    the rows with that id are rewritten; a rewritten row whose phone some
    other row holds violates the UNIQUE constraint, and then nothing
    changes. *)
Definition exec_update (id : Z) (name phone city : text) (db : DB)
  : (error + Result) * DB :=
  let db' := logged (UpdateStmt id name phone city) db in
  match exec_fault db with
  | Some e => (inl e, db')
  | None =>
    if negb (int4_ok id) then (inl (err_int4 id), db')
    else
      match coerce_columns name phone city with
      | inl e => (inl e, db')
      | inr (n, p, c) =>
        let hit := filter (has_id id) (table db) in
        let rest := filter (fun r => negb (has_id id r)) (table db) in
        if is_nil hit then (inr (result_of db 0), db')
        else if phone_in p rest || (1 <? Z.of_nat (List.length hit))
        then (inl err_unique, db')
        else
          (inr (result_of db (Z.of_nat (List.length hit))),
           with_table db'
             (map (fun r =>
                     if has_id id r
                     then {| row_id := row_id r; row_name := n;
                             row_phone := p; row_city := c |}
                     else r) (table db)))
      end
  end.

(** [DELETE FROM employees WHERE id = $1]. *)
Definition exec_delete (id : Z) (db : DB) : (error + Result) * DB :=
  let db' := logged (DeleteStmt id) db in
  match exec_fault db with
  | Some e => (inl e, db')
  | None =>
    if negb (int4_ok id) then (inl (err_int4 id), db')
    else
      let hit := filter (has_id id) (table db) in
      (inr (result_of db (Z.of_nat (List.length hit))),
       with_table db' (filter (fun r => negb (has_id id r)) (table db)))
  end.

(** The locale C: only ASCII letters are folded, and text is compared
    code point by code point. *)
Fixpoint codepoint_leb (a b : text) : bool :=
  match a, b with
  | [], _ => true
  | _ :: _, [] => false
  | x :: a', y :: b' => (x <? y) || ((x =? y) && codepoint_leb a' b')
  end.

Definition C_locale : Locale :=
  {| lower := ascii_lower; collate_leb := codepoint_leb |}.

End database.
Import database.

(* ================================================================= *)
(** * Package repository *)

Module repository.

(** The interface [EmployeeRepository], with the methods that the
    operations studied here call; [S] is the state the implementation
    works on.  A method that takes [*domain.Employee] and assigns to it
    returns the employee as it is after the call. *)
Module EmployeeRepository.
Record t (S : Type) : Type := {
  Create : Employee -> S -> option error * Employee * S;
  GetByID : Z -> S -> option Employee * option error * S;
  Update : Employee -> S -> option error * S;
  Delete : Z -> S -> option error * S;
  SearchEmployees : text -> S -> list Employee * option error * S
}.
End EmployeeRepository.

(** The implementation over the store. *)
Module employeeRepository.

(** [rows.Scan(&employee.ID, &employee.Name, &employee.Phone,
    &employee.City)]; every column is NOT NULL and has the type of its
    destination, so the scan of a delivered row does not fail. *)
Definition Scan (r : Row) : Employee :=
  {| ID := row_id r; Name := row_name r;
     Phone := row_phone r; City := row_city r |}.

(** The loop [for rows.Next() { ...; employees = append(employees,
    employee) }]. *)
Definition scan_all (rows : list Row) : list Employee :=
  fold_left (fun employees r => employees ++ [Scan r]) rows [].

Definition Create (employee : Employee) (db : DB)
  : option error * Employee * DB :=
  match query_insert (Name employee) (Phone employee) (City employee) db with
  | (inl err, db') =>
    (Some (Errorf (runes "создание сотрудника") err), employee, db')
  | (inr id, db') => (None, set_ID employee id, db')
  end.

Definition GetByID (id : Z) (db : DB)
  : option Employee * option error * DB :=
  match query_by_id id db with
  | (inl err, db') =>
    match err with
    | ErrNoRows =>
      (None, Some (NotFoundError (runes "employee") id None), db')
    | _ => (None, Some (Errorf (runes "получение сотрудника") err), db')
    end
  | (inr r, db') => (Some (Scan r), None, db')
  end.

Definition SearchEmployees (searchQuery : text) (db : DB)
  : list Employee * option error * DB :=
  let searchQuery := TrimSpace searchQuery in
  if is_empty searchQuery then ([], None, db)
  else
    let searchPattern := runes "%" ++ searchQuery ++ runes "%" in
    let exactSearchPattern := searchQuery ++ runes "%" in
    match query_search searchPattern exactSearchPattern db with
    | (inl err, db') =>
      ([], Some (Errorf (runes "поиск сотрудников") err), db')
    | (inr rows, db') =>
      let employees := scan_all (rows_data rows) in
      match rows_err rows with
      | Some err =>
        ([], Some (Errorf (runes "итерация по результатам поиска") err),
         db')
      | None => (employees, None, db')
      end
    end.

Definition Update (employee : Employee) (db : DB) : option error * DB :=
  match exec_update (ID employee) (Name employee) (Phone employee)
                    (City employee) db with
  | (inl err, db') =>
    (Some (Errorf (runes "обновление сотрудника") err), db')
  | (inr result, db') =>
    match RowsAffected result with
    | inl err =>
      (Some (Errorf (runes "получение количества обновленных строк") err),
       db')
    | inr rowsAffected =>
      if rowsAffected =? 0
      then (Some (NotFoundError (runes "employee") (ID employee) None), db')
      else (None, db')
    end
  end.

Definition Delete (id : Z) (db : DB) : option error * DB :=
  match exec_delete id db with
  | (inl err, db') =>
    (Some (Errorf (runes "удаление сотрудника") err), db')
  | (inr result, db') =>
    match RowsAffected result with
    | inl err =>
      (Some (Errorf (runes "получение количества удаленных строк") err),
       db')
    | inr rowsAffected =>
      if rowsAffected =? 0
      then (Some (NotFoundError (runes "employee") id None), db')
      else (None, db')
    end
  end.

End employeeRepository.

(** [NewEmployeeRepository]. *)
Definition NewEmployeeRepository : EmployeeRepository.t DB :=
  {| EmployeeRepository.Create := employeeRepository.Create;
     EmployeeRepository.GetByID := employeeRepository.GetByID;
     EmployeeRepository.Update := employeeRepository.Update;
     EmployeeRepository.Delete := employeeRepository.Delete;
     EmployeeRepository.SearchEmployees :=
       employeeRepository.SearchEmployees |}.

(** A repository that notes every call it receives before passing it on,
    in the manner of the test doubles. *)
Inductive Call : Type :=
| CallCreate (e : Employee)
| CallGetByID (id : Z)
| CallUpdate (e : Employee)
| CallDelete (id : Z)
| CallSearchEmployees (q : text).

Section Spy.
Variable S : Type.
Variable repo : EmployeeRepository.t S.

Definition spy : EmployeeRepository.t (S * list Call) :=
  {| EmployeeRepository.Create := fun e st =>
       let '(err, e', s') := EmployeeRepository.Create repo e (fst st) in
       (err, e', (s', snd st ++ [CallCreate e]));
     EmployeeRepository.GetByID := fun id st =>
       let '(e, err, s') := EmployeeRepository.GetByID repo id (fst st) in
       (e, err, (s', snd st ++ [CallGetByID id]));
     EmployeeRepository.Update := fun e st =>
       let '(err, s') := EmployeeRepository.Update repo e (fst st) in
       (err, (s', snd st ++ [CallUpdate e]));
     EmployeeRepository.Delete := fun id st =>
       let '(err, s') := EmployeeRepository.Delete repo id (fst st) in
       (err, (s', snd st ++ [CallDelete id]));
     EmployeeRepository.SearchEmployees := fun q st =>
       let '(l, err, s') :=
         EmployeeRepository.SearchEmployees repo q (fst st) in
       (l, err, (s', snd st ++ [CallSearchEmployees q])) |}.
End Spy.

End repository.
Import repository.

(* ================================================================= *)
(** * Package service *)

Module service.

Module EmployeeService.
Record t (S : Type) : Type := {
  CreateEmployee : Employee -> S -> option error * Employee * S;
  GetEmployee : Z -> S -> option Employee * option error * S;
  UpdateEmployee : Employee -> S -> option error * S;
  DeleteEmployee : Z -> S -> option error * S;
  SearchEmployees : text -> S -> list Employee * option error * S
}.
End EmployeeService.

Module employeeService.

Definition validateEmployee (employee : Employee) : option error :=
  if is_empty (Name employee) then
    Some (ValidationError (runes "name") (runes "имя обязательно"))
  else if is_empty (Phone employee) then
    Some (ValidationError (runes "phone") (runes "телефон обязателен"))
  else if is_empty (City employee) then
    Some (ValidationError (runes "city") (runes "город обязателен"))
  else None.

Section Methods.
Variable S : Type.
Variable repo : EmployeeRepository.t S.

Definition CreateEmployee (employee : Employee) (s : S)
  : option error * Employee * S :=
  match validateEmployee employee with
  | Some err => (Some err, employee, s)
  | None => EmployeeRepository.Create repo employee s
  end.

Definition GetEmployee (id : Z) (s : S)
  : option Employee * option error * S :=
  EmployeeRepository.GetByID repo id s.

Definition UpdateEmployee (employee : Employee) (s : S)
  : option error * S :=
  match validateEmployee employee with
  | Some err => (Some err, s)
  | None => EmployeeRepository.Update repo employee s
  end.

Definition DeleteEmployee (id : Z) (s : S) : option error * S :=
  EmployeeRepository.Delete repo id s.

(** Modelled from the spec: the method [SearchEmployees] of
    [employeeService], which the tests call and the interface
    declares, is not among the source files.  After trimming white
    space the query is refused with a [ValidationError] when it is
    empty, when it has fewer than 2 characters and when it has more
    than 100; a query of 2 to 100 characters is passed, trimmed, to
    the search of the repository, whose result is returned.  The spec
    does not give the field and the messages of the three errors;
    they are the parameters [field], [msg_empty], [msg_short] and
    [msg_long]. *)
Definition SearchEmployees (field msg_empty msg_short msg_long : text)
           (query : text) (s : S)
  : list Employee * option error * S :=
  let query := TrimSpace query in
  if is_empty query then
    ([], Some (ValidationError field msg_empty), s)
  else if (List.length query <? 2)%nat then
    ([], Some (ValidationError field msg_short), s)
  else if (100 <? List.length query)%nat then
    ([], Some (ValidationError field msg_long), s)
  else EmployeeRepository.SearchEmployees repo query s.
End Methods.

End employeeService.

(** [NewEmployeeService]. *)
Definition NewEmployeeService (S : Type) (repo : EmployeeRepository.t S)
           (field msg_empty msg_short msg_long : text)
  : EmployeeService.t S :=
  {| EmployeeService.CreateEmployee := employeeService.CreateEmployee repo;
     EmployeeService.GetEmployee := employeeService.GetEmployee repo;
     EmployeeService.UpdateEmployee := employeeService.UpdateEmployee repo;
     EmployeeService.DeleteEmployee := employeeService.DeleteEmployee repo;
     EmployeeService.SearchEmployees :=
       employeeService.SearchEmployees repo field msg_empty msg_short
                                       msg_long |}.

End service.
Import service.

(* ================================================================= *)
(** * Package handler *)

Module handler.

(** What a handler writes: a status with a JSON body (an
    [EmployeeResponse], which has the fields of the employee, or an
    [ErrorResponse]) or with no body; [Panic] is the nil dereference of
    [employee.ID] when a service hands back neither an employee nor an
    error. *)
Inductive Body : Type :=
| EmployeeResponse (e : Employee)
| ErrorResponse (msg : text)
| NoBody.

Inductive Response : Type :=
| Reply (status : Z) (body : Body)
| Panic.

Definition status (r : Response) : option Z :=
  match r with
  | Reply st _ => Some st
  | Panic => None
  end.

Definition StatusOK : Z := 200.
Definition StatusCreated : Z := 201.
Definition StatusNoContent : Z := 204.
Definition StatusBadRequest : Z := 400.
Definition StatusNotFound : Z := 404.
Definition StatusInternalServerError : Z := 500.

Module EmployeeHandler.
Section Methods.
Variable S : Type.
Variable svc : EmployeeService.t S.
(** [unicode.ToLower], the case table of the Go library. *)
Variable unicode_ToLower : rune -> rune.

Definition writeErrorResponse (st : Z) (message : string) : Response :=
  Reply st (ErrorResponse (runes message)).

Definition isNotFoundError (err : error) : bool :=
  let errMsg := ToLower unicode_ToLower (Error err) in
  Contains errMsg (runes "не найден")
  || Contains errMsg (runes "not found")
  || Contains errMsg (runes "notfound").

(** [req] is the decoded body, [None] when it is not JSON. *)
Definition CreateEmployee (req : option CreateEmployeeRequest) (s : S)
  : Response * S :=
  match req with
  | None => (writeErrorResponse StatusBadRequest "некорректный JSON", s)
  | Some req =>
    let employee := {| ID := 0; Name := create_Name req;
                       Phone := create_Phone req;
                       City := create_City req |} in
    match EmployeeService.CreateEmployee svc employee s with
    | (Some err, _, s') =>
      match err with
      | ValidationError _ _ =>
        (Reply StatusBadRequest (ErrorResponse (Error err)), s')
      | _ =>
        (writeErrorResponse StatusInternalServerError
           "внутренняя ошибка сервера", s')
      end
    | (None, employee, s') =>
      (Reply StatusCreated (EmployeeResponse employee), s')
    end
  end.

(** [id] is [strconv.Atoi] of the path variable, [None] when it
    fails. *)
Definition GetEmployee (id : option Z) (s : S) : Response * S :=
  match id with
  | None => (writeErrorResponse StatusBadRequest "некорректный ID", s)
  | Some id =>
    match EmployeeService.GetEmployee svc id s with
    | (_, Some err, s') =>
      if isNotFoundError err
      then (writeErrorResponse StatusNotFound "сотрудник не найден", s')
      else (writeErrorResponse StatusInternalServerError
              "внутренняя ошибка сервера", s')
    | (Some employee, None, s') =>
      (Reply StatusOK (EmployeeResponse employee), s')
    | (None, None, s') => (Panic, s')
    end
  end.

Definition UpdateEmployee (id : option Z)
           (req : option UpdateEmployeeRequest) (s : S) : Response * S :=
  match id with
  | None => (writeErrorResponse StatusBadRequest "некорректный ID", s)
  | Some id =>
    match req with
    | None => (writeErrorResponse StatusBadRequest "некорректный JSON", s)
    | Some req =>
      let employee := {| ID := id; Name := update_Name req;
                         Phone := update_Phone req;
                         City := update_City req |} in
      match EmployeeService.UpdateEmployee svc employee s with
      | (Some err, s') =>
        match err with
        | ValidationError _ _ =>
          (Reply StatusBadRequest (ErrorResponse (Error err)), s')
        | _ =>
          if isNotFoundError err
          then (writeErrorResponse StatusNotFound "сотрудник не найден",
                s')
          else (writeErrorResponse StatusInternalServerError
                  "внутренняя ошибка сервера", s')
        end
      | (None, s') => (Reply StatusOK (EmployeeResponse employee), s')
      end
    end
  end.

Definition DeleteEmployee (id : option Z) (s : S) : Response * S :=
  match id with
  | None => (writeErrorResponse StatusBadRequest "некорректный ID", s)
  | Some id =>
    match EmployeeService.DeleteEmployee svc id s with
    | (Some err, s') =>
      if isNotFoundError err
      then (writeErrorResponse StatusNotFound "сотрудник не найден", s')
      else (writeErrorResponse StatusInternalServerError
              "внутренняя ошибка сервера", s')
    | (None, s') => (Reply StatusNoContent NoBody, s')
    end
  end.
End Methods.
End EmployeeHandler.

(** The case table of [unicode] on ASCII and on the basic Russian
    alphabet (U+0410 to U+042F fold to U+0430 to U+044F); used to run the
    handlers. *)
Definition russian_lower (r : rune) : rune :=
  if between 65 90 r then r + 32
  else if between 1040 1071 r then r + 32
  else r.

End handler.
Import handler.

(* ================================================================= *)
(** * Vocabulary of the properties *)

Definition is_ValidationError (o : option error) : Prop :=
  exists field message, o = Some (ValidationError field message).

(** An employee written with string literals. *)
Definition employee (id : Z) (name phone city : string) : Employee :=
  {| ID := id; Name := runes name; Phone := runes phone;
     City := runes city |}.


(** ** The states of the store *)

(** One move of the store: an operation of the repository, successful or
    not, or a change in the health of the connection. *)
Inductive step : DB -> DB -> Prop :=
| step_Create (e : Employee) (db : DB) :
    step db (snd (employeeRepository.Create e db))
| step_GetByID (id : Z) (db : DB) :
    step db (snd (employeeRepository.GetByID id db))
| step_SearchEmployees (q : text) (db : DB) :
    step db (snd (employeeRepository.SearchEmployees q db))
| step_Update (e : Employee) (db : DB) :
    step db (snd (employeeRepository.Update e db))
| step_Delete (id : Z) (db : DB) :
    step db (snd (employeeRepository.Delete id db))
| step_connection (e r a : option error) (db : DB) :
    step db (with_faults db e r a).

(** The states the store goes through, starting from the empty table that
    [CreateTables] leaves. *)
Inductive reachable (l : Locale) : DB -> Prop :=
| reachable_empty : reachable l (empty_DB l)
| reachable_step (db db' : DB) :
    reachable l db -> step db db' -> reachable l db'.

(** Phones are pairwise distinct, identifiers are pairwise distinct and
    positive. *)
Definition store_invariant (db : DB) : Prop :=
  NoDup (phones (table db))
  /\ NoDup (ids (table db))
  /\ Forall (fun id => 0 < id) (ids (table db)).

(** What the schema keeps besides: the sequence runs ahead of every
    identifier handed out, and a stored phone fits its column. *)
Definition schema_invariant (db : DB) : Prop :=
  store_invariant db
  /\ 1 <= seq db
  /\ Forall (fun id => id < seq db) (ids (table db))
  /\ Forall (fun r => (List.length (row_phone r) <= 50)%nat) (table db).

(** ** Sample states *)

Definition ann : Employee := employee 0 "Ann" "7771" "Almaty".

(** The store after one successful [Create]. *)
Definition db_ann : DB :=
  snd (employeeRepository.Create ann (empty_DB C_locale)).

Definition bad_connection : error :=
  driverError [] (runes "driver: bad connection").

(** The same rows behind a connection that is down. *)
Definition db_ann_down : DB :=
  with_faults db_ann (Some bad_connection) None None.

(** A second employee with the phone of [ann], and one with another
    phone. *)
Definition bob : Employee := employee 0 "Bob" "7771" "Astana".
Definition carl : Employee := employee 0 "Carl" "7772" "Astana".

Definition request_of (e : Employee) : CreateEmployeeRequest :=
  {| create_Name := Name e; create_Phone := Phone e;
     create_City := City e |}.

(** The service over the repository of the store, as [NewServices] wires
    it; the field and the messages of the search errors stand for those
    of the method that is not among the sources. *)
Definition the_service : EmployeeService.t DB :=
  NewEmployeeService NewEmployeeRepository
    (runes "query") (runes "empty") (runes "short") (runes "long").

(** ** Telling a taken phone from another fault *)

(** [is_violation] tells, from the error that [Create] returns, whether
    the phone was taken. *)
Definition tells_taken_phone (is_violation : error -> bool) : Prop :=
  forall (e : Employee) (db : DB) (err : error),
    fst (fst (employeeRepository.Create e db)) = Some err ->
    (In (Phone e) (phones (table db)) <-> is_violation err = true).

(** ** Messages that speak of something not found *)

(** The lowercased message of [err] contains one of the three
    substrings. *)
Definition mentions_not_found (lower : rune -> rune) (err : error) : Prop :=
  Contains (ToLower lower (Error err)) (runes "не найден") = true
  \/ Contains (ToLower lower (Error err)) (runes "not found") = true
  \/ Contains (ToLower lower (Error err)) (runes "notfound") = true.

(** The small letters of the basic Russian alphabet, and the space. *)
Definition small_russian (r : rune) : bool :=
  between 1072 1103 r || (r =? 32).

(** The employee that the update handler builds. *)
Definition updated (id : Z) (req : UpdateEmployeeRequest) : Employee :=
  {| ID := id; Name := update_Name req; Phone := update_Phone req;
     City := update_City req |}.

(** ** Queries and LIKE *)

(** A character that LIKE takes literally. *)
Definition plain (c : rune) : bool :=
  negb (c =? backslash) && negb (c =? percent) && negb (c =? underscore).

(** The order of the search: first by the CASE expression, then by
    name. *)
Definition search_ordered (l : Locale) (p : list tok) (rows : list Row)
  : Prop :=
  Sorted (fun r1 r2 => search_leb l p r1 r2 = true) rows.

(** A store with one employee, and a store with two. *)
Definition john : Employee := employee 0 "John Doe" "+77010000001" "Almaty".

Definition db_john : DB :=
  snd (employeeRepository.Create john (empty_DB C_locale)).

Definition newton : Employee :=
  employee 0 "Newton N_W" "+77010000002" "Almaty".
Definition zed : Employee := employee 0 "Zed" "+77010000003" "N_W District".

Definition db_two : DB :=
  snd (employeeRepository.Create zed
         (snd (employeeRepository.Create newton (empty_DB C_locale)))).

(* ================================================================= *)
(** * The reading methods of the repository *)

(** The statements of [GetAll], [GetByPhone], [GetEmployeesByCity],
    [CheckPhoneExists] and [GetEmployeeStats] read the table and leave the
    handle as it is; what is modelled of them is what they read. *)
Module reads.

(** [SELECT id, name, phone, city FROM employees ORDER BY id]. *)
Definition id_leb (r1 r2 : Row) : bool := row_id r1 <=? row_id r2.

Definition query_all (db : DB) : error + Rows :=
  match exec_fault db with
  | Some e => inl e
  | None =>
    inr {| rows_data := order_by id_leb (table db);
           rows_err := rows_fault db |}
  end.

(** [SELECT id, name, phone, city FROM employees WHERE phone = $1], read
    with [QueryRowContext(...).Scan]. *)
Definition has_phone (phone : text) (r : Row) : bool :=
  text_eqb (row_phone r) phone.

Definition query_by_phone (phone : text) (db : DB) : error + Row :=
  match exec_fault db with
  | Some e => inl e
  | None =>
    if has_nul phone then inl err_nul
    else
      match find (has_phone phone) (table db) with
      | Some r => inr r
      | None => inl ErrNoRows
      end
  end.

(** [SELECT id, name, phone, city FROM employees
     WHERE LOWER(city) = LOWER($1) ORDER BY name]. *)
Definition in_city (l : Locale) (city : text) (r : Row) : bool :=
  text_eqb (LOWER l (row_city r)) (LOWER l city).

Definition name_leb (l : Locale) (r1 r2 : Row) : bool :=
  collate_leb l (row_name r1) (row_name r2).

Definition query_by_city (city : text) (db : DB) : error + Rows :=
  match exec_fault db with
  | Some e => inl e
  | None =>
    if has_nul city then inl err_nul
    else
      inr {| rows_data :=
               order_by (name_leb (lc db))
                        (filter (in_city (lc db) city) (table db));
             rows_err := rows_fault db |}
  end.

(** [SELECT EXISTS(SELECT 1 FROM employees WHERE phone = $1)] and
    [SELECT EXISTS(SELECT 1 FROM employees WHERE phone = $1 AND id != $2)],
    with [exclude] the second argument when there is one. *)
Definition query_phone_exists (phone : text) (exclude : option Z) (db : DB)
  : error + bool :=
  match exec_fault db with
  | Some e => inl e
  | None =>
    if has_nul phone then inl err_nul
    else
      match exclude with
      | None => inr (existsb (has_phone phone) (table db))
      | Some id =>
        if negb (int4_ok id) then inl (err_int4 id)
        else
          inr (existsb (fun r => has_phone phone r && negb (has_id id r))
                       (table db))
      end
  end.

(** The statistics statement: [COUNT( * )], [COUNT(DISTINCT city)] and the
    city of the largest group, which is NULL when there is no group.  Of
    several largest groups the server may name any; here it is the one
    met first in the list of the distinct cities. *)
Definition cities (t : list Row) : list text :=
  nodup (list_eq_dec Z.eq_dec) (map row_city t).

Definition city_count (t : list Row) (c : text) : nat :=
  count_occ (list_eq_dec Z.eq_dec) (map row_city t) c.

Fixpoint largest (size : text -> nat) (groups : list text) : option text :=
  match groups with
  | [] => None
  | c :: groups' =>
    match largest size groups' with
    | None => Some c
    | Some b => if (size b <=? size c)%nat then Some c else Some b
    end
  end.

Definition query_stats (db : DB) : error + (Z * Z * option text) :=
  match exec_fault db with
  | Some e => inl e
  | None =>
    inr (Z.of_nat (List.length (table db)),
         Z.of_nat (List.length (cities (table db))),
         largest (city_count (table db)) (cities (table db)))
  end.

(** What [Scan] answers when the third column is NULL and its
    destination is a [string]. *)
Definition err_scan_null : error :=
  driverError []
    (runes "sql: Scan error on column index 2, name "
       ++ quoted "most_common_city"
       ++ runes ": converting NULL to string is unsupported").

Record EmployeeStats : Type := {
  TotalCount : Z;
  CitiesCount : Z;
  MostCommonCity : text
}.

Definition GetAll (db : DB) : list Employee * option error :=
  match query_all db with
  | inl err => ([], Some (Errorf (runes "получение списка сотрудников") err))
  | inr rows =>
    let employees := employeeRepository.scan_all (rows_data rows) in
    match rows_err rows with
    | Some err => ([], Some (Errorf (runes "итерация по результатам") err))
    | None => (employees, None)
    end
  end.

Definition GetByPhone (phone : text) (db : DB)
  : option Employee * option error :=
  match query_by_phone phone db with
  | inl err =>
    match err with
    | ErrNoRows =>
      (None,
       Some (NotFoundError (runes "employee by phone") 0 (Some phone)))
    | _ =>
      (None, Some (Errorf (runes "получение сотрудника по телефону") err))
    end
  | inr r => (Some (employeeRepository.Scan r), None)
  end.

Definition GetEmployeeStats (db : DB)
  : option EmployeeStats * option error :=
  match query_stats db with
  | inl err =>
    (None, Some (Errorf (runes "получение статистики сотрудников") err))
  | inr (total, ncities, None) =>
    (None,
     Some (Errorf (runes "получение статистики сотрудников") err_scan_null))
  | inr (total, ncities, Some city) =>
    (Some {| TotalCount := total; CitiesCount := ncities;
             MostCommonCity := city |}, None)
  end.

Definition GetEmployeesByCity (city : text) (db : DB)
  : list Employee * option error :=
  match query_by_city city db with
  | inl err =>
    ([], Some (Errorf (runes "получение сотрудников по городу") err))
  | inr rows =>
    let employees := employeeRepository.scan_all (rows_data rows) in
    match rows_err rows with
    | Some err => ([], Some (Errorf (runes "итерация по сотрудникам") err))
    | None => (employees, None)
    end
  end.

(** [excludeID ...int]: only [excludeID[0]] is looked at. *)
Definition CheckPhoneExists (phone : text) (excludeID : list Z) (db : DB)
  : bool * option error :=
  match query_phone_exists phone (hd_error excludeID) db with
  | inl err =>
    (false, Some (Errorf (runes "проверка существования телефона") err))
  | inr exists_ => (exists_, None)
  end.

End reads.

(* ================================================================= *)
(** * Package config *)

Module config.

Record Config : Type := {
  DBHost : text;
  DBPort : text;
  DBUser : text;
  DBPassword : text;
  DBName : text;
  DBSSLMode : text;
  Port : text;
  Environment : text
}.

(** An error made by [fmt.Errorf] from a format without verbs: it holds
    its message and nothing else. *)
Inductive config_error : Type :=
| errorString (msg : text).

Section Environ.

(** [os.Getenv]: the value of the variable, empty when the variable is
    not set. *)
Variable Getenv : string -> text.

Definition getEnv (key defaultValue : string) : text :=
  let value := Getenv key in
  if negb (is_empty value) then value else runes defaultValue.

Definition NewConfig : Config * option config_error :=
  ({| DBHost := getEnv "DB_HOST" "127.0.0.1";
      DBPort := getEnv "DB_PORT" "5432";
      DBUser := getEnv "DB_USER" "postgres";
      DBPassword := getEnv "DB_PASSWORD" "postgres123";
      DBName := getEnv "DB_NAME" "employee";
      DBSSLMode := getEnv "DB_SSLMODE" "disable";
      Port := getEnv "PORT" "8080";
      Environment := getEnv "ENVIRONMENT" "development" |}, None).

End Environ.

Definition ValidateConfig (c : Config) : option config_error :=
  if is_empty (DBPassword c)
  then Some (errorString (runes "DB_PASSWORD обязателен"))
  else None.

Definition GetServerAddress (c : Config) : text := runes ":" ++ Port c.

(** The fields of a configuration. *)
Definition fields (c : Config) : list text :=
  [DBHost c; DBPort c; DBUser c; DBPassword c; DBName c; DBSSLMode c;
   Port c; Environment c].

(** An environment in which every variable is set to the empty string or
    not set at all, and one that sets the password and the port only. *)
Definition no_environment : string -> text := fun _ => [].

Definition some_environment (key : string) : text :=
  if String.eqb key "DB_PASSWORD" then runes "s3cret"
  else if String.eqb key "PORT" then runes "9090"
  else [].

End config.

(** ** Employees that fit the columns *)

(** No field holds a NUL and each is within the length of its column, so
    that the store keeps the fields as they are. *)
Definition fits (e : Employee) : Prop :=
  has_nul (Name e) = false /\ has_nul (Phone e) = false
  /\ has_nul (City e) = false
  /\ (List.length (Name e) <= 255)%nat
  /\ (List.length (Phone e) <= 50)%nat
  /\ (List.length (City e) <= 100)%nat.

(** Identifiers grow along the table. *)
Definition ids_increasing (db : DB) : Prop :=
  StronglySorted Z.lt (ids (table db)).

(** Another employee than [id] holds [phone]. *)
Definition held_by_other (phone : text) (id : Z) (t : list Row) : Prop :=
  exists r, In r t /\ row_phone r = phone /\ row_id r <> id.

(** One move of the store when it is reached through the service
    only. *)
Inductive service_step : DB -> DB -> Prop :=
| service_Create (e : Employee) (db : DB) :
    service_step db
      (snd (employeeService.CreateEmployee NewEmployeeRepository e db))
| service_Update (e : Employee) (db : DB) :
    service_step db
      (snd (employeeService.UpdateEmployee NewEmployeeRepository e db))
| service_Delete (id : Z) (db : DB) :
    service_step db
      (snd (employeeService.DeleteEmployee NewEmployeeRepository id db))
| service_connection (e r a : option error) (db : DB) :
    service_step db (with_faults db e r a).

Inductive service_reachable (l : Locale) : DB -> Prop :=
| service_reachable_empty : service_reachable l (empty_DB l)
| service_reachable_step (db db' : DB) :
    service_reachable l db -> service_step db db' ->
    service_reachable l db'.

(** No field of the row is empty. *)
Definition row_filled (r : Row) : Prop :=
  row_name r <> [] /\ row_phone r <> [] /\ row_city r <> [].

(** The answers that carry no text of an error of the store. *)
Definition fixed_answer (r : Response) : Prop :=
  r = Reply StatusBadRequest (ErrorResponse (runes "некорректный ID"))
  \/ r = Reply StatusBadRequest (ErrorResponse (runes "некорректный JSON"))
  \/ r = Reply StatusNotFound (ErrorResponse (runes "сотрудник не найден"))
  \/ r = Reply StatusInternalServerError
           (ErrorResponse (runes "внутренняя ошибка сервера")).

(** ** More sample states *)

(** The employee of id 1 with another phone and city. *)
Definition ann_moved : Employee := employee 1 "Ann" "7779" "Astana".

(** The store after the creation of [ann] and of [carl]. *)
Definition db_ann_carl : DB :=
  snd (employeeRepository.Create carl db_ann).

(** The employee of id 2 asking for the phone of the employee of id 1. *)
Definition carl_taking : Employee := employee 2 "Carl" "7771" "Astana".

(** The employee that the create handler builds. *)
Definition created (req : CreateEmployeeRequest) : Employee :=
  {| ID := 0; Name := create_Name req; Phone := create_Phone req;
     City := create_City req |}.

(** The body of a request that changes an employee to [e]. *)
Definition change_to (e : Employee) : UpdateEmployeeRequest :=
  {| update_Name := Name e; update_Phone := Phone e;
     update_City := City e |}.

(** The answer of the handlers to an id that is not there. *)
Definition not_found_answer : Response :=
  Reply StatusNotFound (ErrorResponse (runes "сотрудник не найден")).

(** Settles [status r = Some 404 <-> b = true] once [r] and [b] are
    known. *)
Ltac status_cases :=
  unfold EmployeeHandler.writeErrorResponse, status, fst, StatusNotFound,
    StatusInternalServerError, StatusBadRequest;
  split; intros Hs; try reflexivity; try discriminate Hs.

(* ================================================================= *)
(** * Strings *)

Lemma text_eqb_eq (a b : text) : text_eqb a b = true <-> a = b.
Proof.
  unfold text_eqb. destruct (list_eq_dec Z.eq_dec a b); split; congruence.
Qed.

Lemma is_empty_true (s : text) : is_empty s = true <-> s = [].
Proof. destruct s; simpl; split; congruence. Qed.

Lemma is_empty_false (s : text) : is_empty s = false <-> s <> [].
Proof. destruct s; simpl; split; congruence. Qed.

Example runes_not_found :
  runes "не найден" = [1085; 1077; 32; 1085; 1072; 1081; 1076; 1077; 1085].
Proof. reflexivity. Qed.

Example TrimSpace_ex : TrimSpace (runes "  a b  ") = runes "a b".
Proof. reflexivity. Qed.

Example Itoa_ex : Itoa (-42) = runes "-42" /\ Itoa 0 = runes "0".
Proof. split; reflexivity. Qed.

(* ================================================================= *)
(** * Searching in the repository *)

Section SearchFacts.

Import employeeRepository.

Lemma scan_all_from (rows : list Row) (acc : list Employee) :
  fold_left (fun employees r => employees ++ [Scan r]) rows acc
  = acc ++ map Scan rows.
Proof.
  revert acc. induction rows as [|r rows IH]; intros acc; simpl.
  - now rewrite app_nil_r.
  - rewrite IH, <- app_assoc. reflexivity.
Qed.

Lemma scan_all_map (rows : list Row) : scan_all rows = map Scan rows.
Proof. unfold scan_all. now rewrite scan_all_from. Qed.

Lemma select_search_length (l : Locale) (p1 p2 : list tok) (t : list Row) :
  (List.length (select_search l p1 p2 t) <= 100)%nat.
Proof. unfold select_search, limit. apply firstn_le_length. Qed.

(** What a search with a query that is not blank amounts to. *)
Lemma SearchEmployees_unfold (q : text) (db : DB) :
  TrimSpace q <> [] ->
  SearchEmployees q db =
  match query_search (runes "%" ++ TrimSpace q ++ runes "%")
                     (TrimSpace q ++ runes "%") db with
  | (inl err, db') => ([], Some (Errorf (runes "поиск сотрудников") err), db')
  | (inr rows, db') =>
    match rows_err rows with
    | Some err =>
      ([], Some (Errorf (runes "итерация по результатам поиска") err), db')
    | None => (map Scan (rows_data rows), None, db')
    end
  end.
Proof.
  intros Hq. unfold SearchEmployees.
  apply is_empty_false in Hq. rewrite Hq.
  destruct (query_search _ _ db) as [[err|rows] db']; try reflexivity.
  now rewrite scan_all_map.
Qed.

Lemma SearchEmployees_short_circuit (q : text) (db : DB) :
  TrimSpace q = [] -> SearchEmployees q db = ([], None, db).
Proof. intros Hq. unfold SearchEmployees. rewrite Hq. reflexivity. Qed.

End SearchFacts.

(** C8: a query that is empty once its leading and trailing white space
    is trimmed makes the search of the repository return the empty result
    and no error, and leaves the handle exactly as it was: the log of the
    statements sent is the same, so no query went to the store. *)
Theorem SearchEmployees_blank (q : text) (db : DB) :
  TrimSpace q = [] ->
  employeeRepository.SearchEmployees q db = ([], None, db).
Proof. exact (SearchEmployees_short_circuit q db). Qed.

Lemma SearchEmployees_blank_witness :
  TrimSpace (runes "   ") = [] /\
  forall db, employeeRepository.SearchEmployees (runes "   ") db
             = ([], None, db).
Proof.
  split; [reflexivity|].
  intros db. apply (SearchEmployees_blank (runes "   ")). reflexivity.
Defined.

(** C7: whatever the store holds and whatever the query is, the search of
    the repository returns at most 100 employees. *)
Theorem SearchEmployees_at_most_100 (q : text) (db : DB) :
  (List.length (fst (fst (employeeRepository.SearchEmployees q db)))
   <= 100)%nat.
Proof.
  destruct (list_eq_dec Z.eq_dec (TrimSpace q) []) as [Hq|Hq].
  - rewrite (SearchEmployees_short_circuit q db Hq). simpl. lia.
  - rewrite (SearchEmployees_unfold q db Hq).
    unfold query_search.
    destruct (exec_fault db); [simpl; lia|].
    destruct (has_nul _ || has_nul _); [simpl; lia|].
    destruct (parse_like _) as [m|]; [|simpl; lia].
    destruct (parse_like _) as [x|]; [|simpl; lia].
    simpl. destruct (rows_fault db); simpl; [lia|].
    rewrite length_map. apply select_search_length.
Qed.

(** Every error of the repository's search is a wrapper made by
    [fmt.Errorf]. *)
Lemma SearchEmployees_error_wrapped (q : text) (db : DB) (err : error) :
  snd (fst (employeeRepository.SearchEmployees q db)) = Some err ->
  type_of err = T_wrapError.
Proof.
  destruct (list_eq_dec Z.eq_dec (TrimSpace q) []) as [Hq|Hq].
  - rewrite (SearchEmployees_short_circuit q db Hq). discriminate.
  - rewrite (SearchEmployees_unfold q db Hq).
    destruct (query_search _ _ db) as [[e|rows] db']; simpl.
    + intros [= <-]. reflexivity.
    + destruct (rows_err rows); simpl; [intros [= <-]; reflexivity|].
      discriminate.
Qed.

(* ================================================================= *)
(** * Validation in the service *)

Lemma validateEmployee_cases (e : Employee) :
  employeeService.validateEmployee e =
  if is_empty (Name e) then
    Some (ValidationError (runes "name") (runes "имя обязательно"))
  else if is_empty (Phone e) then
    Some (ValidationError (runes "phone") (runes "телефон обязателен"))
  else if is_empty (City e) then
    Some (ValidationError (runes "city") (runes "город обязателен"))
  else None.
Proof. reflexivity. Qed.

(** C3: the search of the service refuses a query with a
    [ValidationError] when the trimmed query is empty, has fewer than 2
    characters or has more than 100, without calling the repository, and
    passes a query of 2 to 100 characters on to the search of the
    repository, whose result it returns; over the repository of the
    store the error is a [ValidationError] exactly in the three refused
    cases. *)
Theorem service_SearchEmployees_validation
        (S : Type) (repo : EmployeeRepository.t S)
        (field msg_empty msg_short msg_long : text) (q : text) (s : S) :
  let n := List.length (TrimSpace q) in
  let search := employeeService.SearchEmployees in
  (n = 0%nat ->
   search S repo field msg_empty msg_short msg_long q s
   = ([], Some (ValidationError field msg_empty), s))
  /\ (n = 1%nat ->
      search S repo field msg_empty msg_short msg_long q s
      = ([], Some (ValidationError field msg_short), s))
  /\ ((100 < n)%nat ->
      search S repo field msg_empty msg_short msg_long q s
      = ([], Some (ValidationError field msg_long), s))
  /\ ((2 <= n <= 100)%nat ->
      search S repo field msg_empty msg_short msg_long q s
      = EmployeeRepository.SearchEmployees repo (TrimSpace q) s)
  /\ (forall db : DB,
         is_ValidationError
           (snd (fst (search DB NewEmployeeRepository field msg_empty
                             msg_short msg_long q db)))
         <-> (TrimSpace q = [] \/ (n < 2)%nat \/ (100 < n)%nat)).
Proof.
  intros n search. unfold search, employeeService.SearchEmployees.
  subst n. destruct (TrimSpace q) as [|c [|d t]] eqn:Hq.
  - simpl. split; [|split; [|split; [|split]]];
      try (intros; lia); try reflexivity.
    intros db. split; [intros _; now left|].
    intros _. now exists field, msg_empty.
  - simpl. split; [|split; [|split; [|split]]];
      try (intros; lia); try reflexivity.
    intros db. split; [intros _; right; left; lia|].
    intros _. now exists field, msg_short.
  - assert (Hlen : (List.length (c :: d :: t) <? 2)%nat = false)
      by (apply Nat.ltb_ge; simpl; lia).
    cbv [is_empty]. rewrite Hlen.
    destruct (100 <? List.length (c :: d :: t))%nat eqn:Hlong.
    + apply Nat.ltb_lt in Hlong.
      split; [|split; [|split; [|split]]];
        try (intros; simpl in *; lia); try reflexivity.
      intros db. split; [intros _; right; right; exact Hlong|].
      intros _. now exists field, msg_long.
    + apply Nat.ltb_ge in Hlong.
      split; [|split; [|split; [|split]]];
        try (intros; simpl in *; lia); try reflexivity.
      intros db. split.
      * intros (f & m & H). simpl in H.
        apply SearchEmployees_error_wrapped in H. discriminate.
      * intros [H|[H|H]]; [discriminate|simpl in H; lia|lia].
Qed.

Lemma service_SearchEmployees_validation_witness :
  employeeService.SearchEmployees NewEmployeeRepository
    (runes "query") (runes "empty") (runes "short") (runes "long")
    (runes "  ") (empty_DB C_locale)
  = ([], Some (ValidationError (runes "query") (runes "empty")),
     empty_DB C_locale)
  /\ employeeService.SearchEmployees NewEmployeeRepository
       (runes "query") (runes "empty") (runes "short") (runes "long")
       (runes " a ") (empty_DB C_locale)
     = ([], Some (ValidationError (runes "query") (runes "short")),
        empty_DB C_locale)
  /\ employeeService.SearchEmployees NewEmployeeRepository
       (runes "query") (runes "empty") (runes "short") (runes "long")
       (repeat 97 101) (empty_DB C_locale)
     = ([], Some (ValidationError (runes "query") (runes "long")),
        empty_DB C_locale)
  /\ employeeService.SearchEmployees NewEmployeeRepository
       (runes "query") (runes "empty") (runes "short") (runes "long")
       (runes " te ") (empty_DB C_locale)
     = employeeRepository.SearchEmployees (runes "te") (empty_DB C_locale).
Proof.
  split; [|split; [|split]].
  - apply (service_SearchEmployees_validation NewEmployeeRepository
             (runes "query") (runes "empty") (runes "short") (runes "long")
             (runes "  ") (empty_DB C_locale)).
    reflexivity.
  - apply (service_SearchEmployees_validation NewEmployeeRepository
             (runes "query") (runes "empty") (runes "short") (runes "long")
             (runes " a ") (empty_DB C_locale)).
    reflexivity.
  - apply (service_SearchEmployees_validation NewEmployeeRepository
             (runes "query") (runes "empty") (runes "short") (runes "long")
             (repeat 97 101) (empty_DB C_locale)).
    vm_compute. lia.
  - apply (service_SearchEmployees_validation NewEmployeeRepository
             (runes "query") (runes "empty") (runes "short") (runes "long")
             (runes " te ") (empty_DB C_locale)).
    vm_compute. lia.
Defined.

(** C4: an employee with an empty name, phone or city is refused by
    [CreateEmployee] with the [ValidationError] of the first empty field in
    the order name, phone, city, and then the repository is not called
    (the state is untouched, and a repository that notes its calls has
    noted none); an employee with the three fields set is handed to
    [Create] of the repository, whose outcome is returned as it is. *)
Theorem CreateEmployee_validation
        (S : Type) (repo : EmployeeRepository.t S) (e : Employee) (s : S) :
  (Name e = [] ->
   employeeService.CreateEmployee repo e s
   = (Some (ValidationError (runes "name") (runes "имя обязательно")), e, s))
  /\ (Name e <> [] -> Phone e = [] ->
      employeeService.CreateEmployee repo e s
      = (Some (ValidationError (runes "phone") (runes "телефон обязателен")),
         e, s))
  /\ (Name e <> [] -> Phone e <> [] -> City e = [] ->
      employeeService.CreateEmployee repo e s
      = (Some (ValidationError (runes "city") (runes "город обязателен")),
         e, s))
  /\ (Name e = [] \/ Phone e = [] \/ City e = [] ->
      forall calls : list Call,
        snd (employeeService.CreateEmployee (spy repo) e (s, calls))
        = (s, calls))
  /\ (Name e <> [] -> Phone e <> [] -> City e <> [] ->
      employeeService.CreateEmployee repo e s
      = EmployeeRepository.Create repo e s).
Proof.
  unfold employeeService.CreateEmployee.
  rewrite validateEmployee_cases.
  split; [|split; [|split; [|split]]].
  - intros Hn. apply is_empty_true in Hn. now rewrite Hn.
  - intros Hn Hp. apply is_empty_false in Hn. apply is_empty_true in Hp.
    now rewrite Hn, Hp.
  - intros Hn Hp Hc. apply is_empty_false in Hn, Hp.
    apply is_empty_true in Hc. now rewrite Hn, Hp, Hc.
  - intros H calls.
    destruct (is_empty (Name e)) eqn:Hn; [reflexivity|].
    destruct (is_empty (Phone e)) eqn:Hp; [reflexivity|].
    destruct (is_empty (City e)) eqn:Hc; [reflexivity|].
    apply is_empty_false in Hn, Hp, Hc. tauto.
  - intros Hn Hp Hc. apply is_empty_false in Hn, Hp, Hc.
    now rewrite Hn, Hp, Hc.
Qed.

Lemma CreateEmployee_validation_witness :
  employeeService.CreateEmployee NewEmployeeRepository
    (employee 0 "" "" "Almaty") (empty_DB C_locale)
  = (Some (ValidationError (runes "name") (runes "имя обязательно")),
     employee 0 "" "" "Almaty", empty_DB C_locale)
  /\ employeeService.CreateEmployee NewEmployeeRepository
       (employee 0 "Bob" "" "") (empty_DB C_locale)
     = (Some (ValidationError (runes "phone") (runes "телефон обязателен")),
        employee 0 "Bob" "" "", empty_DB C_locale)
  /\ employeeService.CreateEmployee NewEmployeeRepository
       (employee 0 "Bob" "+7701" "") (empty_DB C_locale)
     = (Some (ValidationError (runes "city") (runes "город обязателен")),
        employee 0 "Bob" "+7701" "", empty_DB C_locale)
  /\ snd (employeeService.CreateEmployee (spy NewEmployeeRepository)
            (employee 0 "Bob" "" "Astana") (empty_DB C_locale, []))
     = (empty_DB C_locale, [])
  /\ employeeService.CreateEmployee NewEmployeeRepository
       (employee 0 "Bob" "+7701" "Astana") (empty_DB C_locale)
     = employeeRepository.Create (employee 0 "Bob" "+7701" "Astana")
                                 (empty_DB C_locale).
Proof.
  split; [|split; [|split; [|split]]].
  - exact (proj1 (CreateEmployee_validation NewEmployeeRepository
             (employee 0 "" "" "Almaty") (empty_DB C_locale)) eq_refl).
  - refine (proj1 (proj2 (CreateEmployee_validation NewEmployeeRepository
             (employee 0 "Bob" "" "") (empty_DB C_locale))) _ eq_refl).
    discriminate.
  - refine (proj1 (proj2 (proj2 (CreateEmployee_validation
             NewEmployeeRepository
             (employee 0 "Bob" "+7701" "") (empty_DB C_locale)))) _ _ eq_refl);
      discriminate.
  - refine (proj1 (proj2 (proj2 (proj2 (CreateEmployee_validation
             NewEmployeeRepository
             (employee 0 "Bob" "" "Astana") (empty_DB C_locale))))) _ []).
    right; left; reflexivity.
  - refine (proj2 (proj2 (proj2 (proj2 (CreateEmployee_validation
             NewEmployeeRepository
             (employee 0 "Bob" "+7701" "Astana") (empty_DB C_locale)))))
             _ _ _); discriminate.
Defined.

(* ================================================================= *)
(** * The invariant of the store *)

Section StoreFacts.

Lemma phone_in_In (p : text) (t : list Row) :
  phone_in p t = true <-> In p (phones t).
Proof.
  unfold phone_in, phones. rewrite existsb_exists, in_map_iff.
  split; intros (r & H1 & H2).
  - exists r. apply text_eqb_eq in H2. now split.
  - exists r. split; [exact H2|]. now apply text_eqb_eq.
Qed.

Lemma phone_in_not_In (p : text) (t : list Row) :
  phone_in p t = false <-> ~ In p (phones t).
Proof.
  rewrite <- phone_in_In. destruct (phone_in p t); split; congruence.
Qed.

Lemma varchar_length (n : nat) (s s' : text) :
  varchar n s = Some s' -> (List.length s' <= n)%nat.
Proof.
  unfold varchar. destruct (List.length s <=? n)%nat eqn:H.
  - intros [= <-]. now apply Nat.leb_le.
  - destruct (forallb _ _); [|discriminate].
    intros [= <-]. apply firstn_le_length.
Qed.

Lemma varchar_fits (n : nat) (s : text) :
  (List.length s <= n)%nat -> varchar n s = Some s.
Proof.
  intros H. unfold varchar. apply Nat.leb_le in H. now rewrite H.
Qed.

Lemma coerce_columns_phone (name phone city n p c : text) :
  coerce_columns name phone city = inr (n, p, c) ->
  (List.length p <= 50)%nat.
Proof.
  unfold coerce_columns.
  destruct (has_nul name || has_nul phone || has_nul city); [discriminate|].
  destruct (varchar 255 name); [|discriminate].
  destruct (varchar 50 phone) eqn:Hp; [|discriminate].
  destruct (varchar 100 city); [|discriminate].
  intros [= _ <- _]. eapply varchar_length; eassumption.
Qed.

Lemma NoDup_snoc (A : Type) (l : list A) (x : A) :
  NoDup l -> ~ In x l -> NoDup (l ++ [x]).
Proof.
  intros Hl Hx. apply NoDup_app; [exact Hl|repeat constructor; intros []|].
  intros y Hy [<-|[]]. contradiction.
Qed.

Lemma NoDup_map_filter (A B : Type) (g : A -> B) (h : A -> bool)
      (l : list A) :
  NoDup (map g l) -> NoDup (map g (filter h l)).
Proof.
  induction l as [|a l IH]; simpl; intros H; [constructor|].
  inversion H as [|? ? Hn Hl]; subst.
  destruct (h a); simpl; [|now apply IH].
  constructor; [|now apply IH].
  intros Hin. apply Hn. apply in_map_iff in Hin.
  destruct Hin as (b & Hb & Hin). apply filter_In in Hin.
  apply in_map_iff. exists b. tauto.
Qed.

Lemma Forall_map_filter (A B : Type) (g : A -> B) (h : A -> bool)
      (P : B -> Prop) (l : list A) :
  Forall P (map g l) -> Forall P (map g (filter h l)).
Proof.
  rewrite !Forall_forall. intros H b Hb. apply H.
  apply in_map_iff in Hb. destruct Hb as (a & <- & Ha).
  apply filter_In in Ha. apply in_map. tauto.
Qed.

End StoreFacts.

Section Invariant.

Lemma schema_invariant_same (db db' : DB) :
  table db' = table db -> seq db' = seq db ->
  schema_invariant db -> schema_invariant db'.
Proof.
  unfold schema_invariant, store_invariant. intros -> ->. tauto.
Qed.

Lemma Forall_lt_weaken (l : list Z) (n m : Z) :
  n <= m -> Forall (fun id => id < n) l -> Forall (fun id => id < m) l.
Proof.
  intros Hnm H. eapply Forall_impl; [|exact H]. simpl. intros; lia.
Qed.

Lemma query_insert_invariant (name phone city : text) (db : DB) :
  schema_invariant db ->
  schema_invariant (snd (query_insert name phone city db)).
Proof.
  intros Hinv. unfold query_insert.
  destruct (exec_fault db);
    [revert Hinv; apply schema_invariant_same; reflexivity|].
  destruct (coerce_columns name phone city) as [e|[[n p] c]] eqn:Hco;
    [revert Hinv; apply schema_invariant_same; reflexivity|].
  destruct (max_int4 <? seq db);
    [revert Hinv; apply schema_invariant_same; reflexivity|].
  destruct Hinv as ((Hph & Hid & Hpos) & Hseq & Hlt & Hlen).
  destruct (phone_in p (table db)) eqn:Hin; simpl.
  - repeat split; simpl; try assumption; try lia.
    eapply Forall_lt_weaken; [|exact Hlt]. lia.
  - apply phone_in_not_In in Hin.
    unfold schema_invariant, store_invariant, phones, ids in *. simpl.
    rewrite !map_app. simpl.
    repeat split.
    + now apply NoDup_snoc.
    + apply NoDup_snoc; [exact Hid|].
      intros H. rewrite Forall_forall in Hlt. apply Hlt in H. lia.
    + apply Forall_app. split; [exact Hpos|].
      constructor; [lia|constructor].
    + lia.
    + apply Forall_app. split.
      * eapply Forall_lt_weaken; [|exact Hlt]. lia.
      * constructor; [lia|constructor].
    + apply Forall_app. split; [exact Hlen|].
      constructor; [simpl|constructor].
      eapply coerce_columns_phone. exact Hco.
Qed.

Lemma exec_delete_invariant (id : Z) (db : DB) :
  schema_invariant db -> schema_invariant (snd (exec_delete id db)).
Proof.
  intros Hinv. unfold exec_delete.
  destruct (exec_fault db);
    [revert Hinv; apply schema_invariant_same; reflexivity|].
  destruct (negb (int4_ok id));
    [revert Hinv; apply schema_invariant_same; reflexivity|].
  destruct Hinv as ((Hph & Hid & Hpos) & Hseq & Hlt & Hlen).
  unfold schema_invariant, store_invariant, phones, ids in *. simpl.
  repeat split.
  - now apply NoDup_map_filter.
  - now apply NoDup_map_filter.
  - now apply Forall_map_filter.
  - exact Hseq.
  - now apply Forall_map_filter.
  - rewrite Forall_forall in *. intros r Hr. apply Hlen.
    apply filter_In in Hr. tauto.
Qed.

(** The rewriting of the rows that an UPDATE hits. *)
Lemma rewritten_phones (id : Z) (n p c : text) (t : list Row) (x : text) :
  In x (phones (map (fun r =>
                       if has_id id r
                       then {| row_id := row_id r; row_name := n;
                               row_phone := p; row_city := c |}
                       else r) t)) ->
  x = p \/ In x (phones t).
Proof.
  unfold phones. induction t as [|r t IH]; simpl; [tauto|].
  intros [H|H].
  - destruct (has_id id r); simpl in H; [now left|right; now left].
  - destruct (IH H); [now left|right; now right].
Qed.

Lemma rewritten_none (id : Z) (n p c : text) (t : list Row) :
  filter (has_id id) t = [] ->
  map (fun r =>
         if has_id id r
         then {| row_id := row_id r; row_name := n;
                 row_phone := p; row_city := c |}
         else r) t = t
  /\ filter (fun r => negb (has_id id r)) t = t.
Proof.
  induction t as [|r t IH]; simpl; [tauto|].
  destruct (has_id id r); simpl; [discriminate|].
  intros H. destruct (IH H) as [-> ->]. tauto.
Qed.

Lemma rewritten_NoDup (id : Z) (n p c : text) (t : list Row) :
  NoDup (phones t) ->
  ~ In p (phones (filter (fun r => negb (has_id id r)) t)) ->
  (List.length (filter (has_id id) t) <= 1)%nat ->
  NoDup (phones (map (fun r =>
                        if has_id id r
                        then {| row_id := row_id r; row_name := n;
                                row_phone := p; row_city := c |}
                        else r) t)).
Proof.
  induction t as [|r t IH]; simpl; intros Hnd Hp Hlen; [constructor|].
  inversion Hnd as [|? ? Hr Ht]; subst.
  destruct (has_id id r) eqn:Hid; simpl in *.
  - assert (H0 : filter (has_id id) t = [])
      by (destruct (filter (has_id id) t); [reflexivity|simpl in Hlen; lia]).
    destruct (rewritten_none id n p c t H0) as [Hmap Hrest].
    rewrite Hmap. rewrite Hrest in Hp. constructor; assumption.
  - constructor.
    + intros Hin. apply rewritten_phones in Hin. destruct Hin as [Heq|Hin].
      * apply Hp. left. exact Heq.
      * contradiction.
    + apply IH; [exact Ht| |exact Hlen].
      intros Hin. apply Hp. now right.
Qed.

Lemma exec_update_invariant (id : Z) (name phone city : text) (db : DB) :
  schema_invariant db ->
  schema_invariant (snd (exec_update id name phone city db)).
Proof.
  intros Hinv. unfold exec_update.
  destruct (exec_fault db);
    [revert Hinv; apply schema_invariant_same; reflexivity|].
  destruct (negb (int4_ok id));
    [revert Hinv; apply schema_invariant_same; reflexivity|].
  destruct (coerce_columns name phone city) as [e|[[n p] c]] eqn:Hco;
    [revert Hinv; apply schema_invariant_same; reflexivity|].
  destruct (is_nil (filter (has_id id) (table db)));
    [revert Hinv; apply schema_invariant_same; reflexivity|].
  destruct (phone_in p _) eqn:Hin;
    [revert Hinv; apply schema_invariant_same; reflexivity|].
  destruct (1 <? _) eqn:Hone;
    [revert Hinv; apply schema_invariant_same; reflexivity|].
  simpl. apply phone_in_not_In in Hin. apply Z.ltb_ge in Hone.
  destruct Hinv as ((Hph & Hid & Hpos) & Hseq & Hlt & Hlen).
  assert (Hids : forall t : list Row,
             ids (map (fun r =>
                         if has_id id r
                         then {| row_id := row_id r; row_name := n;
                                 row_phone := p; row_city := c |}
                         else r) t) = ids t).
  { unfold ids. induction t as [|r t IH]; simpl; [reflexivity|].
    rewrite IH. now destruct (has_id id r). }
  unfold schema_invariant, store_invariant. simpl. rewrite Hids.
  repeat split; try assumption.
  - apply rewritten_NoDup; [exact Hph|exact Hin|lia].
  - rewrite Forall_forall in *. intros r Hr.
    apply in_map_iff in Hr. destruct Hr as (r0 & <- & Hr0).
    destruct (has_id id r0); [simpl|now apply Hlen].
    eapply coerce_columns_phone. exact Hco.
Qed.

End Invariant.

Section Reachable.

Import employeeRepository.

Lemma Create_state (e : Employee) (db : DB) :
  snd (Create e db) = snd (query_insert (Name e) (Phone e) (City e) db).
Proof.
  unfold Create. now destruct (query_insert _ _ _ db) as [[err|id] db'].
Qed.

Lemma Update_state (e : Employee) (db : DB) :
  snd (Update e db)
  = snd (exec_update (ID e) (Name e) (Phone e) (City e) db).
Proof.
  unfold Update.
  destruct (exec_update _ _ _ _ db) as [[err|res] db']; [reflexivity|].
  destruct (RowsAffected res) as [err|n]; [reflexivity|].
  now destruct (n =? 0).
Qed.

Lemma Delete_state (id : Z) (db : DB) :
  snd (Delete id db) = snd (exec_delete id db).
Proof.
  unfold Delete.
  destruct (exec_delete id db) as [[err|res] db']; [reflexivity|].
  destruct (RowsAffected res) as [err|n]; [reflexivity|].
  now destruct (n =? 0).
Qed.

Lemma GetByID_state (id : Z) (db : DB) :
  table (snd (GetByID id db)) = table db
  /\ seq (snd (GetByID id db)) = seq db.
Proof.
  unfold GetByID, query_by_id.
  destruct (exec_fault db) as [e|]; [destruct e; simpl; tauto|].
  destruct (negb (int4_ok id)); [simpl; tauto|].
  destruct (find _ _); simpl; tauto.
Qed.

Lemma SearchEmployees_state (q : text) (db : DB) :
  table (snd (SearchEmployees q db)) = table db
  /\ seq (snd (SearchEmployees q db)) = seq db.
Proof.
  unfold SearchEmployees.
  destruct (is_empty (TrimSpace q)); [simpl; tauto|].
  unfold query_search.
  destruct (exec_fault db); [simpl; tauto|].
  destruct (has_nul _ || has_nul _); [simpl; tauto|].
  destruct (parse_like _) as [m|]; [|simpl; tauto].
  destruct (parse_like _) as [x|]; [|simpl; tauto].
  simpl. destruct (rows_fault db); simpl; tauto.
Qed.

Lemma step_schema_invariant (db db' : DB) :
  step db db' -> schema_invariant db -> schema_invariant db'.
Proof.
  intros Hstep Hinv. destruct Hstep.
  - rewrite Create_state. now apply query_insert_invariant.
  - destruct (GetByID_state id db) as [Ht Hs].
    now apply (schema_invariant_same _ Ht Hs).
  - destruct (SearchEmployees_state q db) as [Ht Hs].
    now apply (schema_invariant_same _ Ht Hs).
  - rewrite Update_state. now apply exec_update_invariant.
  - rewrite Delete_state. now apply exec_delete_invariant.
  - revert Hinv. now apply schema_invariant_same.
Qed.

Lemma reachable_schema_invariant (l : Locale) (db : DB) :
  reachable l db -> schema_invariant db.
Proof.
  induction 1 as [|db db' _ IH Hstep].
  - unfold schema_invariant, store_invariant. simpl.
    repeat split; try constructor; lia.
  - now apply (step_schema_invariant Hstep).
Qed.

End Reachable.

(** C9: in every state that the store reaches from the empty table
    through the operations of the repository, phones are pairwise
    distinct and identifiers are pairwise distinct and positive; and
    whatever such a state an operation starts from, and whether it
    succeeds or fails, the state it leaves satisfies this again. *)
Theorem reachable_store_invariant (l : Locale) (db : DB) :
  reachable l db ->
  store_invariant db
  /\ (forall e, store_invariant (snd (employeeRepository.Create e db)))
  /\ (forall e, store_invariant (snd (employeeRepository.Update e db)))
  /\ (forall id, store_invariant (snd (employeeRepository.Delete id db))).
Proof.
  intros Hr. split; [|split; [|split]].
  - now apply (reachable_schema_invariant Hr).
  - intros e.
    apply (@reachable_schema_invariant l).
    eapply reachable_step; [exact Hr|constructor].
  - intros e.
    apply (@reachable_schema_invariant l).
    eapply reachable_step; [exact Hr|constructor].
  - intros id.
    apply (@reachable_schema_invariant l).
    eapply reachable_step; [exact Hr|constructor].
Qed.

Lemma reachable_store_invariant_witness :
  reachable C_locale db_ann
  /\ store_invariant db_ann
  /\ (forall e, store_invariant (snd (employeeRepository.Create e db_ann)))
  /\ (forall e, store_invariant (snd (employeeRepository.Update e db_ann)))
  /\ (forall id,
         store_invariant (snd (employeeRepository.Delete id db_ann))).
Proof.
  assert (H : reachable C_locale db_ann)
    by exact (reachable_step (reachable_empty C_locale)
                             (step_Create ann (empty_DB C_locale))).
  exact (conj H (reachable_store_invariant H)).
Defined.

(* ================================================================= *)
(** * Not found *)

Section NotFound.

Import employeeRepository.

Lemma filter_has_id_twice (id : Z) (t : list Row) :
  filter (has_id id) (filter (fun r => negb (has_id id r)) t) = [].
Proof.
  induction t as [|r t IH]; simpl; [reflexivity|].
  destruct (has_id id r) eqn:H; simpl; [exact IH|].
  now rewrite H.
Qed.

Lemma Update_NotFound_iff (e : Employee) (db : DB) :
  fst (Update e db) = Some (NotFoundError (runes "employee") (ID e) None)
  <-> exists res,
      fst (exec_update (ID e) (Name e) (Phone e) (City e) db) = inr res
      /\ RowsAffected res = inr 0.
Proof.
  unfold Update.
  destruct (exec_update _ _ _ _ db) as [[err|res] db']; simpl.
  - split; [discriminate|]. intros (res & H & _). discriminate.
  - destruct (RowsAffected res) as [err|n] eqn:Hn; simpl.
    + split; [discriminate|]. intros (res' & [= <-] & H). congruence.
    + destruct (n =? 0) eqn:H0; simpl.
      * apply Z.eqb_eq in H0. subst n.
        split; [|reflexivity]. intros _. now exists res.
      * apply Z.eqb_neq in H0.
        split; [discriminate|]. intros (res' & [= <-] & H). congruence.
Qed.

Lemma Delete_NotFound_iff (id : Z) (db : DB) :
  fst (Delete id db) = Some (NotFoundError (runes "employee") id None)
  <-> exists res,
      fst (exec_delete id db) = inr res /\ RowsAffected res = inr 0.
Proof.
  unfold Delete.
  destruct (exec_delete id db) as [[err|res] db']; simpl.
  - split; [discriminate|]. intros (res & H & _). discriminate.
  - destruct (RowsAffected res) as [err|n] eqn:Hn; simpl.
    + split; [discriminate|]. intros (res' & [= <-] & H). congruence.
    + destruct (n =? 0) eqn:H0; simpl.
      * apply Z.eqb_eq in H0. subst n.
        split; [|reflexivity]. intros _. now exists res.
      * apply Z.eqb_neq in H0.
        split; [discriminate|]. intros (res' & [= <-] & H). congruence.
Qed.

Lemma Delete_twice (id : Z) (db db' : DB) :
  Delete id db = (None, db') ->
  fst (Delete id db') = Some (NotFoundError (runes "employee") id None).
Proof.
  unfold Delete, exec_delete.
  destruct (exec_fault db) eqn:Hf; [discriminate|].
  destruct (int4_ok id) eqn:Hid; [|discriminate].
  unfold result_of. simpl.
  destruct (affected_fault db) eqn:Ha; [discriminate|].
  destruct (_ =? 0); [discriminate|].
  intros [= <-]. simpl. rewrite Hf, Ha. simpl.
  now rewrite filter_has_id_twice.
Qed.

End NotFound.

(** C5: [Update] and [Delete] of the repository return
    [NotFoundError] for the entity [employee] and the id they were given
    exactly when the statement was executed and the store counted zero
    rows affected; when the statement itself fails they return that
    failure wrapped, which is no [NotFoundError].  Hence deleting through
    the service an id whose deletion has just succeeded fails with
    [NotFoundError]. *)
Theorem Update_Delete_NotFound :
  (forall (e : Employee) (db : DB),
      fst (employeeRepository.Update e db)
      = Some (NotFoundError (runes "employee") (ID e) None)
      <-> exists res,
        fst (exec_update (ID e) (Name e) (Phone e) (City e) db) = inr res
        /\ RowsAffected res = inr 0)
  /\ (forall (id : Z) (db : DB),
         fst (employeeRepository.Delete id db)
         = Some (NotFoundError (runes "employee") id None)
         <-> exists res,
           fst (exec_delete id db) = inr res /\ RowsAffected res = inr 0)
  /\ (forall (e : Employee) (db : DB) (err : error),
         fst (exec_update (ID e) (Name e) (Phone e) (City e) db) = inl err ->
         fst (employeeRepository.Update e db)
         = Some (Errorf (runes "обновление сотрудника") err))
  /\ (forall (id : Z) (db : DB) (err : error),
         fst (exec_delete id db) = inl err ->
         fst (employeeRepository.Delete id db)
         = Some (Errorf (runes "удаление сотрудника") err))
  /\ (forall (id : Z) (db db' : DB),
         employeeService.DeleteEmployee NewEmployeeRepository id db
         = (None, db') ->
         fst (employeeService.DeleteEmployee NewEmployeeRepository id db')
         = Some (NotFoundError (runes "employee") id None)).
Proof.
  split; [|split; [|split; [|split]]].
  - exact Update_NotFound_iff.
  - exact Delete_NotFound_iff.
  - intros e db err H. unfold employeeRepository.Update.
    destruct (exec_update _ _ _ _ db) as [[err'|res] db'];
      simpl in H; [|discriminate].
    now injection H as ->.
  - intros id db err H. unfold employeeRepository.Delete.
    destruct (exec_delete id db) as [[err'|res] db'];
      simpl in H; [|discriminate].
    now injection H as ->.
  - intros id db db'. exact (@Delete_twice id db db').
Qed.

Lemma Update_Delete_NotFound_witness :
  employeeService.DeleteEmployee NewEmployeeRepository 1 db_ann
  = (None, snd (employeeRepository.Delete 1 db_ann))
  /\ fst (employeeService.DeleteEmployee NewEmployeeRepository 1
            (snd (employeeRepository.Delete 1 db_ann)))
     = Some (NotFoundError (runes "employee") 1 None)
  /\ fst (employeeRepository.Delete 1 db_ann_down)
     = Some (Errorf (runes "удаление сотрудника") bad_connection).
Proof.
  split; [reflexivity|split].
  - exact (proj2 (proj2 (proj2 (proj2 Update_Delete_NotFound)))
             1 db_ann (snd (employeeRepository.Delete 1 db_ann)) eq_refl).
  - exact (proj1 (proj2 (proj2 (proj2 Update_Delete_NotFound)))
             1 db_ann_down bad_connection eq_refl).
Defined.

(* ================================================================= *)
(** * Creating an employee whose phone is taken *)

Section DuplicatePhone.

Import employeeRepository.

Lemma coerce_columns_same_phone (name phone city n p c : text) :
  coerce_columns name phone city = inr (n, p, c) ->
  (List.length phone <= 50)%nat -> p = phone.
Proof.
  unfold coerce_columns. intros H Hlen.
  destruct (has_nul name || has_nul phone || has_nul city); [discriminate|].
  destruct (varchar 255 name); [|discriminate].
  rewrite (@varchar_fits 50%nat phone Hlen) in H.
  destruct (varchar 100 city); [|discriminate].
  now injection H as _ <- _.
Qed.

Lemma stored_phone_fits (l : Locale) (db : DB) (p : text) :
  reachable l db -> In p (phones (table db)) ->
  (List.length p <= 50)%nat.
Proof.
  intros Hr Hin. apply reachable_schema_invariant in Hr.
  destruct Hr as (_ & _ & _ & Hlen).
  unfold phones in Hin. apply in_map_iff in Hin.
  destruct Hin as (r & <- & Hr).
  rewrite Forall_forall in Hlen. now apply Hlen.
Qed.

End DuplicatePhone.

(** C6, as the code has it: when the store already holds an employee with
    the phone of [e], [Create] fails; what it returns is the error of the
    store wrapped by [fmt.Errorf] under the words it puts before every
    failure of the statement, the employee keeps the id it came with and
    the rows stay as they were; and when the connection, the column
    checks and the sequence let the statement through, the wrapped error
    is the violation of the UNIQUE constraint (SQLSTATE 23505). *)
Theorem Create_duplicate_phone (l : Locale) (e : Employee) (db : DB) :
  reachable l db ->
  In (Phone e) (phones (table db)) ->
  exists (cause : error) (db' : DB),
    employeeRepository.Create e db
    = (Some (Errorf (runes "создание сотрудника") cause), e, db')
    /\ table db' = table db
    /\ Unwrap (Errorf (runes "создание сотрудника") cause) = Some cause
    /\ (exec_fault db = None ->
        (exists n p c,
            coerce_columns (Name e) (Phone e) (City e) = inr (n, p, c)) ->
        seq db <= max_int4 ->
        cause = err_unique).
Proof.
  intros Hr Hin.
  pose proof (@stored_phone_fits l db _ Hr Hin) as Hlen.
  unfold employeeRepository.Create, query_insert.
  destruct (exec_fault db) as [f|] eqn:Hf.
  { exists f, (logged (InsertStmt (Name e) (Phone e) (City e)) db).
    repeat split. discriminate. }
  destruct (coerce_columns (Name e) (Phone e) (City e))
    as [err|[[n p] c]] eqn:Hco.
  { exists err, (logged (InsertStmt (Name e) (Phone e) (City e)) db).
    repeat split. intros _ (n & p & c & H). discriminate. }
  destruct (max_int4 <? seq db) eqn:Hseq.
  { exists err_sequence,
      (logged (InsertStmt (Name e) (Phone e) (City e)) db).
    repeat split. apply Z.ltb_lt in Hseq. intros; lia. }
  pose proof (@coerce_columns_same_phone _ _ _ _ _ _ Hco Hlen) as ->.
  apply phone_in_In in Hin. rewrite Hin.
  exists err_unique,
    (with_seq (logged (InsertStmt (Name e) (Phone e) (City e)) db)
              (seq db + 1)).
  repeat split.
Qed.

Lemma Create_duplicate_phone_witness :
  reachable C_locale db_ann
  /\ In (Phone bob) (phones (table db_ann))
  /\ exists (cause : error) (db' : DB),
    employeeRepository.Create bob db_ann
    = (Some (Errorf (runes "создание сотрудника") cause), bob, db')
    /\ table db' = table db_ann
    /\ Unwrap (Errorf (runes "создание сотрудника") cause) = Some cause
    /\ (exec_fault db_ann = None ->
        (exists n p c,
            coerce_columns (Name bob) (Phone bob) (City bob)
            = inr (n, p, c)) ->
        seq db_ann <= max_int4 ->
        cause = err_unique).
Proof.
  assert (H : reachable C_locale db_ann)
    by exact (reachable_step (reachable_empty C_locale)
                             (step_Create ann (empty_DB C_locale))).
  assert (Hin : In (Phone bob) (phones (table db_ann)))
    by (left; reflexivity).
  exact (conj H (conj Hin (@Create_duplicate_phone C_locale bob db_ann H Hin))).
Defined.

(** C6, as the spec has it, fails: the error that [Create] returns for a
    phone that is taken and the error it returns when the connection is
    down have the same dynamic type, the wrapper of [fmt.Errorf], and
    begin with the same words; the repository has no type for a violated
    constraint, and the handler answers both with the same 500.  Behind a
    connection that is down the two errors are one and the same value,
    so that nothing computed from the error tells a taken phone from
    another fault in every state of the store. *)
Lemma taken_phone_error_kind :
  In (Phone bob) (phones (table db_ann))
  /\ ~ In (Phone carl) (phones (table db_ann_down))
  /\ (exists err_taken err_down : error,
         fst (fst (employeeRepository.Create bob db_ann)) = Some err_taken
         /\ fst (fst (employeeRepository.Create carl db_ann_down))
            = Some err_down
         /\ type_of err_taken = T_wrapError
         /\ type_of err_down = T_wrapError
         /\ HasPrefix (Error err_taken) (runes "создание сотрудника: ")
            = true
         /\ HasPrefix (Error err_down) (runes "создание сотрудника: ")
            = true
         /\ fst (EmployeeHandler.CreateEmployee the_service
                   (Some (request_of bob)) db_ann)
            = Reply 500 (ErrorResponse (runes "внутренняя ошибка сервера"))
         /\ fst (EmployeeHandler.CreateEmployee the_service
                   (Some (request_of carl)) db_ann_down)
            = Reply 500 (ErrorResponse (runes "внутренняя ошибка сервера")))
  /\ fst (fst (employeeRepository.Create bob db_ann_down))
     = fst (fst (employeeRepository.Create carl db_ann_down))
  /\ ~ (exists is_violation : error -> bool,
           tells_taken_phone is_violation).
Proof.
  assert (Hcarl : ~ In (Phone carl) (phones (table db_ann_down)))
    by (intros [H|[]]; vm_compute in H; discriminate).
  split; [left; reflexivity|].
  split; [exact Hcarl|].
  split.
  { exists (Errorf (runes "создание сотрудника") err_unique),
           (Errorf (runes "создание сотрудника") bad_connection).
    repeat split. }
  split; [reflexivity|].
  intros (is_violation & H).
  pose proof (H bob db_ann_down
                (Errorf (runes "создание сотрудника") bad_connection)
                eq_refl) as Hbob.
  pose proof (H carl db_ann_down
                (Errorf (runes "создание сотрудника") bad_connection)
                eq_refl) as Hcarl'.
  apply Hcarl. apply Hcarl'. apply Hbob. left. reflexivity.
Qed.

(* ================================================================= *)
(** * Not found, as the handlers see it *)

Section Substrings.

Lemma HasPrefix_app (p s : text) : HasPrefix (p ++ s) p = true.
Proof.
  induction p as [|c p IH]; simpl; [now destruct s|].
  now rewrite Z.eqb_refl, IH.
Qed.

Lemma Contains_HasPrefix (s p : text) :
  HasPrefix s p = true -> Contains s p = true.
Proof. intros H. destruct s; cbn [Contains]; now rewrite H. Qed.

Lemma Contains_app_r (a s p : text) :
  Contains s p = true -> Contains (a ++ s) p = true.
Proof.
  intros H. induction a as [|c a IH]; [exact H|].
  rewrite <- app_comm_cons. cbn [Contains]. rewrite IH. apply orb_true_r.
Qed.

Lemma Contains_middle (a p b : text) : Contains (a ++ p ++ b) p = true.
Proof. apply Contains_app_r, Contains_HasPrefix, HasPrefix_app. Qed.

Lemma map_fixed (f : rune -> rune) (s : text) :
  (forall r, In r s -> f r = r) -> map f s = s.
Proof.
  induction s as [|c s IH]; simpl; intros H; [reflexivity|].
  rewrite H by now left. rewrite IH; [reflexivity|].
  intros r Hr. apply H. now right.
Qed.

End Substrings.

Section NotFoundStatus.

Variable lower : rune -> rune.
Hypothesis lower_small_russian :
  forall r, 1072 <= r <= 1103 \/ r = 32 -> lower r = r.

Lemma isNotFoundError_iff (err : error) :
  EmployeeHandler.isNotFoundError lower err = true
  <-> mentions_not_found lower err.
Proof.
  unfold EmployeeHandler.isNotFoundError, mentions_not_found.
  rewrite !orb_true_iff. apply or_assoc.
Qed.

Lemma small_russian_fixed (s : text) :
  forallb small_russian s = true -> map lower s = s.
Proof.
  intros H. apply map_fixed. intros r Hr.
  rewrite forallb_forall in H. specialize (H r Hr).
  apply lower_small_russian. unfold small_russian, between in H.
  apply orb_true_iff in H. destruct H as [H|H].
  - apply andb_true_iff in H. destruct H as [H1 H2].
    apply Z.leb_le in H1, H2. left. lia.
  - apply Z.eqb_eq in H. now right.
Qed.

Lemma Contains_lowered (a p b : text) :
  forallb small_russian p = true ->
  Contains (ToLower lower (a ++ p ++ b)) p = true.
Proof.
  intros H. unfold ToLower. rewrite !map_app.
  rewrite (small_russian_fixed p H). apply Contains_middle.
Qed.

Lemma NotFoundError_isNotFoundError (Entity : text) (ID : Z)
      (Data : option text) :
  EmployeeHandler.isNotFoundError lower (NotFoundError Entity ID Data)
  = true.
Proof.
  unfold EmployeeHandler.isNotFoundError.
  apply orb_true_iff; left. apply orb_true_iff; left.
  unfold Error. destruct (negb (ID =? 0)).
  - replace (Entity ++ runes " с ID " ++ Itoa ID ++ runes " не найден")
      with ((Entity ++ runes " с ID " ++ Itoa ID ++ [32])
              ++ runes "не найден" ++ [])
      by (rewrite <- !app_assoc; reflexivity).
    now apply Contains_lowered.
  - replace (Entity ++ runes " не найден: " ++ fmt_v Data)
      with ((Entity ++ [32]) ++ runes "не найден"
              ++ (runes ": " ++ fmt_v Data))
      by (rewrite <- !app_assoc; reflexivity).
    now apply Contains_lowered.
Qed.

Lemma validateEmployee_not_mentioned (e : Employee) (err : error) :
  employeeService.validateEmployee e = Some err ->
  type_of err = T_ValidationError
  /\ EmployeeHandler.isNotFoundError lower err = false.
Proof.
  rewrite validateEmployee_cases.
  destruct (is_empty (Name e));
    [|destruct (is_empty (Phone e)); [|destruct (is_empty (City e))]];
    intros [= <-]; (split; [reflexivity|]);
    unfold EmployeeHandler.isNotFoundError, Error, ToLower;
    rewrite small_russian_fixed by reflexivity; reflexivity.
Qed.

Lemma Update_error_type (e : Employee) (db : DB) (err : error) :
  fst (employeeRepository.Update e db) = Some err ->
  type_of err <> T_ValidationError.
Proof.
  unfold employeeRepository.Update.
  destruct (exec_update _ _ _ _ db) as [[f|res] db']; simpl.
  - intros [= <-]. discriminate.
  - destruct (RowsAffected res) as [f|n]; simpl.
    + intros [= <-]. discriminate.
    + destruct (n =? 0); simpl; [|discriminate].
      intros [= <-]. discriminate.
Qed.

End NotFoundStatus.

(** C10: for an error that the service hands to the handlers of get,
    update and delete, the answer has status 404 exactly when the
    lowercased message of the error contains "не найден", "not found" or
    "notfound" (for update, the errors are those of the service over the
    repository of the store; a [ValidationError] of the service has none
    of the three in its message and is answered with 400).  Every
    [NotFoundError] has "не найден" in its message and is answered with
    404, and so is any other error whose message contains one of the
    three.  [lower] is the case table of [unicode.ToLower]; what is used
    of it is that it leaves the small Russian letters and the space as
    they are. *)
Theorem handler_not_found_status (lower : rune -> rune) :
  (forall r, 1072 <= r <= 1103 \/ r = 32 -> lower r = r) ->
  (forall (S : Type) (svc : EmployeeService.t S) (id : Z) (s s' : S)
          (emp : option Employee) (err : error),
      EmployeeService.GetEmployee svc id s = (emp, Some err, s') ->
      status (fst (EmployeeHandler.GetEmployee svc lower (Some id) s))
      = Some StatusNotFound
      <-> mentions_not_found lower err)
  /\ (forall (S : Type) (svc : EmployeeService.t S) (id : Z) (s s' : S)
             (err : error),
         EmployeeService.DeleteEmployee svc id s = (Some err, s') ->
         status (fst (EmployeeHandler.DeleteEmployee svc lower (Some id) s))
         = Some StatusNotFound
         <-> mentions_not_found lower err)
  /\ (forall (field msg_empty msg_short msg_long : text) (id : Z)
             (req : UpdateEmployeeRequest) (db db' : DB) (err : error),
         EmployeeService.UpdateEmployee
           (NewEmployeeService NewEmployeeRepository field msg_empty
                               msg_short msg_long)
           (updated id req) db = (Some err, db') ->
         status (fst (EmployeeHandler.UpdateEmployee
                        (NewEmployeeService NewEmployeeRepository field
                           msg_empty msg_short msg_long)
                        lower (Some id) (Some req) db))
         = Some StatusNotFound
         <-> mentions_not_found lower err)
  /\ (forall (Entity : text) (ID : Z) (Data : option text),
         mentions_not_found lower (NotFoundError Entity ID Data)).
Proof.
  intros Hlower. split; [|split; [|split]].
  - intros S svc id s s' emp err H.
    unfold EmployeeHandler.GetEmployee. rewrite H.
    rewrite <- isNotFoundError_iff.
    destruct emp; destruct (EmployeeHandler.isNotFoundError lower err);
      status_cases.
  - intros S svc id s s' err H.
    unfold EmployeeHandler.DeleteEmployee. rewrite H.
    rewrite <- isNotFoundError_iff.
    destruct (EmployeeHandler.isNotFoundError lower err);
      status_cases.
  - intros field msg_empty msg_short msg_long id req db db' err H.
    unfold EmployeeHandler.UpdateEmployee. fold (updated id req).
    rewrite H. rewrite <- isNotFoundError_iff.
    simpl in H. unfold employeeService.UpdateEmployee in H.
    destruct (employeeService.validateEmployee (updated id req))
      as [verr|] eqn:Hv.
    + injection H as -> _.
      destruct (@validateEmployee_not_mentioned lower Hlower _ _ Hv)
        as [Hty Hno].
      rewrite Hno. destruct err; try discriminate Hty.
      status_cases.
    + assert (Hty : type_of err <> T_ValidationError).
      { apply (@Update_error_type (updated id req) db).
        simpl. unfold NewEmployeeRepository in H. simpl in H.
        now rewrite H. }
      destruct err; try (now elim Hty);
        match goal with
        | |- context [EmployeeHandler.isNotFoundError lower ?e] =>
          destruct (EmployeeHandler.isNotFoundError lower e)
        end; status_cases.
  - intros Entity ID Data. apply isNotFoundError_iff.
    now apply (@NotFoundError_isNotFoundError lower Hlower).
Qed.

Lemma russian_lower_small (r : rune) :
  1072 <= r <= 1103 \/ r = 32 -> russian_lower r = r.
Proof.
  intros H. unfold russian_lower, between.
  destruct H as [H| ->]; [|reflexivity].
  replace (65 <=? r) with true by (symmetry; apply Z.leb_le; lia).
  replace (r <=? 90) with false by (symmetry; apply Z.leb_gt; lia).
  replace (1040 <=? r) with true by (symmetry; apply Z.leb_le; lia).
  replace (r <=? 1071) with false by (symmetry; apply Z.leb_gt; lia).
  reflexivity.
Qed.

Lemma handler_not_found_status_witness :
  (forall r, 1072 <= r <= 1103 \/ r = 32 -> russian_lower r = r)
  /\ status (fst (EmployeeHandler.DeleteEmployee the_service russian_lower
                    (Some 7) db_ann))
     = Some StatusNotFound.
Proof.
  split; [exact russian_lower_small|].
  refine (proj2 (proj1 (proj2 (@handler_not_found_status
                                 russian_lower russian_lower_small))
                       DB the_service 7 db_ann
                       (snd (employeeRepository.Delete 7 db_ann))
                       (NotFoundError (runes "employee") 7 None)
                       eq_refl) _).
  exact (proj2 (proj2 (proj2 (@handler_not_found_status
                                russian_lower russian_lower_small)))
               (runes "employee") 7 None).
Defined.

(* ================================================================= *)
(** * What LIKE matches *)

Section Like.

Lemma like_match_Any (p : list tok) (s : text) :
  like_match (Any :: p) s
  = like_match p s
    || match s with
       | [] => false
       | _ :: s' => like_match (Any :: p) s'
       end.
Proof. destruct s; reflexivity. Qed.

Lemma like_match_Any_end (s : text) : like_match [Any] s = true.
Proof.
  induction s as [|c s IH]; [reflexivity|].
  rewrite like_match_Any, IH. apply orb_true_r.
Qed.

(** A pattern of literal characters followed by [%] tests a prefix. *)
Lemma like_match_prefix (q s : text) :
  like_match (map Lit q ++ [Any]) s = HasPrefix s q.
Proof.
  revert s. induction q as [|c q IH]; intros s.
  - simpl map. simpl app. rewrite like_match_Any_end. now destruct s.
  - destruct s as [|x s]; [reflexivity|].
    simpl. now rewrite IH.
Qed.

(** Between two [%] it tests a substring. *)
Lemma like_match_substring (q s : text) :
  like_match (Any :: map Lit q ++ [Any]) s = Contains s q.
Proof.
  induction s as [|x s IH].
  - rewrite like_match_Any, like_match_prefix. reflexivity.
  - rewrite like_match_Any, like_match_prefix, IH. reflexivity.
Qed.

Lemma parse_like_plain (q : text) (rest : list tok) (tl : text) :
  forallb plain q = true ->
  parse_like tl = Some rest ->
  parse_like (q ++ tl) = Some (map Lit q ++ rest).
Proof.
  intros Hq Htl. induction q as [|c q IH]; [exact Htl|].
  simpl in Hq. apply andb_true_iff in Hq. destruct Hq as [Hc Hq].
  unfold plain in Hc. rewrite !andb_true_iff, !negb_true_iff in Hc.
  destruct Hc as [[H1 H2] H3].
  simpl. rewrite H1, H2, H3, (IH Hq). reflexivity.
Qed.

Lemma parse_like_prefix_pattern (q : text) :
  forallb plain q = true ->
  parse_like (q ++ [percent]) = Some (map Lit q ++ [Any]).
Proof. intros Hq. now apply parse_like_plain. Qed.

Lemma parse_like_substring_pattern (q : text) :
  forallb plain q = true ->
  parse_like (percent :: q ++ [percent]) = Some (Any :: map Lit q ++ [Any]).
Proof.
  intros Hq. change (parse_like (percent :: q ++ [percent]))
    with (option_map (cons Any) (parse_like (q ++ [percent]))).
  now rewrite parse_like_prefix_pattern.
Qed.

End Like.

(** For a query made of characters that LIKE takes literally, in a locale
    that folds [%] to itself, the WHERE clause is the test for a
    substring and the CASE expression ranks by prefix, both on the folded
    texts. *)
Lemma query_search_plain (q : text) (db : DB) :
  exec_fault db = None ->
  has_nul q = false ->
  lower (lc db) percent = percent ->
  forallb plain (LOWER (lc db) q) = true ->
  exists (m x : list tok),
    fst (query_search (runes "%" ++ q ++ runes "%") (q ++ runes "%") db)
    = inr {| rows_data := select_search (lc db) m x (table db);
             rows_err := rows_fault db |}
    /\ (forall col, col_like (lc db) m col
                    = Contains (LOWER (lc db) col) (LOWER (lc db) q))
    /\ (forall col, col_like (lc db) x col
                    = HasPrefix (LOWER (lc db) col) (LOWER (lc db) q)).
Proof.
  intros Hf Hnul Hpct Hplain.
  exists (Any :: map Lit (LOWER (lc db) q) ++ [Any]),
         (map Lit (LOWER (lc db) q) ++ [Any]).
  split; [|split].
  - unfold query_search. rewrite Hf.
    assert (H1 : has_nul (runes "%" ++ q ++ runes "%") = false).
    { unfold has_nul in *. change (runes "%") with [percent].
      rewrite !existsb_app. apply orb_false_iff. split; [reflexivity|].
      apply orb_false_iff. split; [exact Hnul|reflexivity]. }
    assert (H2 : has_nul (q ++ runes "%") = false).
    { unfold has_nul in *. change (runes "%") with [percent].
      rewrite existsb_app. apply orb_false_iff.
      split; [exact Hnul|reflexivity]. }
    rewrite H1, H2. simpl orb. cbv iota.
    assert (L1 : LOWER (lc db) (runes "%" ++ q ++ runes "%")
                 = percent :: LOWER (lc db) q ++ [percent]).
    { unfold LOWER. change (runes "%") with [percent].
      rewrite !map_app. cbn [map]. rewrite Hpct. reflexivity. }
    assert (L2 : LOWER (lc db) (q ++ runes "%")
                 = LOWER (lc db) q ++ [percent]).
    { unfold LOWER. change (runes "%") with [percent].
      rewrite map_app. cbn [map]. rewrite Hpct. reflexivity. }
    rewrite L1, L2.
    rewrite (parse_like_substring_pattern _ Hplain).
    rewrite (parse_like_prefix_pattern _ Hplain).
    reflexivity.
  - intros col. unfold col_like. apply like_match_substring.
  - intros col. unfold col_like. apply like_match_prefix.
Qed.

(* ================================================================= *)
(** * The order and the members of a search result *)

Lemma limit_In (A : Type) (n : nat) (l : list A) (x : A) :
  In x (limit n l) -> In x l.
Proof.
  unfold limit. revert l. induction n as [|n IH]; intros l; simpl; [tauto|].
  destruct l as [|y l]; simpl; [tauto|].
  intros [H|H]; [now left|right; now apply IH].
Qed.

Section Ordering.

Variable A : Type.
Variable leb : A -> A -> bool.
Hypothesis leb_total : forall a b, leb a b = true \/ leb b a = true.

Lemma insert_row_In (x y : A) (l : list A) :
  In y (insert_row leb x l) <-> y = x \/ In y l.
Proof.
  induction l as [|z l IH]; simpl.
  - intuition congruence.
  - destruct (leb x z); simpl; [intuition congruence|].
    rewrite IH. intuition congruence.
Qed.

Lemma insert_row_sorted (x : A) (l : list A) :
  Sorted (fun a b => leb a b = true) l ->
  Sorted (fun a b => leb a b = true) (insert_row leb x l).
Proof.
  induction l as [|y l IH]; simpl; intros Hs.
  - repeat constructor.
  - destruct (leb x y) eqn:Hxy.
    + constructor; [exact Hs|]. constructor. exact Hxy.
    + inversion Hs as [|? ? Hl Hhd]; subst.
      constructor; [now apply IH|].
      assert (Hyx : leb y x = true) by (destruct (leb_total x y); congruence).
      destruct l as [|z l]; simpl.
      * constructor. exact Hyx.
      * destruct (leb x z); constructor; [exact Hyx|].
        now inversion Hhd.
Qed.

Lemma order_by_sorted (l : list A) :
  Sorted (fun a b => leb a b = true) (order_by leb l).
Proof.
  induction l as [|x l IH]; simpl; [constructor|].
  now apply insert_row_sorted.
Qed.

Lemma order_by_In (y : A) (l : list A) : In y (order_by leb l) <-> In y l.
Proof.
  induction l as [|x l IH]; simpl; [tauto|].
  rewrite insert_row_In, IH. intuition congruence.
Qed.

Lemma order_by_length (l : list A) :
  List.length (order_by leb l) = List.length l.
Proof.
  induction l as [|x l IH]; simpl; [reflexivity|].
  rewrite <- IH. generalize (order_by leb l). intros l'.
  induction l' as [|y l' IH']; simpl; [reflexivity|].
  destruct (leb x y); simpl; [reflexivity|]. now rewrite IH'.
Qed.

Lemma firstn_sorted (n : nat) (l : list A) :
  Sorted (fun a b => leb a b = true) l ->
  Sorted (fun a b => leb a b = true) (firstn n l).
Proof.
  revert l. induction n as [|n IH]; intros l Hs; simpl; [constructor|].
  destruct l as [|x l]; [constructor|].
  inversion Hs as [|? ? Hl Hhd]; subst.
  constructor; [now apply IH|].
  destruct l as [|y l]; [rewrite firstn_nil; constructor|].
  destruct n; simpl; constructor. now inversion Hhd.
Qed.

End Ordering.

Section SearchResult.

Variable l : Locale.
Hypothesis collate_total :
  forall a b, collate_leb l a b = true \/ collate_leb l b a = true.

Lemma search_leb_total (p : list tok) (r1 r2 : Row) :
  search_leb l p r1 r2 = true \/ search_leb l p r2 r1 = true.
Proof.
  unfold search_leb.
  destruct (Z.lt_trichotomy (rank l p r1) (rank l p r2)) as [H|[H|H]].
  - left. apply Z.ltb_lt in H. now rewrite H.
  - rewrite H, Z.ltb_irrefl, Z.eqb_refl. simpl.
    apply collate_total.
  - right. apply Z.ltb_lt in H. now rewrite H.
Qed.

(** The rows of a search come in the order of the ORDER BY clause. *)
Lemma select_search_ordered (m x : list tok) (t : list Row) :
  search_ordered l x (select_search l m x t).
Proof.
  unfold search_ordered, select_search, limit.
  apply firstn_sorted, order_by_sorted.
  intros a b. apply search_leb_total.
Qed.

(** Hence no row comes before a row of a better rank. *)
Lemma search_ordered_rank (x : list tok) (rows : list Row) :
  search_ordered l x rows ->
  StronglySorted (fun r1 r2 => rank l x r1 <= rank l x r2) rows.
Proof.
  intros Hs. apply Sorted_StronglySorted.
  - intros a b c Hab Hbc. lia.
  - unfold search_ordered in Hs.
    induction Hs as [|r rows Hrows IH Hhd]; constructor; [exact IH|].
    destruct Hhd as [|r' rows' Hrr']; constructor.
    unfold search_leb in Hrr'. apply orb_true_iff in Hrr'.
    destruct Hrr' as [H|H].
    + apply Z.ltb_lt in H. lia.
    + apply andb_true_iff in H. destruct H as [H _].
      apply Z.eqb_eq in H. lia.
Qed.

(** Every row of a search is a row of the table that the WHERE clause
    accepts, and all of those are there when they are at most 100. *)
Lemma select_search_In (m x : list tok) (t : list Row) (r : Row) :
  (In r (select_search l m x t) ->
   In r t /\ where_search l m r = true)
  /\ ((List.length (filter (where_search l m) t) <= 100)%nat ->
      In r t -> where_search l m r = true ->
      In r (select_search l m x t)).
Proof.
  unfold select_search. split.
  - intros H. apply limit_In in H. apply order_by_In in H.
    now apply filter_In in H.
  - intros Hlen Hin Hw. unfold limit.
    rewrite firstn_all2 by (now rewrite order_by_length).
    apply order_by_In. apply filter_In. now split.
Qed.

End SearchResult.

(** What the search of the repository returns for a query without
    wildcards: the employees of the rows in which the folded query is a
    substring of the folded name, phone or city (all of them when they
    are at most 100), in the order of the ranks 1 for a name that starts
    with the query, 2 for a phone, 3 for a city, 4 otherwise, and by name
    within a rank. *)
Lemma SearchEmployees_plain (q : text) (db : DB) :
  TrimSpace q <> [] ->
  exec_fault db = None ->
  rows_fault db = None ->
  has_nul (TrimSpace q) = false ->
  lower (lc db) percent = percent ->
  forallb plain (LOWER (lc db) (TrimSpace q)) = true ->
  (forall a b,
      collate_leb (lc db) a b = true \/ collate_leb (lc db) b a = true) ->
  exists (m x : list tok) (rows : list Row),
    fst (employeeRepository.SearchEmployees q db)
    = (map employeeRepository.Scan rows, None)
    /\ search_ordered (lc db) x rows
    /\ (forall col,
           col_like (lc db) x col
           = HasPrefix (LOWER (lc db) col) (LOWER (lc db) (TrimSpace q)))
    /\ (forall col,
           col_like (lc db) m col
           = Contains (LOWER (lc db) col) (LOWER (lc db) (TrimSpace q)))
    /\ (forall r, In r rows ->
                  In r (table db) /\ where_search (lc db) m r = true)
    /\ ((List.length (filter (where_search (lc db) m) (table db))
         <= 100)%nat ->
        forall r, In r (table db) -> where_search (lc db) m r = true ->
                  In r rows).
Proof.
  intros Hq Hf Hr Hnul Hpct Hplain Htotal.
  destruct (query_search_plain (TrimSpace q) db Hf Hnul Hpct Hplain)
    as (m & x & Hqs & Hm & Hx).
  exists m, x, (select_search (lc db) m x (table db)).
  split; [|split; [|split; [|split; [|split]]]].
  - rewrite (SearchEmployees_unfold q db Hq).
    destruct (query_search _ _ db) as [res db'].
    simpl in Hqs. subst res. simpl. now rewrite Hr.
  - now apply select_search_ordered.
  - exact Hx.
  - exact Hm.
  - intros r. apply select_search_In.
  - intros Hlen r. now apply select_search_In.
Qed.

(* ================================================================= *)
(** * Queries with wildcards *)

(** C2, where the code departs from it: the query is put between two [%]
    as it is, so a [_] or [%] in it is a wildcard of LIKE.  With the
    employee John Doe in the store, the query [j_hn], which in any case
    is a substring of neither the name nor the phone nor the city of
    that employee, returns the employee, from the repository and through
    the service alike. *)
Theorem SearchEmployees_wildcard_member :
  fst (employeeRepository.SearchEmployees (runes "j_hn") db_john)
  = ([set_ID john 1], None)
  /\ fst (EmployeeService.SearchEmployees the_service (runes "j_hn") db_john)
     = ([set_ID john 1], None)
  /\ Contains (LOWER C_locale (Name john)) (LOWER C_locale (runes "j_hn"))
     = false
  /\ Contains (LOWER C_locale (Phone john)) (LOWER C_locale (runes "j_hn"))
     = false
  /\ Contains (LOWER C_locale (City john)) (LOWER C_locale (runes "j_hn"))
     = false.
Proof. repeat split; vm_compute; reflexivity. Qed.

(** C1, where the code departs from it: the pattern of the ranks is the
    query followed by [%], with the wildcards of the query alive.  Both
    employees of the store have the query [n_w] as a substring, Newton N_W
    in the name and Zed in the city.  The city of Zed starts with the
    query and no field of Newton does, yet the store ranks Newton first:
    the name matches the pattern, the [_] standing for the [e]. *)
Theorem SearchEmployees_wildcard_rank :
  fst (employeeRepository.SearchEmployees (runes "n_w") db_two)
  = ([set_ID newton 1; set_ID zed 2], None)
  /\ HasPrefix (LOWER C_locale (City zed)) (LOWER C_locale (runes "n_w"))
     = true
  /\ Contains (LOWER C_locale (Name newton)) (LOWER C_locale (runes "n_w"))
     = true
  /\ HasPrefix (LOWER C_locale (Name newton)) (LOWER C_locale (runes "n_w"))
     = false
  /\ HasPrefix (LOWER C_locale (Phone newton)) (LOWER C_locale (runes "n_w"))
     = false
  /\ HasPrefix (LOWER C_locale (City newton)) (LOWER C_locale (runes "n_w"))
     = false.
Proof. repeat split; vm_compute; reflexivity. Qed.

(* ================================================================= *)
(** * Creating and reading back *)

Section CreateFacts.

Import employeeRepository.

Lemma coerce_columns_fits (e : Employee) :
  fits e ->
  coerce_columns (Name e) (Phone e) (City e)
  = inr (Name e, Phone e, City e).
Proof.
  intros (Hn & Hp & Hc & Ln & Lp & Lc). unfold coerce_columns.
  rewrite Hn, Hp, Hc. simpl.
  rewrite (@varchar_fits 255%nat _ Ln), (@varchar_fits 50%nat _ Lp),
    (@varchar_fits 100%nat _ Lc).
  reflexivity.
Qed.

(** What a successful [Create] has done. *)
Lemma Create_success (e e' : Employee) (db db' : DB) :
  Create e db = (None, e', db') ->
  exec_fault db = None
  /\ seq db <= max_int4
  /\ e' = set_ID e (seq db)
  /\ exists n p c,
      coerce_columns (Name e) (Phone e) (City e) = inr (n, p, c)
      /\ phone_in p (table db) = false
      /\ db' = with_table
                 (with_seq (logged (InsertStmt (Name e) (Phone e) (City e)) db)
                           (seq db + 1))
                 (table db ++ [{| row_id := seq db; row_name := n;
                                  row_phone := p; row_city := c |}]).
Proof.
  unfold Create, query_insert.
  destruct (exec_fault db); [discriminate|].
  destruct (coerce_columns _ _ _) as [err|[[n p] c]]; [discriminate|].
  destruct (max_int4 <? seq db) eqn:Hseq; [discriminate|].
  destruct (phone_in p (table db)) eqn:Hin; [discriminate|].
  intros [= <- <-]. apply Z.ltb_ge in Hseq.
  repeat split; try assumption.
  exists n, p, c. repeat split. exact Hin.
Qed.

Lemma find_last (id : Z) (t : list Row) (r : Row) :
  ~ In id (ids t) -> has_id id r = true ->
  find (has_id id) (t ++ [r]) = Some r.
Proof.
  intros Hn Hr. induction t as [|x t IH]; simpl.
  - now rewrite Hr.
  - destruct (has_id id x) eqn:Hx.
    + exfalso. apply Hn. left. now apply Z.eqb_eq in Hx.
    + apply IH. intros H. apply Hn. now right.
Qed.

Lemma seq_not_in_ids (db : DB) :
  schema_invariant db -> ~ In (seq db) (ids (table db)).
Proof.
  intros (_ & _ & Hlt & _) Hin.
  rewrite Forall_forall in Hlt. apply Hlt in Hin. lia.
Qed.

End CreateFacts.

(** X1: a successful [Create] hands out the next value of the sequence, a
    positive id that no stored employee has; the employee comes back with
    that id and with the fields it was given, and the table has grown by
    one row at its end, the row of that id, whose phone no other row
    holds. *)
Theorem Create_assigns_fresh_id
        (l : Locale) (e e' : Employee) (db db' : DB) :
  reachable l db ->
  employeeRepository.Create e db = (None, e', db') ->
  ID e' = seq db
  /\ 0 < ID e'
  /\ ~ In (ID e') (ids (table db))
  /\ Name e' = Name e /\ Phone e' = Phone e /\ City e' = City e
  /\ exists r, table db' = table db ++ [r]
               /\ row_id r = ID e'
               /\ ~ In (row_phone r) (phones (table db)).
Proof.
  intros Hr Hc. apply reachable_schema_invariant in Hr.
  destruct (Create_success _ _ Hc)
    as (_ & _ & -> & n & p & c & _ & Hin & ->).
  pose proof (seq_not_in_ids Hr) as Hfresh.
  destruct Hr as (_ & Hseq & _).
  simpl. repeat split; try assumption; try lia.
  eexists. repeat split. simpl. now apply phone_in_not_In.
Qed.

Lemma Create_assigns_fresh_id_witness :
  reachable C_locale db_ann
  /\ employeeRepository.Create carl db_ann
     = (None, set_ID carl 2, snd (employeeRepository.Create carl db_ann))
  /\ ID (set_ID carl 2) = seq db_ann
  /\ 0 < ID (set_ID carl 2).
Proof.
  assert (H : reachable C_locale db_ann)
    by exact (reachable_step (reachable_empty C_locale)
                             (step_Create ann (empty_DB C_locale))).
  assert (Hc : employeeRepository.Create carl db_ann
               = (None, set_ID carl 2,
                  snd (employeeRepository.Create carl db_ann)))
    by reflexivity.
  pose proof (@Create_assigns_fresh_id C_locale carl (set_ID carl 2) db_ann
                (snd (employeeRepository.Create carl db_ann)) H Hc) as T.
  exact (conj H (conj Hc (conj (proj1 T) (proj1 (proj2 T))))).
Defined.

(** [GetByID] when the statement runs and the table has a row of the
    id. *)
Lemma GetByID_found (id : Z) (db : DB) (r : Row) :
  exec_fault db = None -> int4_ok id = true ->
  find (has_id id) (table db) = Some r ->
  fst (employeeRepository.GetByID id db)
  = (Some (employeeRepository.Scan r), None).
Proof.
  intros Hf Hid Hfind. unfold employeeRepository.GetByID, query_by_id.
  now rewrite Hf, Hid, Hfind.
Qed.

Lemma int4_ok_seq (db : DB) :
  schema_invariant db -> seq db <= max_int4 -> int4_ok (seq db) = true.
Proof.
  intros (_ & Hseq & _) Hmax. unfold int4_ok, min_int4.
  apply andb_true_iff. split; apply Z.leb_le; [lia|exact Hmax].
Qed.

Lemma Create_read_back
        (l : Locale) (e e' : Employee) (db db' : DB) :
  reachable l db ->
  employeeRepository.Create e db = (None, e', db') ->
  exists stored : Employee,
    fst (employeeRepository.GetByID (ID e') db') = (Some stored, None)
    /\ ID stored = ID e'
    /\ (fits e -> stored = e').
Proof.
  intros Hr Hc. apply reachable_schema_invariant in Hr.
  destruct (Create_success _ _ Hc)
    as (Hf & Hmax & -> & n & p & c & Hco & Hin & ->).
  exists {| ID := seq db; Name := n; Phone := p; City := c |}.
  split; [|split].
  - apply (@GetByID_found (seq db) _
             {| row_id := seq db; row_name := n; row_phone := p;
                row_city := c |}).
    + exact Hf.
    + now apply int4_ok_seq.
    + simpl. apply find_last; [now apply seq_not_in_ids|].
      apply Z.eqb_refl.
  - reflexivity.
  - intros Hfit. rewrite (coerce_columns_fits Hfit) in Hco.
    injection Hco as <- <- <-. reflexivity.
Qed.

(** X2: the employee that a successful [Create] returns can be read back
    under its new id: [GetByID] finds an employee of that id, and when
    the fields fit their columns it is the very employee that [Create]
    returned. *)
Theorem Create_then_GetByID
        (l : Locale) (e e' : Employee) (db db' : DB) :
  reachable l db ->
  employeeRepository.Create e db = (None, e', db') ->
  exists stored : Employee,
    fst (employeeRepository.GetByID (ID e') db') = (Some stored, None)
    /\ ID stored = ID e'
    /\ (fits e -> stored = e').
Proof. exact (@Create_read_back l e e' db db'). Qed.

Lemma Create_then_GetByID_witness :
  reachable C_locale db_ann
  /\ fits carl
  /\ exists stored : Employee,
      fst (employeeRepository.GetByID (ID (set_ID carl 2))
             (snd (employeeRepository.Create carl db_ann)))
      = (Some stored, None)
      /\ ID stored = ID (set_ID carl 2)
      /\ (fits carl -> stored = set_ID carl 2).
Proof.
  assert (H : reachable C_locale db_ann)
    by exact (reachable_step (reachable_empty C_locale)
                             (step_Create ann (empty_DB C_locale))).
  assert (Hfit : fits carl)
    by (unfold fits; repeat split; try reflexivity;
        apply Nat.leb_le; reflexivity).
  exact (conj H (conj Hfit
           (@Create_then_GetByID C_locale carl (set_ID carl 2) db_ann
              (snd (employeeRepository.Create carl db_ann)) H eq_refl))).
Defined.

Lemma find_has_id (id : Z) (t : list Row) :
  (In id (ids t) ->
   exists r, find (has_id id) t = Some r /\ In r t /\ row_id r = id)
  /\ (~ In id (ids t) -> find (has_id id) t = None).
Proof.
  induction t as [|x t [IH1 IH2]]; simpl.
  - split; [intros []|reflexivity].
  - destruct (has_id id x) eqn:Hx.
    + apply Z.eqb_eq in Hx. split.
      * intros _. exists x. repeat split; [now left|exact Hx].
      * intros H. exfalso. apply H. now left.
    + apply Z.eqb_neq in Hx. split.
      * intros [H|H]; [contradiction|].
        destruct (IH1 H) as (r & Hf & Hin & Hid).
        exists r. repeat split; [exact Hf|now right|exact Hid].
      * intros H. apply IH2. intros Hin. apply H. now right.
Qed.

(** X3: when the statement runs, [GetByID] returns an employee of the id
    asked for, one of the stored ones, if the table has a row of that id,
    and [NotFoundError] for the entity [employee] and that id if it has
    none. *)
Theorem GetByID_by_membership (id : Z) (db : DB) :
  exec_fault db = None ->
  int4_ok id = true ->
  (In id (ids (table db)) ->
   exists e : Employee,
     fst (employeeRepository.GetByID id db) = (Some e, None)
     /\ ID e = id
     /\ In e (map employeeRepository.Scan (table db)))
  /\ (~ In id (ids (table db)) ->
      fst (employeeRepository.GetByID id db)
      = (None, Some (NotFoundError (runes "employee") id None))).
Proof.
  intros Hf Hid. destruct (find_has_id id (table db)) as [H1 H2]. split.
  - intros Hin. destruct (H1 Hin) as (r & Hfind & Hr & Hrid).
    exists (employeeRepository.Scan r). split; [|split].
    + now apply GetByID_found.
    + exact Hrid.
    + now apply in_map.
  - intros Hn. unfold employeeRepository.GetByID, query_by_id.
    now rewrite Hf, Hid, (H2 Hn).
Qed.

Lemma GetByID_by_membership_witness :
  exec_fault db_ann = None
  /\ int4_ok 1 = true
  /\ int4_ok 5 = true
  /\ (exists e : Employee,
         fst (employeeRepository.GetByID 1 db_ann) = (Some e, None)
         /\ ID e = 1
         /\ In e (map employeeRepository.Scan (table db_ann)))
  /\ fst (employeeRepository.GetByID 5 db_ann)
     = (None, Some (NotFoundError (runes "employee") 5 None)).
Proof.
  split; [reflexivity|]. split; [reflexivity|]. split; [reflexivity|].
  split.
  - refine (proj1 (@GetByID_by_membership 1 db_ann eq_refl eq_refl) _).
    left. reflexivity.
  - refine (proj2 (@GetByID_by_membership 5 db_ann eq_refl eq_refl) _).
    intros [H|[]]. discriminate H.
Defined.

(* ================================================================= *)
(** * Updating and deleting *)

Section UpdateFacts.

Import employeeRepository.

(** What a successful [Update] has done. *)
Lemma Update_success (e : Employee) (db db' : DB) :
  Update e db = (None, db') ->
  exec_fault db = None
  /\ int4_ok (ID e) = true
  /\ filter (has_id (ID e)) (table db) <> []
  /\ exists n p c,
      coerce_columns (Name e) (Phone e) (City e) = inr (n, p, c)
      /\ db' = with_table
                 (logged (UpdateStmt (ID e) (Name e) (Phone e) (City e)) db)
                 (map (fun r =>
                         if has_id (ID e) r
                         then {| row_id := row_id r; row_name := n;
                                 row_phone := p; row_city := c |}
                         else r) (table db)).
Proof.
  unfold Update, exec_update.
  destruct (exec_fault db); [discriminate|].
  destruct (int4_ok (ID e)); [|discriminate]. simpl negb. cbv iota.
  destruct (coerce_columns _ _ _) as [err|[[n p] c]]; [discriminate|].
  destruct (filter (has_id (ID e)) (table db)) as [|h hit] eqn:Hhit.
  - simpl. unfold result_of. destruct (affected_fault db); discriminate.
  - cbv [is_nil].
    destruct (phone_in p _ || _); [discriminate|].
    unfold result_of. simpl RowsAffected.
    destruct (affected_fault db); [discriminate|].
    destruct (_ =? 0); [discriminate|].
    intros [= <-]. repeat split; try discriminate.
    exists n, p, c. split; reflexivity.
Qed.

Lemma rewritten_ids (id : Z) (n p c : text) (t : list Row) :
  ids (map (fun r =>
              if has_id id r
              then {| row_id := row_id r; row_name := n;
                      row_phone := p; row_city := c |}
              else r) t) = ids t.
Proof.
  unfold ids. induction t as [|r t IH]; simpl; [reflexivity|].
  rewrite IH. now destruct (has_id id r).
Qed.

Lemma rewritten_find_same (id : Z) (n p c : text) (t : list Row) :
  filter (has_id id) t <> [] ->
  exists r, find (has_id id)
                 (map (fun r =>
                         if has_id id r
                         then {| row_id := row_id r; row_name := n;
                                 row_phone := p; row_city := c |}
                         else r) t)
            = Some {| row_id := row_id r; row_name := n;
                      row_phone := p; row_city := c |}
            /\ row_id r = id.
Proof.
  induction t as [|x t IH]; simpl; [congruence|].
  destruct (has_id id x) eqn:Hx; simpl.
  - intros _. exists x. unfold has_id at 1. simpl.
    unfold has_id in Hx. rewrite Hx. split; [reflexivity|].
    now apply Z.eqb_eq.
  - rewrite Hx. exact IH.
Qed.

Lemma rewritten_find_other (id id' : Z) (n p c : text) (t : list Row) :
  id' <> id ->
  find (has_id id')
       (map (fun r =>
               if has_id id r
               then {| row_id := row_id r; row_name := n;
                       row_phone := p; row_city := c |}
               else r) t)
  = find (has_id id') t.
Proof.
  intros Hne. induction t as [|x t IH]; simpl; [reflexivity|].
  destruct (has_id id x) eqn:Hx.
  - unfold has_id at 1. simpl. apply Z.eqb_eq in Hx.
    assert (H1 : (row_id x =? id') = false) by (apply Z.eqb_neq; lia).
    rewrite H1. change (has_id id' x) with (row_id x =? id').
    rewrite H1. exact IH.
  - destruct (has_id id' x); [reflexivity|exact IH].
Qed.

Lemma GetByID_same_table (id : Z) (db db' : DB) :
  exec_fault db' = exec_fault db ->
  find (has_id id) (table db') = find (has_id id) (table db) ->
  fst (GetByID id db') = fst (GetByID id db).
Proof.
  intros Hf Hfind. unfold GetByID, query_by_id. rewrite Hf, Hfind.
  clear Hf Hfind. generalize (find (has_id id) (table db)). intros o.
  destruct (exec_fault db) as [e|]; [destruct e; reflexivity|].
  destruct (negb (int4_ok id)); [reflexivity|].
  destruct o; reflexivity.
Qed.

End UpdateFacts.

(** X4: after a successful [Update] the employees have the ids they had,
    [GetByID] on the id of the update finds an employee of that id, which
    is the employee given when the fields fit their columns, and
    [GetByID] on any other id answers as it did before. *)
Theorem Update_then_GetByID (e : Employee) (db db' : DB) :
  employeeRepository.Update e db = (None, db') ->
  ids (table db') = ids (table db)
  /\ (exists stored : Employee,
         fst (employeeRepository.GetByID (ID e) db') = (Some stored, None)
         /\ ID stored = ID e
         /\ (fits e -> stored = e))
  /\ (forall id, id <> ID e ->
                 fst (employeeRepository.GetByID id db')
                 = fst (employeeRepository.GetByID id db)).
Proof.
  intros Hu.
  destruct (Update_success _ _ Hu)
    as (Hf & Hid & Hhit & n & p & c & Hco & ->).
  split; [|split].
  - simpl. apply rewritten_ids.
  - destruct (@rewritten_find_same (ID e) n p c (table db) Hhit)
      as (r & Hfind & Hr).
    exists {| ID := ID e; Name := n; Phone := p; City := c |}.
    split; [|split].
    + rewrite (@GetByID_found (ID e)
                 (with_table
                    (logged (UpdateStmt (ID e) (Name e) (Phone e) (City e))
                            db) _) _ Hf Hid Hfind).
      unfold employeeRepository.Scan. simpl. now rewrite Hr.
    + reflexivity.
    + intros Hfit. rewrite (coerce_columns_fits Hfit) in Hco.
      injection Hco as <- <- <-. now destruct e.
  - intros id Hne. apply GetByID_same_table; [reflexivity|].
    simpl. now apply rewritten_find_other.
Qed.

Lemma Update_then_GetByID_witness :
  employeeRepository.Update ann_moved db_ann
  = (None, snd (employeeRepository.Update ann_moved db_ann))
  /\ ids (table (snd (employeeRepository.Update ann_moved db_ann)))
     = ids (table db_ann)
  /\ (exists stored : Employee,
         fst (employeeRepository.GetByID (ID ann_moved)
                (snd (employeeRepository.Update ann_moved db_ann)))
         = (Some stored, None)
         /\ ID stored = ID ann_moved
         /\ (fits ann_moved -> stored = ann_moved))
  /\ (forall id, id <> ID ann_moved ->
                 fst (employeeRepository.GetByID id
                        (snd (employeeRepository.Update ann_moved db_ann)))
                 = fst (employeeRepository.GetByID id db_ann)).
Proof.
  exact (conj eq_refl
           (@Update_then_GetByID ann_moved db_ann
              (snd (employeeRepository.Update ann_moved db_ann)) eq_refl)).
Defined.

Section DeleteFacts.

Import employeeRepository.


Lemma Delete_table (id : Z) (db : DB) :
  table (snd (Delete id db)) = table db
  \/ (exec_fault db = None
      /\ table (snd (Delete id db))
         = filter (fun r => negb (has_id id r)) (table db)).
Proof.
  rewrite Delete_state. unfold exec_delete.
  destruct (exec_fault db); [now left|].
  destruct (negb (int4_ok id)); [now left|].
  right. split; reflexivity.
Qed.



Lemma NoDup_ids_filter (id : Z) (t : list Row) :
  NoDup (ids t) -> (List.length (filter (has_id id) t) <= 1)%nat.
Proof.
  unfold ids. induction t as [|x t IH]; simpl; intros Hnd; [lia|].
  inversion Hnd as [|? ? Hx Ht]; subst.
  destruct (has_id id x) eqn:Hid; [|now apply IH].
  apply Z.eqb_eq in Hid. simpl.
  destruct (filter (has_id id) t) as [|y l] eqn:Hfil; [simpl; lia|].
  exfalso. apply Hx.
  assert (Hy : In y (filter (has_id id) t)) by (rewrite Hfil; now left).
  apply filter_In in Hy. destruct Hy as [Hy1 Hy2].
  apply Z.eqb_eq in Hy2. apply in_map_iff. exists y. split; [lia|exact Hy1].
Qed.

End DeleteFacts.



Section Uniqueness.

Import employeeRepository.

Lemma held_by_other_phone_in (p : text) (id : Z) (t : list Row) :
  phone_in p (filter (fun r => negb (has_id id r)) t) = true
  <-> held_by_other p id t.
Proof.
  rewrite phone_in_In. unfold phones, held_by_other.
  rewrite in_map_iff. split.
  - intros (r & Hp & Hr). apply filter_In in Hr. destruct Hr as [Hr Hid].
    apply negb_true_iff in Hid. apply Z.eqb_neq in Hid.
    exists r. repeat split; assumption.
  - intros (r & Hr & Hp & Hid). exists r. split; [exact Hp|].
    apply filter_In. split; [exact Hr|].
    apply negb_true_iff. now apply Z.eqb_neq.
Qed.

Lemma In_ids_filter (id : Z) (t : list Row) :
  In id (ids t) -> filter (has_id id) t <> [].
Proof.
  unfold ids. intros Hin. apply in_map_iff in Hin.
  destruct Hin as (r & Hid & Hr).
  assert (H : In r (filter (has_id id) t))
    by (apply filter_In; split; [exact Hr|now apply Z.eqb_eq]).
  intros Hnil. now rewrite Hnil in H.
Qed.

End Uniqueness.

Lemma Update_outcome (l : Locale) (e : Employee) (db : DB) :
  reachable l db ->
  exec_fault db = None ->
  affected_fault db = None ->
  int4_ok (ID e) = true ->
  fits e ->
  In (ID e) (ids (table db)) ->
  (held_by_other (Phone e) (ID e) (table db) ->
   fst (employeeRepository.Update e db)
   = Some (Errorf (runes "обновление сотрудника") err_unique)
   /\ table (snd (employeeRepository.Update e db)) = table db)
  /\ (~ held_by_other (Phone e) (ID e) (table db) ->
      fst (employeeRepository.Update e db) = None).
Proof.
  intros Hr Hf Ha Hid Hfit Hin.
  apply reachable_schema_invariant in Hr.
  destruct Hr as ((_ & Hnd & _) & _).
  pose proof (@NoDup_ids_filter (ID e) (table db) Hnd) as Hle.
  pose proof (In_ids_filter _ _ Hin) as Hhit.
  unfold employeeRepository.Update, exec_update.
  rewrite Hf, Hid, (coerce_columns_fits Hfit). simpl negb. cbv iota.
  destruct (filter (has_id (ID e)) (table db)) as [|h hit] eqn:Hfil;
    [congruence|].
  cbv [is_nil].
  assert (Hone : (1 <? Z.of_nat (List.length (h :: hit))) = false)
    by (apply Z.ltb_ge; lia).
  rewrite Hone, orb_false_r.
  destruct (phone_in (Phone e) _) eqn:Hp.
  - split; [intros _; split; reflexivity|].
    intros Hno. exfalso. apply Hno. now apply held_by_other_phone_in.
  - split.
    + intros Hheld. apply held_by_other_phone_in in Hheld. congruence.
    + intros _. unfold result_of. rewrite Ha. reflexivity.
Qed.

(** X6: in a state that the store reaches, with the connection in order,
    an [Update] of a stored id with fields that fit their columns
    succeeds exactly when no other employee holds the phone: when one
    does, the violation of the UNIQUE constraint comes back wrapped and
    the rows stay as they were. *)
Theorem Update_phone_uniqueness (l : Locale) (e : Employee) (db : DB) :
  reachable l db ->
  exec_fault db = None ->
  affected_fault db = None ->
  int4_ok (ID e) = true ->
  fits e ->
  In (ID e) (ids (table db)) ->
  (held_by_other (Phone e) (ID e) (table db) ->
   fst (employeeRepository.Update e db)
   = Some (Errorf (runes "обновление сотрудника") err_unique)
   /\ table (snd (employeeRepository.Update e db)) = table db)
  /\ (~ held_by_other (Phone e) (ID e) (table db) ->
      fst (employeeRepository.Update e db) = None).
Proof. exact (@Update_outcome l e db). Qed.

Lemma Update_phone_uniqueness_witness :
  reachable C_locale db_ann_carl
  /\ fits carl_taking
  /\ held_by_other (Phone carl_taking) (ID carl_taking) (table db_ann_carl)
  /\ fst (employeeRepository.Update carl_taking db_ann_carl)
     = Some (Errorf (runes "обновление сотрудника") err_unique)
  /\ table (snd (employeeRepository.Update carl_taking db_ann_carl))
     = table db_ann_carl.
Proof.
  assert (H : reachable C_locale db_ann_carl)
    by exact (reachable_step
                (reachable_step (reachable_empty C_locale)
                                (step_Create ann (empty_DB C_locale)))
                (step_Create carl db_ann)).
  assert (Hfit : fits carl_taking)
    by (unfold fits; repeat split; try reflexivity;
        apply Nat.leb_le; reflexivity).
  assert (Hin : In (ID carl_taking) (ids (table db_ann_carl)))
    by (right; left; reflexivity).
  assert (Hheld : held_by_other (Phone carl_taking) (ID carl_taking)
                                (table db_ann_carl)).
  { exists {| row_id := 1; row_name := runes "Ann";
              row_phone := runes "7771"; row_city := runes "Almaty" |}.
    split; [left; reflexivity|]. split; [reflexivity|discriminate]. }
  exact (conj H (conj Hfit (conj Hheld
           (proj1 (@Update_phone_uniqueness C_locale carl_taking db_ann_carl
                     H eq_refl eq_refl eq_refl Hfit Hin) Hheld)))).
Defined.

(* ================================================================= *)
(** * Looking a phone up *)

Section PhoneFacts.

Import employeeRepository.

Lemma existsb_has_phone (phone : text) (t : list Row) :
  existsb (reads.has_phone phone) t = true <-> In phone (phones t).
Proof. exact (phone_in_In phone t). Qed.

Lemma existsb_other (phone : text) (id : Z) (t : list Row) :
  existsb (fun r => reads.has_phone phone r && negb (has_id id r)) t = true
  <-> held_by_other phone id t.
Proof.
  rewrite existsb_exists. unfold held_by_other. split.
  - intros (r & Hr & H). apply andb_true_iff in H. destruct H as [Hp Hid].
    apply text_eqb_eq in Hp. apply negb_true_iff in Hid.
    apply Z.eqb_neq in Hid. exists r. repeat split; assumption.
  - intros (r & Hr & Hp & Hid). exists r. split; [exact Hr|].
    apply andb_true_iff. split.
    + now apply text_eqb_eq.
    + apply negb_true_iff. now apply Z.eqb_neq.
Qed.

(** [Create] when the statement gets through to the check of the UNIQUE
    constraint. *)
Lemma Create_outcome (e : Employee) (db : DB) :
  exec_fault db = None -> fits e -> seq db <= max_int4 ->
  (In (Phone e) (phones (table db)) ->
   fst (fst (Create e db))
   = Some (Errorf (runes "создание сотрудника") err_unique))
  /\ (~ In (Phone e) (phones (table db)) ->
      fst (Create e db) = (None, set_ID e (seq db))).
Proof.
  intros Hf Hfit Hseq. unfold Create, query_insert.
  rewrite Hf, (coerce_columns_fits Hfit).
  assert (H : (max_int4 <? seq db) = false) by (apply Z.ltb_ge; lia).
  rewrite H. split; intros Hin.
  - apply phone_in_In in Hin. now rewrite Hin.
  - apply phone_in_not_In in Hin. now rewrite Hin.
Qed.

End PhoneFacts.

(** X7: when the statement runs, [CheckPhoneExists] without an id to
    exclude answers whether some employee holds the phone, and with ids
    to exclude it answers whether an employee other than the first of
    them holds it; the ids after the first play no part. *)
Theorem CheckPhoneExists_answer (phone : text) (db : DB) :
  exec_fault db = None ->
  has_nul phone = false ->
  (exists b : bool,
      reads.CheckPhoneExists phone [] db = (b, None)
      /\ (b = true <-> In phone (phones (table db))))
  /\ (forall (id : Z) (rest : list Z),
         int4_ok id = true ->
         exists b : bool,
           reads.CheckPhoneExists phone (id :: rest) db = (b, None)
           /\ (b = true <-> held_by_other phone id (table db))).
Proof.
  intros Hf Hnul. unfold reads.CheckPhoneExists, reads.query_phone_exists.
  rewrite Hf, Hnul. split.
  - eexists. split; [reflexivity|]. apply existsb_has_phone.
  - intros id rest Hid. simpl hd_error. cbv iota. rewrite Hid. simpl negb.
    cbv iota. eexists. split; [reflexivity|]. apply existsb_other.
Qed.

Lemma CheckPhoneExists_answer_witness :
  exec_fault db_ann_carl = None
  /\ has_nul (runes "7771") = false
  /\ (exists b : bool,
         reads.CheckPhoneExists (runes "7771") [] db_ann_carl = (b, None)
         /\ (b = true <-> In (runes "7771") (phones (table db_ann_carl))))
  /\ (exists b : bool,
         reads.CheckPhoneExists (runes "7771") [1; 2] db_ann_carl = (b, None)
         /\ (b = true
             <-> held_by_other (runes "7771") 1 (table db_ann_carl))).
Proof.
  split; [reflexivity|]. split; [reflexivity|]. split.
  - exact (proj1 (@CheckPhoneExists_answer (runes "7771") db_ann_carl
                    eq_refl eq_refl)).
  - exact (proj2 (@CheckPhoneExists_answer (runes "7771") db_ann_carl
                    eq_refl eq_refl) 1 [2] eq_refl).
Defined.

(** X8: [CheckPhoneExists] foretells the UNIQUE constraint.  In a state
    that the store reaches, with the connection in order and fields that
    fit their columns: if it says that nobody holds the phone, [Create]
    succeeds; if it says that somebody does, [Create] fails with the
    violation wrapped; and if, with the id of the employee excluded, it
    says that nobody else holds the phone, [Update] of that stored
    employee succeeds. *)
Theorem CheckPhoneExists_foretells (l : Locale) (e : Employee) (db : DB) :
  reachable l db ->
  exec_fault db = None ->
  affected_fault db = None ->
  fits e ->
  (seq db <= max_int4 ->
   reads.CheckPhoneExists (Phone e) [] db = (false, None) ->
   fst (fst (employeeRepository.Create e db)) = None)
  /\ (seq db <= max_int4 ->
      reads.CheckPhoneExists (Phone e) [] db = (true, None) ->
      fst (fst (employeeRepository.Create e db))
      = Some (Errorf (runes "создание сотрудника") err_unique))
  /\ (int4_ok (ID e) = true ->
      In (ID e) (ids (table db)) ->
      reads.CheckPhoneExists (Phone e) [ID e] db = (false, None) ->
      fst (employeeRepository.Update e db) = None).
Proof.
  intros Hr Hf Ha Hfit.
  assert (Hnul : has_nul (Phone e) = false) by apply Hfit.
  split; [|split].
  - intros Hseq Hc.
    destruct (@Create_outcome e db Hf Hfit Hseq) as [_ H].
    rewrite H; [reflexivity|].
    unfold reads.CheckPhoneExists, reads.query_phone_exists in Hc.
    rewrite Hf, Hnul in Hc. simpl in Hc. injection Hc as Hc.
    intros Hin. apply existsb_has_phone in Hin. congruence.
  - intros Hseq Hc.
    destruct (@Create_outcome e db Hf Hfit Hseq) as [H _]. apply H.
    unfold reads.CheckPhoneExists, reads.query_phone_exists in Hc.
    rewrite Hf, Hnul in Hc. simpl in Hc. injection Hc as Hc.
    now apply existsb_has_phone.
  - intros Hid Hin Hc.
    apply (@Update_outcome l e db Hr Hf Ha Hid Hfit Hin).
    unfold reads.CheckPhoneExists, reads.query_phone_exists in Hc.
    rewrite Hf, Hnul in Hc. simpl hd_error in Hc. cbv iota in Hc.
    rewrite Hid in Hc. simpl negb in Hc. cbv iota in Hc.
    injection Hc as Hc.
    intros Hheld. apply existsb_other in Hheld. congruence.
Qed.

Lemma CheckPhoneExists_foretells_witness :
  reachable C_locale db_ann_carl
  /\ fits ann_moved
  /\ reads.CheckPhoneExists (Phone ann_moved) [ID ann_moved] db_ann_carl
     = (false, None)
  /\ fst (employeeRepository.Update ann_moved db_ann_carl) = None.
Proof.
  assert (H : reachable C_locale db_ann_carl)
    by exact (reachable_step
                (reachable_step (reachable_empty C_locale)
                                (step_Create ann (empty_DB C_locale)))
                (step_Create carl db_ann)).
  assert (Hfit : fits ann_moved)
    by (unfold fits; repeat split; try reflexivity;
        apply Nat.leb_le; reflexivity).
  assert (Hin : In (ID ann_moved) (ids (table db_ann_carl)))
    by (left; reflexivity).
  exact (conj H (conj Hfit (conj eq_refl
           (proj2 (proj2 (@CheckPhoneExists_foretells C_locale ann_moved
                            db_ann_carl H eq_refl eq_refl Hfit))
                  eq_refl Hin eq_refl)))).
Defined.

Section ByPhone.

Lemma find_has_phone (phone : text) (t : list Row) :
  (In phone (phones t) ->
   exists r, find (reads.has_phone phone) t = Some r
             /\ In r t /\ row_phone r = phone)
  /\ (~ In phone (phones t) -> find (reads.has_phone phone) t = None).
Proof.
  unfold phones. induction t as [|x t [IH1 IH2]]; simpl.
  - split; [intros []|reflexivity].
  - destruct (reads.has_phone phone x) eqn:Hx.
    + apply text_eqb_eq in Hx. split.
      * intros _. exists x. repeat split; [now left|exact Hx].
      * intros H. exfalso. apply H. now left.
    + assert (Hne : row_phone x <> phone).
      { intros Heq. apply text_eqb_eq in Heq.
        unfold reads.has_phone in Hx. congruence. }
      split.
      * intros [H|H]; [contradiction|].
        destruct (IH1 H) as (r & Hf & Hin & Hp).
        exists r. repeat split; [exact Hf|now right|exact Hp].
      * intros H. apply IH2. intros Hin. apply H. now right.
Qed.

Lemma find_phone_last (phone : text) (t : list Row) (r : Row) :
  ~ In phone (phones t) -> row_phone r = phone ->
  find (reads.has_phone phone) (t ++ [r]) = Some r.
Proof.
  intros Hn Hr. induction t as [|x t IH]; simpl.
  - assert (H : reads.has_phone phone r = true) by now apply text_eqb_eq.
    now rewrite H.
  - destruct (reads.has_phone phone x) eqn:Hx.
    + exfalso. apply Hn. left. now apply text_eqb_eq in Hx.
    + apply IH. intros H. apply Hn. now right.
Qed.

End ByPhone.

(** X9: when the statement runs, [GetByPhone] returns a stored employee
    with exactly the phone asked for if some row holds it, and otherwise
    [NotFoundError] for the entity [employee by phone] with the phone as
    its data and no id. *)
Theorem GetByPhone_by_membership (phone : text) (db : DB) :
  exec_fault db = None ->
  has_nul phone = false ->
  (In phone (phones (table db)) ->
   exists e : Employee,
     reads.GetByPhone phone db = (Some e, None)
     /\ Phone e = phone
     /\ In e (map employeeRepository.Scan (table db)))
  /\ (~ In phone (phones (table db)) ->
      reads.GetByPhone phone db
      = (None,
         Some (NotFoundError (runes "employee by phone") 0 (Some phone)))).
Proof.
  intros Hf Hnul. unfold reads.GetByPhone, reads.query_by_phone.
  rewrite Hf, Hnul.
  destruct (find_has_phone phone (table db)) as [H1 H2]. split.
  - intros Hin. destruct (H1 Hin) as (r & Hfind & Hr & Hp).
    rewrite Hfind. exists (employeeRepository.Scan r).
    repeat split; [exact Hp|now apply in_map].
  - intros Hn. now rewrite (H2 Hn).
Qed.

Lemma GetByPhone_by_membership_witness :
  exec_fault db_ann = None
  /\ has_nul (runes "7771") = false
  /\ has_nul (runes "000") = false
  /\ (exists e : Employee,
         reads.GetByPhone (runes "7771") db_ann = (Some e, None)
         /\ Phone e = runes "7771"
         /\ In e (map employeeRepository.Scan (table db_ann)))
  /\ reads.GetByPhone (runes "000") db_ann
     = (None,
        Some (NotFoundError (runes "employee by phone") 0
                            (Some (runes "000")))).
Proof.
  split; [reflexivity|]. split; [reflexivity|]. split; [reflexivity|].
  split.
  - refine (proj1 (@GetByPhone_by_membership (runes "7771") db_ann
                     eq_refl eq_refl) _).
    left. reflexivity.
  - refine (proj2 (@GetByPhone_by_membership (runes "000") db_ann
                     eq_refl eq_refl) _).
    intros [H|[]]. discriminate H.
Defined.

(** X10: an employee whose fields fit their columns can be read back by
    phone right after a successful [Create]: [GetByPhone] returns the
    employee that [Create] returned, id included. *)
Theorem Create_then_GetByPhone (e e' : Employee) (db db' : DB) :
  employeeRepository.Create e db = (None, e', db') ->
  fits e ->
  reads.GetByPhone (Phone e) db' = (Some e', None).
Proof.
  intros Hc Hfit.
  destruct (Create_success _ _ Hc)
    as (Hf & _ & -> & n & p & c & Hco & Hin & ->).
  rewrite (coerce_columns_fits Hfit) in Hco. injection Hco as <- <- <-.
  unfold reads.GetByPhone, reads.query_by_phone. simpl exec_fault.
  rewrite Hf. assert (Hnul : has_nul (Phone e) = false) by apply Hfit.
  rewrite Hnul. simpl table.
  rewrite find_phone_last;
    [reflexivity|now apply phone_in_not_In|reflexivity].
Qed.

Lemma Create_then_GetByPhone_witness :
  employeeRepository.Create carl db_ann
  = (None, set_ID carl 2, snd (employeeRepository.Create carl db_ann))
  /\ fits carl
  /\ reads.GetByPhone (Phone carl)
       (snd (employeeRepository.Create carl db_ann))
     = (Some (set_ID carl 2), None).
Proof.
  assert (Hfit : fits carl)
    by (unfold fits; repeat split; try reflexivity;
        apply Nat.leb_le; reflexivity).
  exact (conj eq_refl (conj Hfit
           (@Create_then_GetByPhone carl (set_ID carl 2) db_ann
              (snd (employeeRepository.Create carl db_ann))
              eq_refl Hfit))).
Defined.

(* ================================================================= *)
(** * Listing *)

Section Listing.

Import employeeRepository.

Lemma order_by_increasing_ids (t : list Row) :
  StronglySorted Z.lt (ids t) -> order_by reads.id_leb t = t.
Proof.
  unfold ids. induction t as [|x t IH]; simpl; intros Hs; [reflexivity|].
  inversion Hs as [|? ? Ht Hx]; subst. rewrite (IH Ht).
  destruct t as [|y t]; [reflexivity|]. simpl.
  inversion Hx as [|? ? Hxy _]; subst.
  unfold reads.id_leb.
  replace (row_id x <=? row_id y) with true
    by (symmetry; apply Z.leb_le; lia).
  reflexivity.
Qed.

Lemma StronglySorted_snoc (l : list Z) (x : Z) :
  StronglySorted Z.lt l -> Forall (fun y => y < x) l ->
  StronglySorted Z.lt (l ++ [x]).
Proof.
  induction l as [|y l IH]; simpl; intros Hs Hall.
  - repeat constructor.
  - inversion Hs as [|? ? Hl Hy]; subst.
    inversion Hall as [|? ? Hyx Hlx]; subst.
    constructor; [now apply IH|].
    apply Forall_app. split; [exact Hy|]. now constructor.
Qed.

Lemma StronglySorted_ids_filter (h : Row -> bool) (t : list Row) :
  StronglySorted Z.lt (ids t) -> StronglySorted Z.lt (ids (filter h t)).
Proof.
  unfold ids. induction t as [|x t IH]; simpl; intros Hs; [constructor|].
  inversion Hs as [|? ? Ht Hx]; subst.
  destruct (h x); simpl; [|now apply IH].
  constructor; [now apply IH|].
  now apply Forall_map_filter.
Qed.

Lemma query_insert_table (name phone city : text) (db : DB) :
  table (snd (query_insert name phone city db)) = table db
  \/ exists r, row_id r = seq db
               /\ table (snd (query_insert name phone city db))
                  = table db ++ [r].
Proof.
  unfold query_insert.
  destruct (exec_fault db); [now left|].
  destruct (coerce_columns _ _ _) as [err|[[n p] c]]; [now left|].
  destruct (max_int4 <? seq db); [now left|].
  destruct (phone_in p (table db)); [now left|].
  right. eexists. split; [|reflexivity]. reflexivity.
Qed.

Lemma exec_update_ids (id : Z) (name phone city : text) (db : DB) :
  ids (table (snd (exec_update id name phone city db))) = ids (table db).
Proof.
  unfold exec_update.
  destruct (exec_fault db); [reflexivity|].
  destruct (negb (int4_ok id)); [reflexivity|].
  destruct (coerce_columns _ _ _) as [err|[[n p] c]]; [reflexivity|].
  destruct (is_nil _); [reflexivity|].
  destruct (phone_in p _ || _); [reflexivity|].
  simpl. apply rewritten_ids.
Qed.

Lemma step_ids_increasing (db db' : DB) :
  step db db' -> schema_invariant db ->
  ids_increasing db -> ids_increasing db'.
Proof.
  unfold ids_increasing. intros Hstep Hinv Hs. destruct Hstep.
  - rewrite Create_state.
    destruct (query_insert_table (Name e) (Phone e) (City e) db)
      as [->|(r & Hr & ->)]; [exact Hs|].
    unfold ids. rewrite map_app. simpl. rewrite Hr.
    apply StronglySorted_snoc; [exact Hs|]. apply Hinv.
  - destruct (GetByID_state id db) as [-> _]. exact Hs.
  - destruct (SearchEmployees_state q db) as [-> _]. exact Hs.
  - rewrite Update_state, exec_update_ids. exact Hs.
  - destruct (Delete_table id db) as [->|[_ ->]]; [exact Hs|].
    now apply StronglySorted_ids_filter.
  - exact Hs.
Qed.

Lemma reachable_ids_increasing (l : Locale) (db : DB) :
  reachable l db -> ids_increasing db.
Proof.
  induction 1 as [|db db' Hr IH Hstep].
  - constructor.
  - apply (step_ids_increasing Hstep); [|exact IH].
    now apply (@reachable_schema_invariant l).
Qed.

End Listing.

(** X11: in a state that the store reaches, with the connection in
    order, [GetAll] returns one employee for each row, in the order in
    which the rows were created, and the ids along the result grow
    strictly; on the empty table it returns the empty result and no
    error. *)
Theorem GetAll_in_creation_order (l : Locale) (db : DB) :
  reachable l db ->
  exec_fault db = None ->
  rows_fault db = None ->
  reads.GetAll db = (map employeeRepository.Scan (table db), None)
  /\ StronglySorted Z.lt (map ID (fst (reads.GetAll db)))
  /\ List.length (fst (reads.GetAll db)) = List.length (table db).
Proof.
  intros Hr Hf Hrows.
  pose proof (reachable_ids_increasing Hr) as Hs.
  assert (H : reads.GetAll db
              = (map employeeRepository.Scan (table db), None)).
  { unfold reads.GetAll, reads.query_all. rewrite Hf. simpl.
    rewrite Hrows, scan_all_map,
      (@order_by_increasing_ids (table db) Hs).
    reflexivity. }
  rewrite H. simpl. split; [reflexivity|]. split.
  - rewrite map_map. exact Hs.
  - apply length_map.
Qed.

Lemma GetAll_in_creation_order_witness :
  reachable C_locale db_ann_carl
  /\ reads.GetAll db_ann_carl
     = (map employeeRepository.Scan (table db_ann_carl), None)
  /\ StronglySorted Z.lt (map ID (fst (reads.GetAll db_ann_carl)))
  /\ List.length (fst (reads.GetAll db_ann_carl))
     = List.length (table db_ann_carl).
Proof.
  assert (H : reachable C_locale db_ann_carl)
    by exact (reachable_step
                (reachable_step (reachable_empty C_locale)
                                (step_Create ann (empty_DB C_locale)))
                (step_Create carl db_ann)).
  exact (conj H (@GetAll_in_creation_order C_locale db_ann_carl H
                   eq_refl eq_refl)).
Defined.

(** X12: when the statement runs, [GetEmployeesByCity] returns the
    employees of exactly the rows whose city is the city asked for once
    both are folded by [LOWER], all of them, and in the order of their
    names when the collation compares any two texts; two spellings of a
    city that fold to the same text get the same answer. *)
Theorem GetEmployeesByCity_members (city : text) (db : DB) :
  exec_fault db = None ->
  rows_fault db = None ->
  has_nul city = false ->
  (exists rows : list Row,
      reads.GetEmployeesByCity city db
      = (map employeeRepository.Scan rows, None)
      /\ (forall r, In r rows
                    <-> In r (table db)
                        /\ LOWER (lc db) (row_city r) = LOWER (lc db) city)
      /\ List.length rows
         = List.length (filter (reads.in_city (lc db) city) (table db))
      /\ ((forall a b, collate_leb (lc db) a b = true
                       \/ collate_leb (lc db) b a = true) ->
          Sorted (fun r1 r2 =>
                    collate_leb (lc db) (row_name r1) (row_name r2) = true)
                 rows))
  /\ (forall city' : text,
         has_nul city' = false ->
         LOWER (lc db) city' = LOWER (lc db) city ->
         reads.GetEmployeesByCity city' db
         = reads.GetEmployeesByCity city db).
Proof.
  intros Hf Hrows Hnul. split.
  - exists (order_by (reads.name_leb (lc db))
                     (filter (reads.in_city (lc db) city) (table db))).
    split; [|split; [|split]].
    + unfold reads.GetEmployeesByCity, reads.query_by_city.
      rewrite Hf, Hnul. simpl. now rewrite Hrows, scan_all_map.
    + intros r. rewrite order_by_In, filter_In.
      unfold reads.in_city. now rewrite text_eqb_eq.
    + apply order_by_length.
    + intros Htotal.
      apply (@order_by_sorted Row (reads.name_leb (lc db))).
      intros a b. apply Htotal.
  - intros city' Hnul' Heq.
    unfold reads.GetEmployeesByCity, reads.query_by_city.
    rewrite Hf, Hnul, Hnul'. unfold reads.in_city. now rewrite Heq.
Qed.

Lemma GetEmployeesByCity_members_witness :
  exec_fault db_ann_carl = None
  /\ rows_fault db_ann_carl = None
  /\ has_nul (runes "ASTANA") = false
  /\ has_nul (runes "astana") = false
  /\ LOWER (lc db_ann_carl) (runes "ASTANA")
     = LOWER (lc db_ann_carl) (runes "astana")
  /\ reads.GetEmployeesByCity (runes "ASTANA") db_ann_carl
     = reads.GetEmployeesByCity (runes "astana") db_ann_carl.
Proof.
  split; [reflexivity|]. split; [reflexivity|]. split; [reflexivity|].
  split; [reflexivity|]. split; [reflexivity|].
  exact (proj2 (@GetEmployeesByCity_members (runes "astana") db_ann_carl
                  eq_refl eq_refl eq_refl)
               (runes "ASTANA") eq_refl eq_refl).
Defined.

(* ================================================================= *)
(** * Statistics *)

Section Stats.

Lemma largest_some (size : text -> nat) (groups : list text) (b : text) :
  reads.largest size groups = Some b ->
  In b groups /\ forall c, In c groups -> (size c <= size b)%nat.
Proof.
  revert b. induction groups as [|c groups IH]; simpl; intros b;
    [discriminate|].
  destruct (reads.largest size groups) as [b'|] eqn:Hl.
  - destruct (IH b' eq_refl) as [Hin Hmax].
    destruct (size b' <=? size c)%nat eqn:Hle; intros [= <-].
    + apply Nat.leb_le in Hle. split; [now left|].
      intros x [<-|Hx]; [lia|]. specialize (Hmax x Hx). lia.
    + apply Nat.leb_gt in Hle. split; [now right|].
      intros x [<-|Hx]; [lia|]. now apply Hmax.
  - intros [= <-]. split; [now left|].
    destruct groups; [|simpl in Hl; destruct (reads.largest size groups);
                       [destruct (_ <=? _)%nat|]; discriminate].
    intros x [<-|[]]. lia.
Qed.

Lemma largest_none (size : text -> nat) (groups : list text) :
  reads.largest size groups = None -> groups = [].
Proof.
  destruct groups as [|c groups]; [reflexivity|]. simpl.
  destruct (reads.largest size groups);
    [destruct (_ <=? _)%nat|]; discriminate.
Qed.

Lemma nodup_length (l : list text) :
  (List.length (nodup (list_eq_dec Z.eq_dec) l) <= List.length l)%nat.
Proof.
  induction l as [|x l IH]; simpl; [lia|].
  destruct (in_dec (list_eq_dec Z.eq_dec) x l); simpl; lia.
Qed.

End Stats.

(** X13: when the statement runs, [GetEmployeeStats] fails on the empty
    table, where the most common city is NULL and cannot be scanned into
    a string; on any other table it returns the number of rows, the
    number of distinct cities, which is at least 1 and at most the number
    of rows, and as most common city a city of some row that no city
    outnumbers. *)
Theorem GetEmployeeStats_answer (db : DB) :
  exec_fault db = None ->
  (table db = [] ->
   reads.GetEmployeeStats db
   = (None,
      Some (Errorf (runes "получение статистики сотрудников")
                   reads.err_scan_null)))
  /\ (table db <> [] ->
      exists st : reads.EmployeeStats,
        reads.GetEmployeeStats db = (Some st, None)
        /\ reads.TotalCount st = Z.of_nat (List.length (table db))
        /\ (exists cs : list text,
               NoDup cs
               /\ (forall c, In c cs <-> In c (map row_city (table db)))
               /\ reads.CitiesCount st = Z.of_nat (List.length cs))
        /\ 1 <= reads.CitiesCount st <= reads.TotalCount st
        /\ In (reads.MostCommonCity st) (map row_city (table db))
        /\ (forall c,
               (reads.city_count (table db) c
                <= reads.city_count (table db) (reads.MostCommonCity st))%nat)).
Proof.
  intros Hf. unfold reads.GetEmployeeStats, reads.query_stats. rewrite Hf.
  split.
  - intros ->. reflexivity.
  - intros Hne.
    destruct (reads.largest (reads.city_count (table db))
                            (reads.cities (table db))) as [b|] eqn:Hl.
    + destruct (largest_some _ _ Hl) as [Hin Hmax].
      eexists. split; [reflexivity|]. simpl.
      pose proof (nodup_length (map row_city (table db))) as Hlen.
      rewrite length_map in Hlen. fold (reads.cities (table db)) in Hlen.
      split; [reflexivity|]. split; [|split; [|split]].
      * exists (reads.cities (table db)). split; [apply NoDup_nodup|].
        split; [|reflexivity]. intros c. apply nodup_In.
      * destruct (reads.cities (table db)) as [|c0 cs]; [contradiction|].
        assert (Hpos : (1 <= List.length (c0 :: cs))%nat) by (simpl; lia).
        unfold text, rune in *. lia.
      * now apply nodup_In in Hin.
      * intros c. unfold reads.city_count.
        destruct (in_dec (list_eq_dec Z.eq_dec) c
                         (map row_city (table db))) as [Hc|Hc].
        -- apply Hmax. now apply nodup_In.
        -- apply (count_occ_not_In (list_eq_dec Z.eq_dec)) in Hc.
           rewrite Hc. lia.
    + apply largest_none in Hl. exfalso.
      destruct (table db) as [|r t]; [congruence|].
      assert (H : In (row_city r) (reads.cities (r :: t)))
        by (apply nodup_In; now left).
      now rewrite Hl in H.
Qed.

Lemma GetEmployeeStats_answer_witness :
  exec_fault (empty_DB C_locale) = None
  /\ table (empty_DB C_locale) = []
  /\ reads.GetEmployeeStats (empty_DB C_locale)
     = (None,
        Some (Errorf (runes "получение статистики сотрудников")
                     reads.err_scan_null))
  /\ exists st : reads.EmployeeStats,
      reads.GetEmployeeStats db_ann_carl = (Some st, None)
      /\ reads.TotalCount st = Z.of_nat (List.length (table db_ann_carl))
      /\ (exists cs : list text,
             NoDup cs
             /\ (forall c, In c cs
                           <-> In c (map row_city (table db_ann_carl)))
             /\ reads.CitiesCount st = Z.of_nat (List.length cs))
      /\ 1 <= reads.CitiesCount st <= reads.TotalCount st
      /\ In (reads.MostCommonCity st) (map row_city (table db_ann_carl))
      /\ (forall c,
             (reads.city_count (table db_ann_carl) c
              <= reads.city_count (table db_ann_carl)
                                  (reads.MostCommonCity st))%nat).
Proof.
  split; [reflexivity|]. split; [reflexivity|]. split.
  - exact (proj1 (@GetEmployeeStats_answer (empty_DB C_locale) eq_refl)
                 eq_refl).
  - refine (proj2 (@GetEmployeeStats_answer db_ann_carl eq_refl) _).
    discriminate.
Defined.

(* ================================================================= *)
(** * More on searching *)

Section TrimFacts.

Lemma TrimRight_cons (c : rune) (s : text) :
  TrimRight (c :: s)
  = match TrimRight s with
    | [] => if IsSpace c then [] else [c]
    | d :: t => c :: d :: t
    end.
Proof. reflexivity. Qed.

Lemma TrimRight_idempotent (s : text) : TrimRight (TrimRight s) = TrimRight s.
Proof.
  induction s as [|c s IH]; [reflexivity|].
  rewrite TrimRight_cons. destruct (TrimRight s) as [|d t] eqn:Ht.
  - destruct (IsSpace c) eqn:Hc; [reflexivity|].
    rewrite TrimRight_cons. simpl. now rewrite Hc.
  - rewrite TrimRight_cons, IH. reflexivity.
Qed.

Lemma TrimLeft_head (s : text) :
  TrimLeft s = []
  \/ exists c t, TrimLeft s = c :: t /\ IsSpace c = false.
Proof.
  induction s as [|c s IH]; [now left|].
  cbn [TrimLeft]. destruct (IsSpace c) eqn:Hc; [exact IH|].
  right. now exists c, s.
Qed.

Lemma TrimRight_head (c : rune) (t : text) :
  IsSpace c = false -> exists t', TrimRight (c :: t) = c :: t'.
Proof.
  intros Hc. rewrite TrimRight_cons. destruct (TrimRight t) as [|d t'].
  - rewrite Hc. now exists [].
  - now exists (d :: t').
Qed.

Lemma TrimSpace_idempotent (s : text) : TrimSpace (TrimSpace s) = TrimSpace s.
Proof.
  unfold TrimSpace. destruct (TrimLeft_head s) as [->|(c & t & -> & Hc)].
  - reflexivity.
  - destruct (@TrimRight_head c t Hc) as (t' & Ht). rewrite Ht.
    cbn [TrimLeft]. rewrite Hc. rewrite <- Ht. apply TrimRight_idempotent.
Qed.

Lemma codepoint_leb_total (a b : text) :
  codepoint_leb a b = true \/ codepoint_leb b a = true.
Proof.
  revert b. induction a as [|x a IH]; intros b; [now left|].
  destruct b as [|y b]; [now right|]. simpl.
  destruct (Z.lt_trichotomy x y) as [H|[H|H]].
  - left. apply Z.ltb_lt in H. now rewrite H.
  - subst y. rewrite Z.ltb_irrefl, Z.eqb_refl. simpl. apply IH.
  - right. apply Z.ltb_lt in H. now rewrite H.
Qed.

Lemma has_nul_pattern (q : text) :
  has_nul (runes "%" ++ q ++ runes "%") = has_nul q
  /\ has_nul (q ++ runes "%") = has_nul q.
Proof.
  unfold has_nul. change (runes "%") with [percent].
  rewrite !existsb_app. simpl. rewrite !orb_false_r. now split.
Qed.

Lemma LOWER_pattern (l : Locale) (q : text) :
  LOWER l (runes "%" ++ q ++ runes "%")
  = [lower l percent] ++ LOWER l q ++ [lower l percent]
  /\ LOWER l (q ++ runes "%") = LOWER l q ++ [lower l percent].
Proof.
  unfold LOWER. change (runes "%") with [percent].
  rewrite !map_app. now split.
Qed.

End TrimFacts.

(** X14: the search of the repository looks at the query only through
    its trimmed and folded form: two queries whose trimmed forms fold to
    the same text under [LOWER], both without a NUL, return the same
    employees and the same error, and a query returns what its trimmed
    form returns. *)
Theorem SearchEmployees_folds_query (q1 q2 : text) (db : DB) :
  LOWER (lc db) (TrimSpace q1) = LOWER (lc db) (TrimSpace q2) ->
  has_nul (TrimSpace q1) = has_nul (TrimSpace q2) ->
  fst (employeeRepository.SearchEmployees q1 db)
  = fst (employeeRepository.SearchEmployees q2 db)
  /\ employeeRepository.SearchEmployees (TrimSpace q1) db
     = employeeRepository.SearchEmployees q1 db.
Proof.
  intros Hl Hn. split.
  - destruct (list_eq_dec Z.eq_dec (TrimSpace q1) []) as [H1|H1].
    + assert (H2 : TrimSpace q2 = []).
      { rewrite H1 in Hl. simpl in Hl. symmetry in Hl.
        now apply map_eq_nil in Hl. }
      now rewrite (SearchEmployees_short_circuit q1 db H1),
        (SearchEmployees_short_circuit q2 db H2).
    + assert (H2 : TrimSpace q2 <> []).
      { intros H2. rewrite H2 in Hl. simpl in Hl.
        now apply map_eq_nil in Hl. }
      rewrite (SearchEmployees_unfold q1 db H1),
        (SearchEmployees_unfold q2 db H2).
      unfold query_search.
      destruct (has_nul_pattern (TrimSpace q1)) as [-> ->].
      destruct (has_nul_pattern (TrimSpace q2)) as [-> ->].
      destruct (LOWER_pattern (lc db) (TrimSpace q1)) as [-> ->].
      destruct (LOWER_pattern (lc db) (TrimSpace q2)) as [-> ->].
      rewrite Hl, Hn.
      destruct (exec_fault db); [reflexivity|].
      destruct (has_nul (TrimSpace q2) || has_nul (TrimSpace q2));
        [reflexivity|].
      destruct (parse_like _) as [m|]; [|reflexivity].
      destruct (parse_like _) as [x|]; [|reflexivity].
      simpl. now destruct (rows_fault db).
  - unfold employeeRepository.SearchEmployees.
    now rewrite TrimSpace_idempotent.
Qed.

Lemma SearchEmployees_folds_query_witness :
  LOWER (lc db_john) (TrimSpace (runes "  JOHN "))
  = LOWER (lc db_john) (TrimSpace (runes "john"))
  /\ has_nul (TrimSpace (runes "  JOHN "))
     = has_nul (TrimSpace (runes "john"))
  /\ fst (employeeRepository.SearchEmployees (runes "  JOHN ") db_john)
     = fst (employeeRepository.SearchEmployees (runes "john") db_john).
Proof.
  split; [reflexivity|]. split; [reflexivity|].
  exact (proj1 (@SearchEmployees_folds_query (runes "  JOHN ")
                  (runes "john") db_john eq_refl eq_refl)).
Defined.

(** X24: the search of the repository on a query without wildcards.
    When the trimmed query is not empty, has no NUL and, folded to lower
    case, has none of the characters that LIKE reads as wildcards or as
    the escape, the connection is in order and the collation is total,
    the search returns the employees of the rows in which the folded
    query is a substring of the folded name, phone or city (all of them
    when they are at most 100), in the order of the ranks 1 for a name
    that starts with the query, 2 for a phone, 3 for a city, 4 otherwise,
    and by name within a rank. *)
Theorem SearchEmployees_without_wildcards (q : text) (db : DB) :
  TrimSpace q <> [] ->
  exec_fault db = None ->
  rows_fault db = None ->
  has_nul (TrimSpace q) = false ->
  lower (lc db) percent = percent ->
  forallb plain (LOWER (lc db) (TrimSpace q)) = true ->
  (forall a b,
      collate_leb (lc db) a b = true \/ collate_leb (lc db) b a = true) ->
  exists (m x : list tok) (rows : list Row),
    fst (employeeRepository.SearchEmployees q db)
    = (map employeeRepository.Scan rows, None)
    /\ search_ordered (lc db) x rows
    /\ (forall col,
           col_like (lc db) x col
           = HasPrefix (LOWER (lc db) col) (LOWER (lc db) (TrimSpace q)))
    /\ (forall col,
           col_like (lc db) m col
           = Contains (LOWER (lc db) col) (LOWER (lc db) (TrimSpace q)))
    /\ (forall r, In r rows ->
                  In r (table db) /\ where_search (lc db) m r = true)
    /\ ((List.length (filter (where_search (lc db) m) (table db))
         <= 100)%nat ->
        forall r, In r (table db) -> where_search (lc db) m r = true ->
                  In r rows).
Proof. exact (@SearchEmployees_plain q db). Qed.

Lemma SearchEmployees_without_wildcards_witness :
  TrimSpace (runes "john") <> []
  /\ forallb plain (LOWER (lc db_john) (TrimSpace (runes "john"))) = true
  /\ exists (m x : list tok) (rows : list Row),
    fst (employeeRepository.SearchEmployees (runes "john") db_john)
    = (map employeeRepository.Scan rows, None)
    /\ search_ordered (lc db_john) x rows
    /\ (forall col,
           col_like (lc db_john) x col
           = HasPrefix (LOWER (lc db_john) col)
                       (LOWER (lc db_john) (TrimSpace (runes "john"))))
    /\ (forall col,
           col_like (lc db_john) m col
           = Contains (LOWER (lc db_john) col)
                      (LOWER (lc db_john) (TrimSpace (runes "john"))))
    /\ (forall r, In r rows ->
                  In r (table db_john)
                  /\ where_search (lc db_john) m r = true)
    /\ ((List.length (filter (where_search (lc db_john) m) (table db_john))
         <= 100)%nat ->
        forall r, In r (table db_john) ->
                  where_search (lc db_john) m r = true ->
                  In r rows).
Proof.
  assert (Hq : TrimSpace (runes "john") <> []) by discriminate.
  split; [exact Hq|]. split; [reflexivity|].
  exact (@SearchEmployees_without_wildcards (runes "john") db_john Hq
           eq_refl eq_refl eq_refl eq_refl eq_refl codepoint_leb_total).
Defined.


(* ================================================================= *)
(** * Writes that fail *)



(* ================================================================= *)
(** * The service as the only way in *)

(** X17: [UpdateEmployee] of the service checks the employee as
    [CreateEmployee] does: with an empty name, phone or city it returns
    the [ValidationError] of the first empty field in the order name,
    phone, city and does not call the repository; otherwise it returns
    what [Update] of the repository returns. *)
Theorem UpdateEmployee_validation
        (S : Type) (repo : EmployeeRepository.t S) (e : Employee) (s : S) :
  (Name e = [] ->
   employeeService.UpdateEmployee repo e s
   = (Some (ValidationError (runes "name") (runes "имя обязательно")), s))
  /\ (Name e <> [] -> Phone e = [] ->
      employeeService.UpdateEmployee repo e s
      = (Some (ValidationError (runes "phone") (runes "телефон обязателен")),
         s))
  /\ (Name e <> [] -> Phone e <> [] -> City e = [] ->
      employeeService.UpdateEmployee repo e s
      = (Some (ValidationError (runes "city") (runes "город обязателен")),
         s))
  /\ (Name e = [] \/ Phone e = [] \/ City e = [] ->
      forall calls : list Call,
        snd (employeeService.UpdateEmployee (spy repo) e (s, calls))
        = (s, calls))
  /\ (Name e <> [] -> Phone e <> [] -> City e <> [] ->
      employeeService.UpdateEmployee repo e s
      = EmployeeRepository.Update repo e s).
Proof.
  unfold employeeService.UpdateEmployee.
  rewrite validateEmployee_cases.
  split; [|split; [|split; [|split]]].
  - intros Hn. apply is_empty_true in Hn. now rewrite Hn.
  - intros Hn Hp. apply is_empty_false in Hn. apply is_empty_true in Hp.
    now rewrite Hn, Hp.
  - intros Hn Hp Hc. apply is_empty_false in Hn, Hp.
    apply is_empty_true in Hc. now rewrite Hn, Hp, Hc.
  - intros H calls.
    destruct (is_empty (Name e)) eqn:Hn; [reflexivity|].
    destruct (is_empty (Phone e)) eqn:Hp; [reflexivity|].
    destruct (is_empty (City e)) eqn:Hc; [reflexivity|].
    apply is_empty_false in Hn, Hp, Hc.
    destruct H as [H|[H|H]]; contradiction.
  - intros Hn Hp Hc. apply is_empty_false in Hn, Hp, Hc.
    now rewrite Hn, Hp, Hc.
Qed.

Lemma UpdateEmployee_validation_witness :
  employeeService.UpdateEmployee NewEmployeeRepository
    (employee 1 "Ann" "" "Almaty") db_ann
  = (Some (ValidationError (runes "phone") (runes "телефон обязателен")),
     db_ann)
  /\ snd (employeeService.UpdateEmployee (spy NewEmployeeRepository)
            (employee 1 "" "7771" "Almaty") (db_ann, []))
     = (db_ann, [])
  /\ employeeService.UpdateEmployee NewEmployeeRepository ann_moved db_ann
     = employeeRepository.Update ann_moved db_ann.
Proof.
  split; [|split].
  - refine (proj1 (proj2 (UpdateEmployee_validation NewEmployeeRepository
             (employee 1 "Ann" "" "Almaty") db_ann)) _ eq_refl).
    discriminate.
  - refine (proj1 (proj2 (proj2 (proj2 (UpdateEmployee_validation
             NewEmployeeRepository
             (employee 1 "" "7771" "Almaty") db_ann)))) _ []).
    left; reflexivity.
  - refine (proj2 (proj2 (proj2 (proj2 (UpdateEmployee_validation
             NewEmployeeRepository ann_moved db_ann)))) _ _ _);
      discriminate.
Defined.

Section Filled.

Lemma varchar_keeps_filled (n : nat) (s s' : text) :
  (0 < n)%nat -> s <> [] -> varchar n s = Some s' -> s' <> [].
Proof.
  intros Hn Hs. unfold varchar.
  destruct (List.length s <=? n)%nat; [now intros [= <-]|].
  destruct (forallb _ _); [|discriminate].
  intros [= <-]. destruct n; [lia|]. destruct s; [congruence|discriminate].
Qed.

Lemma coerce_columns_filled (name phone city n p c : text) :
  name <> [] -> phone <> [] -> city <> [] ->
  coerce_columns name phone city = inr (n, p, c) ->
  n <> [] /\ p <> [] /\ c <> [].
Proof.
  intros Hn Hp Hc. unfold coerce_columns.
  destruct (has_nul name || has_nul phone || has_nul city); [discriminate|].
  destruct (varchar 255 name) as [n'|] eqn:En; [|discriminate].
  destruct (varchar 50 phone) as [p'|] eqn:Ep; [|discriminate].
  destruct (varchar 100 city) as [c'|] eqn:Ec; [|discriminate].
  intros [= <- <- <-]. repeat split.
  - apply (@varchar_keeps_filled 255%nat name); [lia|exact Hn|exact En].
  - apply (@varchar_keeps_filled 50%nat phone); [lia|exact Hp|exact Ep].
  - apply (@varchar_keeps_filled 100%nat city); [lia|exact Hc|exact Ec].
Qed.

Lemma validateEmployee_passes (e : Employee) :
  employeeService.validateEmployee e = None ->
  Name e <> [] /\ Phone e <> [] /\ City e <> [].
Proof.
  rewrite validateEmployee_cases.
  destruct (is_empty (Name e)) eqn:Hn; [discriminate|].
  destruct (is_empty (Phone e)) eqn:Hp; [discriminate|].
  destruct (is_empty (City e)) eqn:Hc; [discriminate|].
  intros _. now apply is_empty_false in Hn, Hp, Hc.
Qed.

Lemma query_insert_filled (name phone city : text) (db : DB) :
  name <> [] -> phone <> [] -> city <> [] ->
  Forall row_filled (table db) ->
  Forall row_filled (table (snd (query_insert name phone city db))).
Proof.
  intros Hn Hp Hc Hall. unfold query_insert.
  destruct (exec_fault db); [exact Hall|].
  destruct (coerce_columns _ _ _) as [err|[[n p] c]] eqn:Hco; [exact Hall|].
  destruct (max_int4 <? seq db); [exact Hall|].
  destruct (phone_in p (table db)); [exact Hall|].
  simpl. apply Forall_app. split; [exact Hall|].
  constructor; [|constructor].
  exact (coerce_columns_filled Hn Hp Hc Hco).
Qed.

Lemma exec_update_filled (id : Z) (name phone city : text) (db : DB) :
  name <> [] -> phone <> [] -> city <> [] ->
  Forall row_filled (table db) ->
  Forall row_filled (table (snd (exec_update id name phone city db))).
Proof.
  intros Hn Hp Hc Hall. unfold exec_update.
  destruct (exec_fault db); [exact Hall|].
  destruct (negb (int4_ok id)); [exact Hall|].
  destruct (coerce_columns _ _ _) as [err|[[n p] c]] eqn:Hco; [exact Hall|].
  destruct (is_nil _); [exact Hall|].
  destruct (phone_in p _ || _); [exact Hall|].
  simpl. rewrite Forall_forall in *. intros r Hr.
  apply in_map_iff in Hr. destruct Hr as (r0 & <- & Hr0).
  destruct (has_id id r0); [|now apply Hall].
  exact (coerce_columns_filled Hn Hp Hc Hco).
Qed.

Lemma service_step_step (db db' : DB) : service_step db db' -> step db db'.
Proof.
  intros H. destruct H.
  - unfold employeeService.CreateEmployee.
    destruct (employeeService.validateEmployee e).
    + replace db with (with_faults db (exec_fault db) (rows_fault db)
                                   (affected_fault db)) at 2
        by (now destruct db).
      apply step_connection.
    + apply step_Create.
  - unfold employeeService.UpdateEmployee.
    destruct (employeeService.validateEmployee e).
    + replace db with (with_faults db (exec_fault db) (rows_fault db)
                                   (affected_fault db)) at 2
        by (now destruct db).
      apply step_connection.
    + apply step_Update.
  - apply step_Delete.
  - apply step_connection.
Qed.

Lemma service_step_filled (db db' : DB) :
  service_step db db' ->
  Forall row_filled (table db) -> Forall row_filled (table db').
Proof.
  intros H Hall. destruct H.
  - unfold employeeService.CreateEmployee.
    destruct (employeeService.validateEmployee e) eqn:Hv; [exact Hall|].
    destruct (validateEmployee_passes _ Hv) as (Hn & Hp & Hc).
    simpl EmployeeRepository.Create. rewrite Create_state.
    now apply query_insert_filled.
  - unfold employeeService.UpdateEmployee.
    destruct (employeeService.validateEmployee e) eqn:Hv; [exact Hall|].
    destruct (validateEmployee_passes _ Hv) as (Hn & Hp & Hc).
    simpl EmployeeRepository.Update. rewrite Update_state.
    now apply exec_update_filled.
  - unfold employeeService.DeleteEmployee.
    simpl EmployeeRepository.Delete.
    rewrite Forall_forall in *. intros r Hr. apply Hall.
    destruct (Delete_table id db) as [H|[_ H]]; rewrite H in Hr;
      [exact Hr|].
    apply filter_In in Hr. tauto.
  - exact Hall.
Qed.

End Filled.

(** X18: when the store is written through the service only, starting
    from the empty table, no stored employee ever has an empty name,
    phone or city; and every such state is one that the operations of
    the repository reach, so that its phones and ids are distinct as
    well. *)
Theorem service_keeps_rows_filled (l : Locale) (db : DB) :
  service_reachable l db ->
  Forall row_filled (table db) /\ reachable l db /\ store_invariant db.
Proof.
  intros H.
  assert (Hboth : Forall row_filled (table db) /\ reachable l db).
  { induction H as [|db db' _ [IH1 IH2] Hstep].
    - split; [constructor|constructor].
    - split.
      + now apply (service_step_filled Hstep).
      + apply (reachable_step IH2). now apply service_step_step. }
  destruct Hboth as [H1 H2]. split; [exact H1|]. split; [exact H2|].
  now apply (reachable_schema_invariant H2).
Qed.

Lemma service_keeps_rows_filled_witness :
  service_reachable C_locale db_ann
  /\ Forall row_filled (table db_ann)
  /\ reachable C_locale db_ann
  /\ store_invariant db_ann.
Proof.
  assert (H : service_reachable C_locale db_ann)
    by exact (service_reachable_step
                (service_reachable_empty C_locale)
                (service_Create ann (empty_DB C_locale))).
  exact (conj H (@service_keeps_rows_filled C_locale db_ann H)).
Defined.

(* ================================================================= *)
(** * The handlers over the store *)

Section Answers.

Variable S : Type.
Variable svc : EmployeeService.t S.
Variable lower : rune -> rune.

Lemma GetEmployee_answers (id : option Z) (s : S) :
  let r := fst (EmployeeHandler.GetEmployee svc lower id s) in
  fixed_answer r
  \/ (exists (id' : Z) (e : Employee),
         id = Some id'
         /\ fst (EmployeeService.GetEmployee svc id' s) = (Some e, None)
         /\ r = Reply StatusOK (EmployeeResponse e))
  \/ (exists id' : Z,
         id = Some id'
         /\ fst (EmployeeService.GetEmployee svc id' s) = (None, None)
         /\ r = Panic).
Proof.
  unfold EmployeeHandler.GetEmployee, fixed_answer.
  destruct id as [id'|]; [|left; left; reflexivity].
  destruct (EmployeeService.GetEmployee svc id' s) as [[emp [err|]] s'] eqn:Hsvc.
  - left. destruct emp;
      (destruct (EmployeeHandler.isNotFoundError lower err);
       [right; right; left|right; right; right]; reflexivity).
  - destruct emp as [e|].
    + right. left. exists id', e. rewrite Hsvc. repeat split.
    + right. right. exists id'. rewrite Hsvc. repeat split.
Qed.

Lemma DeleteEmployee_answers (id : option Z) (s : S) :
  let r := fst (EmployeeHandler.DeleteEmployee svc lower id s) in
  fixed_answer r
  \/ (exists id' : Z,
         id = Some id'
         /\ fst (EmployeeService.DeleteEmployee svc id' s) = None
         /\ r = Reply StatusNoContent NoBody).
Proof.
  unfold EmployeeHandler.DeleteEmployee, fixed_answer.
  destruct id as [id'|]; [|left; left; reflexivity].
  destruct (EmployeeService.DeleteEmployee svc id' s) as [[err|] s'] eqn:Hsvc.
  - left. destruct (EmployeeHandler.isNotFoundError lower err);
      [right; right; left|right; right; right]; reflexivity.
  - right. exists id'. rewrite Hsvc. repeat split.
Qed.

Lemma CreateEmployee_answers (req : option CreateEmployeeRequest) (s : S) :
  let r := fst (EmployeeHandler.CreateEmployee svc req s) in
  fixed_answer r
  \/ (exists (req' : CreateEmployeeRequest) (field message : text),
         req = Some req'
         /\ fst (fst (EmployeeService.CreateEmployee svc (created req') s))
            = Some (ValidationError field message)
         /\ r = Reply StatusBadRequest
                  (ErrorResponse (Error (ValidationError field message))))
  \/ (exists (req' : CreateEmployeeRequest) (e : Employee),
         req = Some req'
         /\ fst (EmployeeService.CreateEmployee svc (created req') s)
            = (None, e)
         /\ r = Reply StatusCreated (EmployeeResponse e)).
Proof.
  unfold EmployeeHandler.CreateEmployee, fixed_answer.
  destruct req as [req'|]; [|left; right; left; reflexivity].
  fold (created req').
  destruct (EmployeeService.CreateEmployee svc (created req') s)
    as [[[err|] e] s'] eqn:Hsvc.
  - destruct err;
      match goal with
      | |- context [ValidationError ?f ?m] =>
        right; left; exists req', f, m; rewrite Hsvc; repeat split
      | |- _ => left; right; right; right; reflexivity
      end.
  - right. right. exists req', e. rewrite Hsvc. repeat split.
Qed.

Lemma UpdateEmployee_answers (id : option Z)
      (req : option UpdateEmployeeRequest) (s : S) :
  let r := fst (EmployeeHandler.UpdateEmployee svc lower id req s) in
  fixed_answer r
  \/ (exists (id' : Z) (req' : UpdateEmployeeRequest)
             (field message : text),
         id = Some id' /\ req = Some req'
         /\ fst (EmployeeService.UpdateEmployee svc (updated id' req') s)
            = Some (ValidationError field message)
         /\ r = Reply StatusBadRequest
                  (ErrorResponse (Error (ValidationError field message))))
  \/ (exists (id' : Z) (req' : UpdateEmployeeRequest),
         id = Some id' /\ req = Some req'
         /\ fst (EmployeeService.UpdateEmployee svc (updated id' req') s)
            = None
         /\ r = Reply StatusOK (EmployeeResponse (updated id' req'))).
Proof.
  unfold EmployeeHandler.UpdateEmployee, fixed_answer.
  destruct id as [id'|]; [|left; left; reflexivity].
  destruct req as [req'|]; [|left; right; left; reflexivity].
  fold (updated id' req').
  destruct (EmployeeService.UpdateEmployee svc (updated id' req') s)
    as [[err|] s'] eqn:Hsvc.
  - destruct err;
      match goal with
      | |- context [EmployeeHandler.isNotFoundError lower ?e] =>
        left; destruct (EmployeeHandler.isNotFoundError lower e);
        [right; right; left|right; right; right]; reflexivity
      | |- context [ValidationError ?f ?m] =>
        right; left; exists id', req', f, m; rewrite Hsvc; repeat split
      end.
  - right. right. exists id', req'. rewrite Hsvc. repeat split.
Qed.

End Answers.

(** X19: what the handlers of create, get, update and delete write.  For
    every service, every case table and every request, the answer is one
    of four fixed ones (400 with "некорректный ID" or "некорректный
    JSON", 404 with "сотрудник не найден", 500 with "внутренняя ошибка
    сервера"), or 400 with the message of a [ValidationError] that the
    service returned (create and update only), or the answer of success
    (201, 200 or 204) when the service returned no error; the get handler
    fails when the service returns neither an employee nor an error.  So
    the text of an error that is no [ValidationError] is never written to
    the client. *)
Theorem handlers_answers
        (S : Type) (svc : EmployeeService.t S) (lower : rune -> rune)
        (s : S) :
  (forall req : option CreateEmployeeRequest,
      let r := fst (EmployeeHandler.CreateEmployee svc req s) in
      fixed_answer r
      \/ (exists (req' : CreateEmployeeRequest) (field message : text),
             req = Some req'
             /\ fst (fst (EmployeeService.CreateEmployee svc
                            (created req') s))
                = Some (ValidationError field message)
             /\ r = Reply StatusBadRequest
                      (ErrorResponse
                         (Error (ValidationError field message))))
      \/ (exists (req' : CreateEmployeeRequest) (e : Employee),
             req = Some req'
             /\ fst (EmployeeService.CreateEmployee svc (created req') s)
                = (None, e)
             /\ r = Reply StatusCreated (EmployeeResponse e)))
  /\ (forall id : option Z,
         let r := fst (EmployeeHandler.GetEmployee svc lower id s) in
         fixed_answer r
         \/ (exists (id' : Z) (e : Employee),
                id = Some id'
                /\ fst (EmployeeService.GetEmployee svc id' s)
                   = (Some e, None)
                /\ r = Reply StatusOK (EmployeeResponse e))
         \/ (exists id' : Z,
                id = Some id'
                /\ fst (EmployeeService.GetEmployee svc id' s)
                   = (None, None)
                /\ r = Panic))
  /\ (forall (id : option Z) (req : option UpdateEmployeeRequest),
         let r := fst (EmployeeHandler.UpdateEmployee svc lower id req s) in
         fixed_answer r
         \/ (exists (id' : Z) (req' : UpdateEmployeeRequest)
                    (field message : text),
                id = Some id' /\ req = Some req'
                /\ fst (EmployeeService.UpdateEmployee svc
                          (updated id' req') s)
                   = Some (ValidationError field message)
                /\ r = Reply StatusBadRequest
                         (ErrorResponse
                            (Error (ValidationError field message))))
         \/ (exists (id' : Z) (req' : UpdateEmployeeRequest),
                id = Some id' /\ req = Some req'
                /\ fst (EmployeeService.UpdateEmployee svc
                          (updated id' req') s)
                   = None
                /\ r = Reply StatusOK
                         (EmployeeResponse (updated id' req'))))
  /\ (forall id : option Z,
         let r := fst (EmployeeHandler.DeleteEmployee svc lower id s) in
         fixed_answer r
         \/ (exists id' : Z,
                id = Some id'
                /\ fst (EmployeeService.DeleteEmployee svc id' s) = None
                /\ r = Reply StatusNoContent NoBody)).
Proof.
  split; [|split; [|split]].
  - intros req. apply CreateEmployee_answers.
  - intros id. apply GetEmployee_answers.
  - intros id req. apply UpdateEmployee_answers.
  - intros id. apply DeleteEmployee_answers.
Qed.

(* ================================================================= *)
(** * Requests from end to end *)

Section EndToEnd.

Variable lower : rune -> rune.

Lemma validateEmployee_filled (e : Employee) :
  Name e <> [] -> Phone e <> [] -> City e <> [] ->
  employeeService.validateEmployee e = None.
Proof.
  intros Hn Hp Hc. rewrite validateEmployee_cases.
  apply is_empty_false in Hn, Hp, Hc. now rewrite Hn, Hp, Hc.
Qed.

Lemma handler_Create_filled (req : CreateEmployeeRequest) (db : DB) :
  create_Name req <> [] -> create_Phone req <> [] ->
  create_City req <> [] ->
  EmployeeHandler.CreateEmployee the_service (Some req) db
  = match employeeRepository.Create (created req) db with
    | (Some err, _, db') =>
      match err with
      | ValidationError _ _ =>
        (Reply StatusBadRequest (ErrorResponse (Error err)), db')
      | _ =>
        (EmployeeHandler.writeErrorResponse StatusInternalServerError
           "внутренняя ошибка сервера", db')
      end
    | (None, employee, db') =>
      (Reply StatusCreated (EmployeeResponse employee), db')
    end.
Proof.
  intros Hn Hp Hc.
  unfold EmployeeHandler.CreateEmployee. fold (created req).
  unfold the_service, NewEmployeeService.
  cbn [EmployeeService.CreateEmployee].
  unfold employeeService.CreateEmployee.
  rewrite (@validateEmployee_filled (created req) Hn Hp Hc).
  reflexivity.
Qed.

Lemma handler_Get_found (id : Z) (db : DB) (e : Employee) :
  fst (employeeRepository.GetByID id db) = (Some e, None) ->
  fst (EmployeeHandler.GetEmployee the_service lower (Some id) db)
  = Reply StatusOK (EmployeeResponse e).
Proof.
  intros H. unfold EmployeeHandler.GetEmployee, the_service,
              NewEmployeeService.
  cbn [EmployeeService.GetEmployee].
  unfold employeeService.GetEmployee, NewEmployeeRepository.
  cbn [EmployeeRepository.GetByID].
  destruct (employeeRepository.GetByID id db) as [[o1 o2] db'].
  injection H as -> ->. reflexivity.
Qed.

Lemma post_then_get (l : Locale) (req : CreateEmployeeRequest) (db : DB) :
  reachable l db ->
  exec_fault db = None ->
  seq db <= max_int4 ->
  create_Name req <> [] -> create_Phone req <> [] ->
  create_City req <> [] ->
  fits (created req) ->
  ~ In (create_Phone req) (phones (table db)) ->
  fst (EmployeeHandler.CreateEmployee the_service (Some req) db)
  = Reply StatusCreated
          (EmployeeResponse (set_ID (created req) (seq db)))
  /\ fst (EmployeeHandler.GetEmployee the_service lower (Some (seq db))
            (snd (EmployeeHandler.CreateEmployee the_service (Some req)
                    db)))
     = Reply StatusOK (EmployeeResponse (set_ID (created req) (seq db))).
Proof.
  intros Hr Hf Hseq Hn Hp Hc Hfit Hfree.
  rewrite (@handler_Create_filled req db Hn Hp Hc).
  pose proof (proj2 (@Create_outcome (created req) db Hf Hfit Hseq) Hfree)
    as Hcreate.
  destruct (employeeRepository.Create (created req) db) as [[o e'] db']
    eqn:Hc'.
  simpl in Hcreate. injection Hcreate as -> ->.
  split; [reflexivity|]. cbn [snd].
  destruct (@Create_read_back l _ _ _ _ Hr Hc')
    as (stored & Hget & _ & Hsame).
  rewrite (Hsame Hfit) in Hget. apply handler_Get_found. exact Hget.
Qed.

End EndToEnd.

(** X20: a POST answered with 201 can be fetched.  In a state that the
    store reaches, with the connection in order and the sequence within
    the range of the id column, a request to create an employee whose
    three fields are non-empty, fit their columns and whose phone no
    stored employee has is answered with 201 and the employee under the
    next id of the sequence, and a GET of that id right after it is
    answered with 200 and the same employee. *)
Theorem created_employee_is_served
        (l : Locale) (lower : rune -> rune) (req : CreateEmployeeRequest)
        (db : DB) :
  reachable l db ->
  exec_fault db = None ->
  seq db <= max_int4 ->
  create_Name req <> [] -> create_Phone req <> [] ->
  create_City req <> [] ->
  fits (created req) ->
  ~ In (create_Phone req) (phones (table db)) ->
  fst (EmployeeHandler.CreateEmployee the_service (Some req) db)
  = Reply StatusCreated
          (EmployeeResponse (set_ID (created req) (seq db)))
  /\ fst (EmployeeHandler.GetEmployee the_service lower (Some (seq db))
            (snd (EmployeeHandler.CreateEmployee the_service (Some req)
                    db)))
     = Reply StatusOK (EmployeeResponse (set_ID (created req) (seq db))).
Proof. exact (@post_then_get lower l req db). Qed.

Lemma created_employee_is_served_witness :
  reachable C_locale db_ann
  /\ fits (created (request_of carl))
  /\ fst (EmployeeHandler.GetEmployee the_service russian_lower (Some 2)
            (snd (EmployeeHandler.CreateEmployee the_service
                    (Some (request_of carl)) db_ann)))
     = Reply StatusOK (EmployeeResponse (employee 2 "Carl" "7772" "Astana")).
Proof.
  assert (Hr : reachable C_locale db_ann)
    by exact (reachable_step (reachable_empty C_locale)
                (step_Create ann (empty_DB C_locale))).
  assert (Hfit : fits (created (request_of carl)))
    by (unfold fits; repeat split; try reflexivity;
        apply Nat.leb_le; reflexivity).
  assert (Hseq : seq db_ann <= max_int4) by (intros H; discriminate H).
  assert (Hfree : ~ In (create_Phone (request_of carl))
                       (phones (table db_ann)))
    by (intros [H|[]]; discriminate H).
  assert (Hne : forall a : text, (exists x y, a = x :: y) -> a <> [])
    by (intros a (x & y & ->); discriminate).
  exact (conj Hr (conj Hfit
           (proj2 (@created_employee_is_served C_locale russian_lower
                     (request_of carl) db_ann Hr eq_refl Hseq
                     (Hne _ (ex_intro _ _ (ex_intro _ _ eq_refl)))
                     (Hne _ (ex_intro _ _ (ex_intro _ _ eq_refl)))
                     (Hne _ (ex_intro _ _ (ex_intro _ _ eq_refl)))
                     Hfit Hfree)))).
Defined.

Section AbsentId.

Variable lower : rune -> rune.
Hypothesis lower_small_russian :
  forall r, 1072 <= r <= 1103 \/ r = 32 -> lower r = r.

Lemma filter_absent (id : Z) (t : list Row) :
  ~ In id (ids t) ->
  filter (has_id id) t = []
  /\ filter (fun r => negb (has_id id r)) t = t.
Proof.
  unfold ids. induction t as [|x t IH]; simpl; intros Hn;
    [split; reflexivity|].
  assert (Hx : has_id id x = false)
    by (apply Z.eqb_neq; intros H; apply Hn; now left).
  rewrite Hx. simpl.
  destruct IH as [IH1 IH2]; [intros H; apply Hn; now right|].
  split; [exact IH1|now rewrite IH2].
Qed.

Lemma not_found_written (err : error) (db : DB) :
  EmployeeHandler.isNotFoundError lower err = true ->
  (if EmployeeHandler.isNotFoundError lower err
   then (EmployeeHandler.writeErrorResponse StatusNotFound
           "сотрудник не найден", db)
   else (EmployeeHandler.writeErrorResponse StatusInternalServerError
           "внутренняя ошибка сервера", db))
  = (not_found_answer, db).
Proof. intros ->. reflexivity. Qed.

Lemma get_absent (id : Z) (db : DB) :
  exec_fault db = None -> int4_ok id = true ->
  ~ In id (ids (table db)) ->
  EmployeeHandler.GetEmployee the_service lower (Some id) db
  = (not_found_answer, logged (SelectByIDStmt id) db).
Proof.
  intros Hf Hid Hn.
  unfold EmployeeHandler.GetEmployee, the_service, NewEmployeeService.
  cbn [EmployeeService.GetEmployee].
  unfold employeeService.GetEmployee, NewEmployeeRepository.
  cbn [EmployeeRepository.GetByID].
  unfold employeeRepository.GetByID, query_by_id.
  rewrite Hf, Hid, (proj2 (find_has_id id (table db)) Hn).
  cbn [negb]. apply not_found_written.
  now apply (@NotFoundError_isNotFoundError lower lower_small_russian).
Qed.

Lemma delete_absent (id : Z) (db : DB) :
  exec_fault db = None -> affected_fault db = None ->
  int4_ok id = true ->
  ~ In id (ids (table db)) ->
  EmployeeHandler.DeleteEmployee the_service lower (Some id) db
  = (not_found_answer, logged (DeleteStmt id) db).
Proof.
  intros Hf Ha Hid Hn.
  unfold EmployeeHandler.DeleteEmployee, the_service, NewEmployeeService.
  cbn [EmployeeService.DeleteEmployee].
  unfold employeeService.DeleteEmployee, NewEmployeeRepository.
  cbn [EmployeeRepository.Delete].
  unfold employeeRepository.Delete, exec_delete.
  destruct (filter_absent id (table db) Hn) as [H1 H2].
  rewrite Hf, Hid, H1, H2. cbn [negb].
  unfold result_of. rewrite Ha. cbn [RowsAffected List.length Z.of_nat].
  cbn [Z.eqb].
  replace (with_table (logged (DeleteStmt id) db) (table db))
    with (logged (DeleteStmt id) db) by reflexivity.
  apply not_found_written.
  now apply (@NotFoundError_isNotFoundError lower lower_small_russian).
Qed.

Lemma update_absent (id : Z) (req : UpdateEmployeeRequest) (db : DB) :
  exec_fault db = None -> affected_fault db = None ->
  int4_ok id = true ->
  ~ In id (ids (table db)) ->
  update_Name req <> [] -> update_Phone req <> [] ->
  update_City req <> [] ->
  fits (updated id req) ->
  EmployeeHandler.UpdateEmployee the_service lower (Some id) (Some req) db
  = (not_found_answer,
     logged (UpdateStmt id (update_Name req) (update_Phone req)
                        (update_City req)) db).
Proof.
  intros Hf Ha Hid Hn Hname Hphone Hcity Hfit.
  unfold EmployeeHandler.UpdateEmployee. fold (updated id req).
  unfold the_service, NewEmployeeService.
  cbn [EmployeeService.UpdateEmployee].
  unfold employeeService.UpdateEmployee.
  rewrite (@validateEmployee_filled (updated id req) Hname Hphone Hcity).
  unfold NewEmployeeRepository. cbn [EmployeeRepository.Update].
  unfold employeeRepository.Update, exec_update.
  rewrite (coerce_columns_fits Hfit).
  destruct (filter_absent id (table db) Hn) as [H1 H2].
  cbn [ID Name Phone City updated].
  rewrite Hf, Hid, H1. cbn [negb is_nil].
  unfold result_of. rewrite Ha. cbn [RowsAffected Z.eqb].
  apply not_found_written.
  now apply (@NotFoundError_isNotFoundError lower lower_small_russian).
Qed.

End AbsentId.

(** X21: an id that no stored employee has is answered with 404.  When
    the connection is in order, the id is in the range of the id column
    and no stored employee has it, the handlers of get and of delete
    answer 404 with "сотрудник не найден", and so does the handler of
    update for a body whose three fields are non-empty and fit their
    columns; in each case the rows of the store, the sequence and the
    state of the connection are as before, and the only trace is the
    statement sent.  [lower] is the case table of [unicode.ToLower]; what
    is used of it is that it leaves the small Russian letters and the
    space as they are. *)
Theorem absent_id_is_answered_404
        (lower : rune -> rune) (id : Z) (req : UpdateEmployeeRequest)
        (db : DB) :
  (forall r, 1072 <= r <= 1103 \/ r = 32 -> lower r = r) ->
  exec_fault db = None -> affected_fault db = None ->
  int4_ok id = true ->
  ~ In id (ids (table db)) ->
  EmployeeHandler.GetEmployee the_service lower (Some id) db
  = (not_found_answer, logged (SelectByIDStmt id) db)
  /\ EmployeeHandler.DeleteEmployee the_service lower (Some id) db
     = (not_found_answer, logged (DeleteStmt id) db)
  /\ (update_Name req <> [] -> update_Phone req <> [] ->
      update_City req <> [] ->
      fits (updated id req) ->
      EmployeeHandler.UpdateEmployee the_service lower (Some id)
                                     (Some req) db
      = (not_found_answer,
         logged (UpdateStmt id (update_Name req) (update_Phone req)
                            (update_City req)) db)).
Proof.
  intros Hlower Hf Ha Hid Hn. split; [|split].
  - now apply get_absent.
  - now apply delete_absent.
  - intros Hname Hphone Hcity Hfit. now apply update_absent.
Qed.

Lemma absent_id_is_answered_404_witness :
  (forall r, 1072 <= r <= 1103 \/ r = 32 -> russian_lower r = r)
  /\ ~ In 7 (ids (table db_ann))
  /\ EmployeeHandler.GetEmployee the_service russian_lower (Some 7) db_ann
     = (not_found_answer, logged (SelectByIDStmt 7) db_ann)
  /\ fits (updated 7 (change_to ann_moved))
  /\ EmployeeHandler.UpdateEmployee the_service russian_lower (Some 7)
       (Some (change_to ann_moved)) db_ann
     = (not_found_answer,
        logged (UpdateStmt 7 (runes "Ann") (runes "7779") (runes "Astana"))
               db_ann).
Proof.
  assert (Hn : ~ In 7 (ids (table db_ann)))
    by (intros [H|[]]; discriminate H).
  assert (Hfit : fits (updated 7 (change_to ann_moved)))
    by (unfold fits; repeat split; try reflexivity;
        apply Nat.leb_le; reflexivity).
  assert (Hne : forall a : text, (exists x y, a = x :: y) -> a <> [])
    by (intros a (x & y & ->); discriminate).
  split; [exact russian_lower_small|]. split; [exact Hn|].
  split.
  - exact (proj1 (@absent_id_is_answered_404 russian_lower 7
                    (change_to ann_moved) db_ann russian_lower_small
                    eq_refl eq_refl eq_refl Hn)).
  - split; [exact Hfit|].
    exact (proj2 (proj2 (@absent_id_is_answered_404 russian_lower 7
                           (change_to ann_moved) db_ann
                           russian_lower_small
                           eq_refl eq_refl eq_refl Hn))
                 (Hne _ (ex_intro _ _ (ex_intro _ _ eq_refl)))
                 (Hne _ (ex_intro _ _ (ex_intro _ _ eq_refl)))
                 (Hne _ (ex_intro _ _ (ex_intro _ _ eq_refl)))
                 Hfit).
Defined.

Section Refusals.

Variable lower : rune -> rune.

Lemma create_refused (req : CreateEmployeeRequest) (db : DB)
      (field message : text) :
  employeeService.validateEmployee (created req)
  = Some (ValidationError field message) ->
  EmployeeHandler.CreateEmployee the_service (Some req) db
  = (Reply StatusBadRequest (ErrorResponse message), db).
Proof.
  intros Hv.
  unfold EmployeeHandler.CreateEmployee. fold (created req).
  unfold the_service, NewEmployeeService.
  cbn [EmployeeService.CreateEmployee].
  unfold employeeService.CreateEmployee. rewrite Hv. reflexivity.
Qed.

Lemma update_refused (id : Z) (req : UpdateEmployeeRequest) (db : DB)
      (field message : text) :
  employeeService.validateEmployee (updated id req)
  = Some (ValidationError field message) ->
  EmployeeHandler.UpdateEmployee the_service lower (Some id) (Some req) db
  = (Reply StatusBadRequest (ErrorResponse message), db).
Proof.
  intros Hv.
  unfold EmployeeHandler.UpdateEmployee. fold (updated id req).
  unfold the_service, NewEmployeeService.
  cbn [EmployeeService.UpdateEmployee].
  unfold employeeService.UpdateEmployee. rewrite Hv. reflexivity.
Qed.

Lemma validateEmployee_first_empty (e : Employee) :
  (Name e = [] ->
   employeeService.validateEmployee e
   = Some (ValidationError (runes "name") (runes "имя обязательно")))
  /\ (Name e <> [] -> Phone e = [] ->
      employeeService.validateEmployee e
      = Some (ValidationError (runes "phone")
                              (runes "телефон обязателен")))
  /\ (Name e <> [] -> Phone e <> [] -> City e = [] ->
      employeeService.validateEmployee e
      = Some (ValidationError (runes "city") (runes "город обязателен"))).
Proof.
  rewrite validateEmployee_cases. split; [|split].
  - intros Hn. apply is_empty_true in Hn. now rewrite Hn.
  - intros Hn Hp. apply is_empty_false in Hn. apply is_empty_true in Hp.
    now rewrite Hn, Hp.
  - intros Hn Hp Hc. apply is_empty_false in Hn, Hp.
    apply is_empty_true in Hc. now rewrite Hn, Hp, Hc.
Qed.

End Refusals.

(** X22: a body with an empty field never reaches the store.  Over the
    service and the repository of the store, the handlers of create and
    of update answer a decoded body whose name is empty with 400 and
    "имя обязательно", one whose name is given and whose phone is empty
    with 400 and "телефон обязателен", and one whose city alone is empty
    with 400 and "город обязателен"; the store is left exactly as it
    was, no statement is sent, whatever the state of the connection and
    whether or not the id of the update exists. *)
Theorem empty_field_is_refused
        (lower : rune -> rune) (id : Z) (new : CreateEmployeeRequest)
        (change : UpdateEmployeeRequest) (db : DB) :
  (create_Name new = [] ->
   EmployeeHandler.CreateEmployee the_service (Some new) db
   = (Reply StatusBadRequest (ErrorResponse (runes "имя обязательно")),
      db))
  /\ (create_Name new <> [] -> create_Phone new = [] ->
      EmployeeHandler.CreateEmployee the_service (Some new) db
      = (Reply StatusBadRequest
               (ErrorResponse (runes "телефон обязателен")), db))
  /\ (create_Name new <> [] -> create_Phone new <> [] ->
      create_City new = [] ->
      EmployeeHandler.CreateEmployee the_service (Some new) db
      = (Reply StatusBadRequest
               (ErrorResponse (runes "город обязателен")), db))
  /\ (update_Name change = [] ->
      EmployeeHandler.UpdateEmployee the_service lower (Some id)
                                     (Some change) db
      = (Reply StatusBadRequest (ErrorResponse (runes "имя обязательно")),
         db))
  /\ (update_Name change <> [] -> update_Phone change = [] ->
      EmployeeHandler.UpdateEmployee the_service lower (Some id)
                                     (Some change) db
      = (Reply StatusBadRequest
               (ErrorResponse (runes "телефон обязателен")), db))
  /\ (update_Name change <> [] -> update_Phone change <> [] ->
      update_City change = [] ->
      EmployeeHandler.UpdateEmployee the_service lower (Some id)
                                     (Some change) db
      = (Reply StatusBadRequest
               (ErrorResponse (runes "город обязателен")), db)).
Proof.
  destruct (validateEmployee_first_empty (created new)) as (C1 & C2 & C3).
  destruct (validateEmployee_first_empty (updated id change))
    as (U1 & U2 & U3).
  split; [|split; [|split; [|split; [|split]]]].
  - intros Hn. exact (@create_refused new db _ _ (C1 Hn)).
  - intros Hn Hp. exact (@create_refused new db _ _ (C2 Hn Hp)).
  - intros Hn Hp Hc. exact (@create_refused new db _ _ (C3 Hn Hp Hc)).
  - intros Hn. exact (@update_refused lower id change db _ _ (U1 Hn)).
  - intros Hn Hp.
    exact (@update_refused lower id change db _ _ (U2 Hn Hp)).
  - intros Hn Hp Hc.
    exact (@update_refused lower id change db _ _ (U3 Hn Hp Hc)).
Qed.

Lemma empty_field_is_refused_witness :
  create_Name (request_of (employee 0 "" "7772" "Astana")) = []
  /\ EmployeeHandler.CreateEmployee the_service
       (Some (request_of (employee 0 "" "7772" "Astana"))) db_ann_down
     = (Reply StatusBadRequest (ErrorResponse (runes "имя обязательно")),
        db_ann_down).
Proof.
  exact (conj eq_refl
           (proj1 (@empty_field_is_refused russian_lower 1
                     (request_of (employee 0 "" "7772" "Astana"))
                     (change_to ann_moved) db_ann_down)
                  eq_refl)).
Defined.

(* ================================================================= *)
(** * The configuration *)

Section Configuration.

Variable Getenv : string -> text.

Lemma getEnv_cases (key defaultValue : string) :
  (Getenv key <> [] -> config.getEnv Getenv key defaultValue = Getenv key)
  /\ (Getenv key = [] ->
      config.getEnv Getenv key defaultValue = runes defaultValue).
Proof.
  unfold config.getEnv. split; intros H.
  - apply is_empty_false in H. now rewrite H.
  - apply is_empty_true in H. now rewrite H.
Qed.

Lemma getEnv_filled (key defaultValue : string) :
  runes defaultValue <> [] ->
  config.getEnv Getenv key defaultValue <> [].
Proof.
  intros Hd. unfold config.getEnv.
  destruct (is_empty (Getenv key)) eqn:H; cbn [negb]; [exact Hd|].
  now apply is_empty_false.
Qed.

Lemma NewConfig_filled :
  Forall (fun field => field <> [])
         (config.fields (fst (config.NewConfig Getenv))).
Proof.
  unfold config.NewConfig, config.fields. cbn [fst].
  cbn [config.DBHost config.DBPort config.DBUser config.DBPassword
       config.DBName config.DBSSLMode config.Port config.Environment].
  repeat (constructor; [apply getEnv_filled; discriminate|]).
  constructor.
Qed.

End Configuration.

(** X23: the configuration read from the environment always passes its
    own check.  Whatever the environment, [NewConfig] returns no error
    and a configuration none of whose fields is empty: a DB_PASSWORD that
    is not set, or set to the empty string, gives the password
    "postgres123", and one set to anything else gives that value.
    [ValidateConfig] refuses exactly
    the configurations with an empty password, hence none that
    [NewConfig] returns; and the address of the server is a colon
    followed by the port. *)
Theorem NewConfig_always_valid (Getenv : string -> text) :
  snd (config.NewConfig Getenv) = None
  /\ Forall (fun field => field <> [])
            (config.fields (fst (config.NewConfig Getenv)))
  /\ config.ValidateConfig (fst (config.NewConfig Getenv)) = None
  /\ (forall c : config.Config,
         config.ValidateConfig c = None <-> config.DBPassword c <> [])
  /\ (Getenv "DB_PASSWORD"%string = [] ->
      config.DBPassword (fst (config.NewConfig Getenv))
      = runes "postgres123")
  /\ (Getenv "DB_PASSWORD"%string <> [] ->
      config.DBPassword (fst (config.NewConfig Getenv))
      = Getenv "DB_PASSWORD"%string)
  /\ config.GetServerAddress (fst (config.NewConfig Getenv))
     = 58 :: config.Port (fst (config.NewConfig Getenv)).
Proof.
  assert (Hv : forall c : config.Config,
             config.ValidateConfig c = None <-> config.DBPassword c <> []).
  { intros c. unfold config.ValidateConfig.
    rewrite <- is_empty_false.
    destruct (is_empty (config.DBPassword c)); split; congruence. }
  pose proof (NewConfig_filled Getenv) as Hall.
  split; [reflexivity|]. split; [exact Hall|]. split.
  - apply Hv.
    unfold config.fields in Hall.
    exact (Forall_inv (Forall_inv_tail (Forall_inv_tail
                                          (Forall_inv_tail Hall)))).
  - split; [exact Hv|]. split; [|split].
    + exact (proj2 (getEnv_cases Getenv "DB_PASSWORD" "postgres123")).
    + exact (proj1 (getEnv_cases Getenv "DB_PASSWORD" "postgres123")).
    + reflexivity.
Qed.

Lemma NewConfig_always_valid_witness :
  config.no_environment "DB_PASSWORD"%string = []
  /\ config.DBPassword (fst (config.NewConfig config.no_environment))
     = runes "postgres123"
  /\ config.some_environment "DB_PASSWORD"%string <> []
  /\ config.DBPassword (fst (config.NewConfig config.some_environment))
     = runes "s3cret".
Proof.
  assert (Hset : config.some_environment "DB_PASSWORD"%string <> [])
    by (intros H; discriminate H).
  exact (conj eq_refl
           (conj (proj1 (proj2 (proj2 (proj2 (proj2
                    (@NewConfig_always_valid config.no_environment)))))
                    eq_refl)
              (conj Hset
                 (proj1 (proj2 (proj2 (proj2 (proj2 (proj2
                    (@NewConfig_always_valid config.some_environment))))))
                    Hset)))).
Defined.
